(** * Chat stream registry ([src/plugins/chat/chat_stream.py])

    A shallow embedding of [ChatStream] and [ChatManager]: the derivation of
    a stream id, the in-memory dictionary of streams, the [chat_streams]
    collection of the document store, the dirty flag and the load / save
    passes, followed by the properties that the specification states about
    them. *)

From Stdlib Require Import ZArith Lia List String Ascii DecimalString.
From Stdlib.Strings Require Import Byte.
From stdpp Require Import base list strings.

(** ** [hashlib.md5]

    The digest of RFC 1321 on a byte string, rendered as [hexdigest()] does:
    thirty-two lower-case hexadecimal digits.  Words are 32-bit, kept in [Z]
    with the wrap-around written out. *)
Module MD5.

Local Open Scope Z_scope.

Definition w32 (x : Z) : Z := Z.land x 0xffffffff.

Definition rotl (x : Z) (c : Z) : Z :=
  w32 (Z.lor (Z.shiftl x c) (Z.shiftr x (32 - c))).

Definition not32 (x : Z) : Z := Z.lxor x 0xffffffff.

Definition S_table : list Z :=
  [ 7; 12; 17; 22; 7; 12; 17; 22; 7; 12; 17; 22; 7; 12; 17; 22;
    5; 9; 14; 20; 5; 9; 14; 20; 5; 9; 14; 20; 5; 9; 14; 20;
    4; 11; 16; 23; 4; 11; 16; 23; 4; 11; 16; 23; 4; 11; 16; 23;
    6; 10; 15; 21; 6; 10; 15; 21; 6; 10; 15; 21; 6; 10; 15; 21 ].

(** [K_table[i] = floor (2^32 * |sin (i + 1)|)]. *)
Definition K_table : list Z :=
  [ 0xd76aa478; 0xe8c7b756; 0x242070db; 0xc1bdceee;
    0xf57c0faf; 0x4787c62a; 0xa8304613; 0xfd469501;
    0x698098d8; 0x8b44f7af; 0xffff5bb1; 0x895cd7be;
    0x6b901122; 0xfd987193; 0xa679438e; 0x49b40821;
    0xf61e2562; 0xc040b340; 0x265e5a51; 0xe9b6c7aa;
    0xd62f105d; 0x02441453; 0xd8a1e681; 0xe7d3fbc8;
    0x21e1cde6; 0xc33707d6; 0xf4d50d87; 0x455a14ed;
    0xa9e3e905; 0xfcefa3f8; 0x676f02d9; 0x8d2a4c8a;
    0xfffa3942; 0x8771f681; 0x6d9d6122; 0xfde5380c;
    0xa4beea44; 0x4bdecfa9; 0xf6bb4b60; 0xbebfbc70;
    0x289b7ec6; 0xeaa127fa; 0xd4ef3085; 0x04881d05;
    0xd9d4d039; 0xe6db99e5; 0x1fa27cf8; 0xc4ac5665;
    0xf4292244; 0x432aff97; 0xab9423a7; 0xfc93a039;
    0x655b59c3; 0x8f0ccc92; 0xffeff47d; 0x85845dd1;
    0x6fa87e4f; 0xfe2ce6e0; 0xa3014314; 0x4e0811a1;
    0xf7537e82; 0xbd3af235; 0x2ad7d2bb; 0xeb86d391 ].

(** The four working registers. *)
Record regs := Regs { rA : Z; rB : Z; rC : Z; rD : Z }.

Definition init_regs : regs :=
  Regs 0x67452301 0xefcdab89 0x98badcfe 0x10325476.

(** The auxiliary function of round [i / 16] and the index of the message
    word it mixes in. *)
Definition mix (i : nat) (b c d : Z) : Z * nat :=
  if (i <? 16)%nat then
    (Z.lor (Z.land b c) (Z.land (not32 b) d), i)
  else if (i <? 32)%nat then
    (Z.lor (Z.land d b) (Z.land (not32 d) c), (5 * i + 1) mod 16)%nat
  else if (i <? 48)%nat then
    (Z.lxor (Z.lxor b c) d, (3 * i + 5) mod 16)%nat
  else
    (Z.lxor c (Z.lor b (not32 d)), (7 * i) mod 16)%nat.

Definition step (m : list Z) (r : regs) (i : nat) : regs :=
  let '(f, g) := mix i (rB r) (rC r) (rD r) in
  let f' := w32 (f + rA r + nth i K_table 0 + nth g m 0) in
  Regs (rD r) (w32 (rB r + rotl f' (nth i S_table 0))) (rB r) (rC r).

Definition compress (h : regs) (m : list Z) : regs :=
  let r := fold_left (step m) (seq 0 64) h in
  Regs (w32 (rA h + rA r)) (w32 (rB h + rB r))
       (w32 (rC h + rC r)) (w32 (rD h + rD r)).

(** Little-endian bytes of a number, and back. *)
Fixpoint le_bytes (n : nat) (x : Z) : list Z :=
  match n with
  | O => []
  | S n' => Z.land x 0xff :: le_bytes n' (Z.shiftr x 8)
  end.

Fixpoint le_word (bs : list Z) : Z :=
  match bs with
  | [] => 0
  | b :: bs' => Z.lor b (Z.shiftl (le_word bs') 8)
  end.

(** [group k fuel l] cuts [l] into consecutive pieces of [k] elements. *)
Fixpoint group {A} (k : nat) (fuel : nat) (l : list A) : list (list A) :=
  match fuel, l with
  | O, _ | _, [] => []
  | S fuel', _ => firstn k l :: group k fuel' (skipn k l)
  end.

Definition pad (msg : list Z) : list Z :=
  let len := Z.of_nat (length msg) in
  msg ++ [0x80] ++ repeat 0 (Z.to_nat ((55 - len) mod 64))
      ++ le_bytes 8 (Z.land (8 * len) 0xffffffffffffffff).

Definition words_of_block (blk : list Z) : list Z :=
  map le_word (group 4 16 blk).

Definition digest_regs (msg : list Z) : regs :=
  let p := pad msg in
  fold_left compress (map words_of_block (group 64 (length p) p)) init_regs.

Definition digest (msg : list Z) : list Z :=
  let r := digest_regs msg in
  le_bytes 4 (rA r) ++ le_bytes 4 (rB r) ++ le_bytes 4 (rC r) ++ le_bytes 4 (rD r).

Definition hex_digit (x : Z) : ascii :=
  nth (Z.to_nat x)
      (list_ascii_of_string "0123456789abcdef") "0"%char.

Fixpoint hex_of_bytes (bs : list Z) : string :=
  match bs with
  | [] => EmptyString
  | b :: bs' =>
      String (hex_digit (Z.shiftr b 4))
             (String (hex_digit (Z.land b 0xf)) (hex_of_bytes bs'))
  end.

Definition bytes_of_string (s : string) : list Z :=
  map (fun b => Z.of_N (Byte.to_N b)) (list_byte_of_string s).

(** [hashlib.md5(s.encode()).hexdigest()]; a [str] is represented by its
    UTF-8 encoding, so [encode()] hands over the bytes of the string. *)
Definition hexdigest (s : string) : string :=
  hex_of_bytes (digest (bytes_of_string s)).

End MD5.

(** ** Python values and exceptions *)

(** The scalar values that an identifier or a field of an info dictionary
    takes. *)
Inductive pyval :=
| PyNone
| PyInt (z : Z)
| PyStr (s : string).

(** [str(v)] *)
Definition py_str (v : pyval) : string :=
  match v with
  | PyNone => "None"
  | PyInt z => NilZero.string_of_int (Z.to_int z)
  | PyStr s => s
  end.

(** The dictionary that [UserInfo.to_dict()] / [GroupInfo.to_dict()] returns
    and that is stored as a sub-document. *)
Definition pydict : Type := list (string * pyval).

(** [bool(d)] for a dictionary: non-empty. *)
Definition dict_bool {A} (d : list A) : bool :=
  match d with
  | [] => false
  | _ :: _ => true
  end.

(** The exceptions that the code can meet.  [StoreError] stands for any
    exception thrown by the database driver.  [InvalidRef] is not a Python
    exception: it marks a reference outside the object heap, which the
    well-formedness invariant below excludes. *)
Inductive exn :=
| AttributeError
| KeyError (key : string)
| TypeError
| StoreError
| InvalidRef.

Inductive result (A : Type) :=
| Ok (a : A)
| Raise (e : exn).

Arguments Ok {A} a.
Arguments Raise {A} e.

(** A Python [dict] with string keys: an association list in insertion
    order.  Assigning to a key that is present keeps its position. *)
Fixpoint dict_get {V} (d : list (string * V)) (k : string) : option V :=
  match d with
  | [] => None
  | (k', v) :: d' => if decide (k' = k) then Some v else dict_get d' k
  end.

Fixpoint dict_set {V} (d : list (string * V)) (k : string) (v : V)
  : list (string * V) :=
  match d with
  | [] => [(k, v)]
  | (k', v') :: d' =>
      if decide (k' = k) then (k', v) :: d' else (k', v') :: dict_set d' k v
  end.

Definition dict_values {V} (d : list (string * V)) : list V := map snd d.

Definition dict_keys {V} (d : list (string * V)) : list string := map fst d.

(** ** The collaborators

    [UserInfo] and [GroupInfo] come from [message_base], which is outside
    this file: the code only reads [user_id] / [group_id], calls [to_dict()]
    and builds an object from the keywords of a stored dictionary. *)
Class MessageBase := {
  UserInfo : Type;
  GroupInfo : Type;
  user_id : UserInfo → pyval;
  group_id : GroupInfo → pyval;
  UserInfo_to_dict : UserInfo → pydict;
  GroupInfo_to_dict : GroupInfo → pydict;
  (** the constructor applied to the keywords of a dictionary; may raise *)
  UserInfo_kwargs : pydict → result UserInfo;
  GroupInfo_kwargs : pydict → result GroupInfo;
}.

(** What the process cannot control: [clock n] is the value of
    [int(time.time())] at the [n]-th reading, and [store_down n] tells
    whether the [n]-th call of the database driver raises. *)
Class Environment := {
  clock : nat → Z;
  store_down : nat → bool;
}.

(** ** [ChatStream], the stored documents and the state of the process *)
Section Model.

Context `{MB : MessageBase} `{Env : Environment}.

(** An object of class [ChatStream]; [saved = false] is the dirty flag. *)
Record ChatStream := mkChatStream {
  stream_id : string;
  platform : string;
  user_info : option UserInfo;
  group_info : option GroupInfo;
  create_time : Z;
  last_active_time : Z;
  saved : bool;
}.

(** A document of the collection [chat_streams], seen through the keys that
    the code reads and writes.  [None] stands for a key that is absent (for
    the two info fields: absent or null, which [data.get] does not tell
    apart). *)
Record Doc := mkDoc {
  d_stream_id : option string;
  d_platform : option string;
  d_user_info : option pydict;
  d_group_info : option pydict;
  d_create_time : option Z;
  d_last_active_time : option Z;
}.

(** [bool(data)]: the document has a key. *)
Definition doc_bool (d : Doc) : bool :=
  bool_decide (is_Some (d_stream_id d)) || bool_decide (is_Some (d_platform d))
  || bool_decide (is_Some (d_user_info d)) || bool_decide (is_Some (d_group_info d))
  || bool_decide (is_Some (d_create_time d))
  || bool_decide (is_Some (d_last_active_time d)).

(** The calls made to the database driver. *)
Inductive store_op :=
| FindOne (id : string)
| FindAll
| UpdateOne (id : string) (d : Doc).

(** What the two background tasks write to the logger. *)
Inductive log_entry :=
| LogLoaded (n : nat)
| LogLoadFailed (e : exn)
| LogAutoSaved
| LogAutoSaveFailed (e : exn).

(** The state of the process and of the store.  [ChatStream] objects live in
    [heap] and are referred to by their index, so that the dictionary
    [streams] and the callers of [get_or_create_stream] share them. *)
Record World := mkWorld {
  heap : list ChatStream;
  streams : list (string * nat);
  chat_streams : list Doc;
  ticks : nat;
  store_log : list store_op;
  logger : list log_entry;
}.

Definition set_heap (f : list ChatStream → list ChatStream) (w : World) : World :=
  mkWorld (f (heap w)) (streams w) (chat_streams w) (ticks w) (store_log w) (logger w).

Definition set_streams (f : list (string * nat) → list (string * nat)) (w : World)
  : World :=
  mkWorld (heap w) (f (streams w)) (chat_streams w) (ticks w) (store_log w) (logger w).

Definition set_chat_streams (c : list Doc) (w : World) : World :=
  mkWorld (heap w) (streams w) c (ticks w) (store_log w) (logger w).

Definition set_ticks (n : nat) (w : World) : World :=
  mkWorld (heap w) (streams w) (chat_streams w) n (store_log w) (logger w).

Definition set_store_log (l : list store_op) (w : World) : World :=
  mkWorld (heap w) (streams w) (chat_streams w) (ticks w) l (logger w).

Definition set_logger (l : list log_entry) (w : World) : World :=
  mkWorld (heap w) (streams w) (chat_streams w) (ticks w) (store_log w) l.

(** *** The monad of the methods: state with exceptions

    A method takes the state and gives a result or an exception together
    with the state it leaves; what was mutated before an exception stays
    mutated.  No method below suspends between its first and last statement
    (the only [await]s are on [_save_stream] and on coroutines without an
    inner suspension point), so each runs atomically on the event loop. *)
Definition M (A : Type) : Type := World → result A * World.

#[global] Instance M_ret : MRet M := λ A a w, (Ok a, w).

#[global] Instance M_bind : MBind M := λ A B f m w,
  match m w with
  | (Ok a, w') => f a w'
  | (Raise e, w') => (Raise e, w')
  end.

Definition raise {A} (e : exn) : M A := λ w, (Raise e, w).

Definition lift {A} (r : result A) : M A := λ w, (r, w).

Definition gets {A} (f : World → A) : M A := λ w, (Ok (f w), w).

Definition modify (f : World → World) : M unit := λ w, (Ok (), f w).

(** [try: body except Exception as e: handler(e)] *)
Definition try_except {A} (body : M A) (handler : exn → M A) : M A := λ w,
  match body w with
  | (Ok a, w') => (Ok a, w')
  | (Raise e, w') => handler e w'
  end.

(** [for x in l: body(x)] *)
Fixpoint for_each {A} (l : list A) (body : A → M unit) : M unit :=
  match l with
  | [] => mret ()
  | x :: l' => body x;; for_each l' body
  end.

(** Objects: allocation, reading and assignment through a reference. *)
Definition new_object (s : ChatStream) : M nat := λ w,
  (Ok (length (heap w)), set_heap (λ h, h ++ [s]) w).

Definition deref (l : nat) : M ChatStream := λ w,
  match heap w !! l with
  | Some s => (Ok s, w)
  | None => (Raise InvalidRef, w)
  end.

Definition assign (l : nat) (f : ChatStream → ChatStream) : M unit :=
  s ← deref l; modify (set_heap (λ h, <[l := f s]> h)).

(** [int(time.time())] *)
Definition time_time : M Z := λ w,
  (Ok (clock (ticks w)), set_ticks (S (ticks w)) w).

Definition log (e : log_entry) : M unit :=
  modify (λ w, set_logger (logger w ++ [e]) w).

(** *** The collection [db.db.chat_streams] *)

(** A call of the driver is recorded; it raises when the store is down, and
    then leaves the collection as it was. *)
Definition store_call {A} (op : store_op) (run : list Doc → A * list Doc)
  : M A := λ w,
  let n := length (store_log w) in
  let w1 := set_store_log (store_log w ++ [op]) w in
  if store_down n then (Raise StoreError, w1)
  else let '(a, c) := run (chat_streams w) in (Ok a, set_chat_streams c w1).

(** The filter [{"stream_id": id}]. *)
Definition matches (id : string) (d : Doc) : bool :=
  bool_decide (d_stream_id d = Some id).

(** [update_one(filter, {"$set": upd}, upsert=True)] on a collection: the
    first document that matches receives the fields of [upd]; when none
    matches, a document is inserted.  [to_dict] lists all six keys, so the
    fields seen here are those of [upd] in both cases. *)
Fixpoint upsert (id : string) (upd : Doc) (c : list Doc) : list Doc :=
  match c with
  | [] => [upd]
  | d :: c' => if matches id d then upd :: c' else d :: upsert id upd c'
  end.

(** [find_one({"stream_id": id})]: the first document that matches. *)
Definition find_one (id : string) : M (option Doc) :=
  store_call (FindOne id) (λ c, (find (matches id) c, c)).

(** [find({})]: the documents in the order of the collection. *)
Definition find_all : M (list Doc) :=
  store_call FindAll (λ c, (c, c)).

Definition update_one (id : string) (upd : Doc) : M unit :=
  store_call (UpdateOne id upd) (λ c, ((), upsert id upd c)).

(** *** class [ChatStream] *)

(** [ChatStream.__init__]: one reading of the clock, whichever branch is
    taken (the default of [data.get] is evaluated before the call). *)
Definition ChatStream_init (stream_id platform : string)
    (user_info : option UserInfo) (group_info : option GroupInfo)
    (data : option Doc) : M nat :=
  now ← time_time;
  let create_time :=
    match data with
    | Some d => if doc_bool d then default now (d_create_time d) else now
    | None => now
    end in
  let last_active_time :=
    match data with
    | Some d =>
        if doc_bool d then default create_time (d_last_active_time d)
        else create_time
    | None => create_time
    end in
  new_object
    (mkChatStream stream_id platform user_info group_info
                  create_time last_active_time false).

(** [ChatStream.to_dict]; an object is truthy, so an info that is not
    [None] is serialised. *)
Definition to_dict (s : ChatStream) : Doc :=
  mkDoc (Some (stream_id s))
        (Some (platform s))
        (match user_info s with
         | Some u => Some (UserInfo_to_dict u)
         | None => None
         end)
        (match group_info s with
         | Some g => Some (GroupInfo_to_dict g)
         | None => None
         end)
        (Some (create_time s))
        (Some (last_active_time s)).

(** [ChatStream.from_dict] *)
Definition from_dict (data : Doc) : M nat :=
  user_info ←
    match d_user_info data with
    | Some kw =>
        if dict_bool kw then u ← lift (UserInfo_kwargs kw); mret (Some u)
        else mret None
    | None => mret None
    end;
  group_info ←
    match d_group_info data with
    | Some kw =>
        if dict_bool kw then g ← lift (GroupInfo_kwargs kw); mret (Some g)
        else mret None
    | None => mret None
    end;
  stream_id ←
    match d_stream_id data with
    | Some x => mret x
    | None => raise (KeyError "stream_id")
    end;
  platform ←
    match d_platform data with
    | Some x => mret x
    | None => raise (KeyError "platform")
    end;
  ChatStream_init stream_id platform user_info group_info (Some data).

Definition set_user_info (u : option UserInfo) (s : ChatStream) : ChatStream :=
  mkChatStream (stream_id s) (platform s) u (group_info s)
               (create_time s) (last_active_time s) (saved s).

Definition set_group_info (g : option GroupInfo) (s : ChatStream) : ChatStream :=
  mkChatStream (stream_id s) (platform s) (user_info s) g
               (create_time s) (last_active_time s) (saved s).

Definition set_last_active_time (t : Z) (s : ChatStream) : ChatStream :=
  mkChatStream (stream_id s) (platform s) (user_info s) (group_info s)
               (create_time s) t (saved s).

Definition set_saved (b : bool) (s : ChatStream) : ChatStream :=
  mkChatStream (stream_id s) (platform s) (user_info s) (group_info s)
               (create_time s) (last_active_time s) b.

(** [ChatStream.update_active_time] *)
Definition update_active_time (self : nat) : M unit :=
  now ← time_time;
  assign self (set_last_active_time now);;
  assign self (set_saved false).

(** *** class [ChatManager] *)

(** [ChatManager._generate_stream_id]; reading [user_id] of [None] raises. *)
Definition _generate_stream_id (platform : string)
    (user_info : option UserInfo) (group_info : option GroupInfo)
  : result string :=
  match user_info with
  | None => Raise AttributeError
  | Some u =>
      let components :=
        [ platform;
          py_str (user_id u);
          match group_info with
          | Some g => py_str (group_id g)
          | None => "private"
          end ] in
      let key := String.concat "_" components in
      Ok (MD5.hexdigest key)
  end.

(** [ChatManager._save_stream] *)
Definition _save_stream (stream : nat) : M unit :=
  s ← deref stream;
  if negb (saved s) then
    update_one (stream_id s) (to_dict s);;
    assign stream (set_saved true)
  else mret ().

(** [ChatManager.get_or_create_stream]; [if group_info] holds when a group
    info object is passed (an object is truthy), [if data] when the store
    has answered with a document. *)
Definition get_or_create_stream (platform : string)
    (user_info : option UserInfo) (group_info : option GroupInfo) : M nat :=
  stream_id ← lift (_generate_stream_id platform user_info group_info);
  in_memory ← gets (λ w, dict_get (streams w) stream_id);
  match in_memory with
  | Some stream =>
      assign stream (set_user_info user_info);;
      match group_info with
      | Some _ => assign stream (set_group_info group_info)
      | None => mret ()
      end;;
      update_active_time stream;;
      mret stream
  | None =>
      data ← find_one stream_id;
      stream ←
        match data with
        | Some d =>
            if doc_bool d then
              stream ← from_dict d;
              assign stream (set_user_info user_info);;
              match group_info with
              | Some _ => assign stream (set_group_info group_info)
              | None => mret ()
              end;;
              update_active_time stream;;
              mret stream
            else
              ChatStream_init stream_id platform user_info group_info None
        | None =>
            ChatStream_init stream_id platform user_info group_info None
        end;
      modify (set_streams (λ d, dict_set d stream_id stream));;
      _save_stream stream;;
      mret stream
  end.

(** [ChatManager.get_stream] *)
Definition get_stream (stream_id : string) : M (option nat) :=
  gets (λ w, dict_get (streams w) stream_id).

(** [ChatManager.get_stream_by_info] *)
Definition get_stream_by_info (platform : string)
    (user_info : option UserInfo) (group_info : option GroupInfo)
  : M (option nat) :=
  stream_id ← lift (_generate_stream_id platform user_info group_info);
  gets (λ w, dict_get (streams w) stream_id).

(** [ChatManager._save_all_streams] *)
Definition _save_all_streams : M unit :=
  values ← gets (λ w, dict_values (streams w));
  for_each values _save_stream.

(** [ChatManager.load_all_streams] *)
Definition load_all_streams : M unit :=
  all_streams ← find_all;
  for_each all_streams (λ data,
    stream ← from_dict data;
    s ← deref stream;
    modify (set_streams (λ d, dict_set d (stream_id s) stream))).

(** [ChatManager._initialize] *)
Definition _initialize : M unit :=
  try_except
    (load_all_streams;;
     n ← gets (λ w, length (streams w));
     log (LogLoaded n))
    (λ e, log (LogLoadFailed e)).

(** One round of the loop of [ChatManager._auto_save_task], after the
    sleep. *)
Definition _auto_save_round : M unit :=
  try_except
    (_save_all_streams;; log LogAutoSaved)
    (λ e, log (LogAutoSaveFailed e)).

(** *** The life of the process

    A new process starts with an empty dictionary on the store it finds;
    afterwards the event loop runs calls of [get_or_create_stream], the
    loading pass and the rounds of the auto-save task, one whole method at a
    time. *)
Definition startup (w : World) : World :=
  mkWorld [] [] (chat_streams w) (ticks w) (store_log w) (logger w).

Definition world0 : World := mkWorld [] [] [] 0 [] [].

Inductive action :=
| GetOrCreate (platform : string) (user_info : option UserInfo)
              (group_info : option GroupInfo)
| Initialize
| AutoSave
| NewProcess.

Definition run (a : action) (w : World) : World :=
  match a with
  | GetOrCreate p u g => snd (get_or_create_stream p u g w)
  | Initialize => snd (_initialize w)
  | AutoSave => snd (_auto_save_round w)
  | NewProcess => startup w
  end.

Inductive reachable : World → Prop :=
| reachable_start : reachable world0
| reachable_run a w : reachable w → reachable (run a w).

End Model.

Arguments World {MB}.
Arguments ChatStream {MB}.
Arguments action {MB}.

(** ** Instances used in the examples

    A user info made of an identifier and a nickname, a group info made of
    an identifier; both serialise to a dictionary that lists every field and
    are rebuilt from exactly such a dictionary. *)
Module Sample.

Definition user_to_dict (u : pyval * string) : pydict :=
  [("user_id"%string, u.1); ("user_nickname"%string, PyStr u.2)].

Definition user_kwargs (kw : pydict) : result (pyval * string) :=
  match dict_get kw "user_id", dict_get kw "user_nickname", kw with
  | Some i, Some (PyStr n), [_; _] => Ok (i, n)
  | _, _, _ => Raise TypeError
  end.

Definition group_to_dict (g : pyval) : pydict := [("group_id"%string, g)].

Definition group_kwargs (kw : pydict) : result pyval :=
  match dict_get kw "group_id", kw with
  | Some i, [_] => Ok i
  | _, _ => Raise TypeError
  end.

#[global] Instance message_base : MessageBase := {|
  UserInfo := pyval * string;
  GroupInfo := pyval;
  user_id := fst;
  group_id := id;
  UserInfo_to_dict := user_to_dict;
  GroupInfo_to_dict := group_to_dict;
  UserInfo_kwargs := user_kwargs;
  GroupInfo_kwargs := group_kwargs;
|}.

(** A clock that advances by one second at each reading, with a store that
    never fails, and the same clock with a store whose first call, or second
    call, fails. *)
Definition env_up : Environment :=
  {| clock := λ n, (1000 + Z.of_nat n)%Z; store_down := λ _, false |}.

Definition env_down_at (k : nat) : Environment :=
  {| clock := λ n, (1000 + Z.of_nat n)%Z;
     store_down := λ n, bool_decide (n = k) |}.

Definition alice : UserInfo := (PyInt 42, "alice"%string).
Definition alice' : UserInfo := (PyInt 42, "Alice in Wonderland"%string).
Definition nobody : UserInfo := (PyNone, "ghost"%string).
Definition group7 : GroupInfo := PyInt 7.
Definition group_private : GroupInfo := PyStr "private".

Definition alice_id : string := "27701e99f5a472c7243eff0c8dae6aa0".

(** A process that holds one new record for alice, not yet written. *)
Definition s_new : ChatStream :=
  mkChatStream alice_id "qq" (Some alice) None 1000 1000 false.

Definition w_dirty : World := mkWorld [s_new] [(alice_id, 0%nat)] [] 1 [] [].

(** The state after a first call for alice on an empty store. *)
Definition w_alice : World :=
  run (Env := env_up) (GetOrCreate "qq" (Some alice) None) world0.

(** The state after a second call for alice, with a new nickname: the record
    in memory is ahead of the store. *)
Definition w_updated : World :=
  run (Env := env_up) (GetOrCreate "qq" (Some alice') None) w_alice.



(** A new process on the store that the first one leaves. *)
Definition w_restarted : World := run (Env := env_up) NewProcess w_updated.

End Sample.

(** ** Predicates used in the statements *)
Section Predicates.

Context `{MB : MessageBase} `{Env : Environment}.

(** The clock never goes back. *)
Definition clock_monotone : Prop := ∀ n, (clock n ≤ clock (S n))%Z.

(** The third component of the key of a stream id. *)
Definition group_component (group_info : option GroupInfo) : string :=
  match group_info with
  | Some g => py_str (group_id g)
  | None => "private"
  end.

Definition is_hex_digit (c : ascii) : bool :=
  existsb (Ascii.eqb c) (list_ascii_of_string "0123456789abcdef").

(** The two times that [ChatStream.__init__] picks, given [data] and the
    reading [now] of the clock. *)
Definition init_create_time (data : option Doc) (now : Z) : Z :=
  match data with
  | Some d => if doc_bool d then default now (d_create_time d) else now
  | None => now
  end.

Definition init_last_active_time (data : option Doc) (now : Z) : Z :=
  match data with
  | Some d =>
      if doc_bool d
      then default (init_create_time data now) (d_last_active_time d)
      else init_create_time data now
  | None => init_create_time data now
  end.

(** The object that [from_dict] builds from a document when the clock reads
    [now], or the exception that it raises. *)
Definition doc_record (data : Doc) (now : Z) : result ChatStream :=
  match
    match d_user_info data with
    | Some kw =>
        if dict_bool kw then
          match UserInfo_kwargs kw with
          | Ok u => Ok (Some u)
          | Raise e => Raise e
          end
        else Ok None
    | None => Ok None
    end
  with
  | Raise e => Raise e
  | Ok u =>
      match
        match d_group_info data with
        | Some kw =>
            if dict_bool kw then
              match GroupInfo_kwargs kw with
              | Ok g => Ok (Some g)
              | Raise e => Raise e
              end
            else Ok None
        | None => Ok None
        end
      with
      | Raise e => Raise e
      | Ok g =>
          match d_stream_id data, d_platform data with
          | None, _ => Raise (KeyError "stream_id")
          | Some _, None => Raise (KeyError "platform")
          | Some sid, Some p =>
              Ok (mkChatStream sid p u g
                    (init_create_time (Some data) now)
                    (init_last_active_time (Some data) now) false)
          end
      end
  end.

(** The record that [get_or_create_stream] holds when it reaches its
    persist step after a miss in memory, with the number of clock readings
    made so far: [found] is the answer of the store. *)
Definition fetched (id p : string) (u : option UserInfo)
    (g : option GroupInfo) (found : option Doc) (w : World)
  : result (ChatStream * nat) :=
  let created :=
    Ok (mkChatStream id p u g (clock (ticks w)) (clock (ticks w)) false,
        S (ticks w)) in
  match found with
  | Some d =>
      if doc_bool d then
        match doc_record d (clock (ticks w)) with
        | Ok s =>
            Ok (mkChatStream (stream_id s) (platform s) u
                  (match g with Some _ => g | None => group_info s end)
                  (create_time s) (clock (S (ticks w))) false,
                S (S (ticks w)))
        | Raise e => Raise e
        end
      else created
  | None => created
  end.

(** The store operations issued between two states. *)
Definition issued (w w' : World) : list store_op :=
  drop (length (store_log w)) (store_log w').

Definition is_write (op : store_op) : bool :=
  match op with
  | UpdateOne _ _ => true
  | _ => false
  end.

(** The body of the loop of [load_all_streams]. *)
Definition load_body (data : Doc) : M unit :=
  stream ← from_dict data;
  s ← deref stream;
  modify (set_streams (λ d, dict_set d (stream_id s) stream)).

(** [from_dict] accepts the document. *)
Definition loadable (d : Doc) : bool :=
  match doc_record d 0 with
  | Ok _ => true
  | Raise _ => false
  end.

(** The store answers from the [n]-th call on. *)
Definition store_up_from (n : nat) : Prop :=
  ∀ k, n ≤ k → store_down k = false.

(** The unique index on [stream_id]. *)
Definition store_unique (c : list Doc) : Prop := NoDup (map d_stream_id c).

(** *** Invariants of the reachable states *)

(** Every entry of [streams] refers to an object, whose id is the key. *)
Definition refs_ok (w : World) : Prop :=
  ∀ id l, dict_get (streams w) id = Some l →
          ∃ s, heap w !! l = Some s ∧ stream_id s = id.

(** Every stored document was written by [to_dict]. *)
Definition docs_written (w : World) : Prop :=
  ∀ d, d ∈ chat_streams w → ∃ s, d = to_dict s.

(** A record of [streams] that is not dirty is in the store as it is. *)
Definition clean_in_store (w : World) : Prop :=
  ∀ id l s, dict_get (streams w) id = Some l → heap w !! l = Some s →
            saved s = true → to_dict s ∈ chat_streams w.

Record consistent (w : World) : Prop := {
  cons_keys : NoDup (dict_keys (streams w));
  cons_refs : refs_ok w;
  cons_docs : docs_written w;
  cons_unique : store_unique (chat_streams w);
  cons_clean : clean_in_store w;
}.

(** The times of the objects and of the documents are in order and not
    ahead of the clock. *)
Definition heap_times_ok (w : World) : Prop :=
  ∀ l s, heap w !! l = Some s →
         (create_time s ≤ last_active_time s)%Z
         ∧ (last_active_time s ≤ clock (ticks w))%Z.

Definition doc_times_ok (w : World) : Prop :=
  ∀ d, d ∈ chat_streams w →
       ∃ ct lat, d_create_time d = Some ct ∧ d_last_active_time d = Some lat
                 ∧ (ct ≤ lat)%Z ∧ (lat ≤ clock (ticks w))%Z.

Record timely (w : World) : Prop := {
  timely_heap : heap_times_ok w;
  timely_docs : doc_times_ok w;
}.

End Predicates.

(** The collaborators serialise an info to a non-empty dictionary from which
    their constructor rebuilds it. *)
Class Lawful (MB : MessageBase) : Prop := {
  user_roundtrip : ∀ u, UserInfo_kwargs (UserInfo_to_dict u) = Ok u;
  user_dict_nonempty : ∀ u, dict_bool (UserInfo_to_dict u) = true;
  group_roundtrip : ∀ g, GroupInfo_kwargs (GroupInfo_to_dict g) = Ok g;
  group_dict_nonempty : ∀ g, dict_bool (GroupInfo_to_dict g) = true;
}.

(** ** The rest of [ChatManager] *)
Section MoreModel.

Context `{MB : MessageBase} `{Env : Environment}.

(** The constructors called by [from_dict] accept the info dictionaries of
    the document. *)
Definition infos_accepted (d : Doc) : Prop :=
  (∀ kw, d_user_info d = Some kw → dict_bool kw = true →
         ∃ u, UserInfo_kwargs kw = Ok u)
  ∧ (∀ kw, d_group_info d = Some kw → dict_bool kw = true →
           ∃ g, GroupInfo_kwargs kw = Ok g).

(** [n] turns of the loop of [ChatManager._auto_save_task]; the sleep that
    opens each turn changes nothing here. *)
Fixpoint _auto_save_task (n : nat) : M unit :=
  match n with
  | O => mret ()
  | S n' => _auto_save_round;; _auto_save_task n'
  end.

(** The serialisation of the record that an entry of [streams] refers to. *)
Definition registered_doc (w : World) (id : string) : option Doc :=
  match dict_get (streams w) id with
  | Some l => to_dict <$> heap w !! l
  | None => None
  end.

(** The document is a former state of the record: same platform and
    creation time, and an activity time that is not later. *)
Definition former_state (d : Doc) (s : ChatStream) : Prop :=
  d_platform d = Some (platform s)
  ∧ d_create_time d = Some (create_time s)
  ∧ ∃ lat, d_last_active_time d = Some lat ∧ (lat ≤ last_active_time s)%Z.

(** The store is never ahead of memory: the document stored for the id of a
    record of [streams] is a former state of that record. *)
Definition store_behind (w : World) : Prop :=
  ∀ id l s d, dict_get (streams w) id = Some l → heap w !! l = Some s →
              d ∈ chat_streams w → d_stream_id d = Some id →
              former_state d s.

(** [s'] is the object [s] at a later time: its id, its platform and its
    creation time are the ones it was built with. *)
Definition same_identity (s s' : ChatStream) : Prop :=
  stream_id s' = stream_id s
  ∧ platform s' = platform s
  ∧ create_time s' = create_time s.

(** The actions that rebind no entry of [streams]: a call of
    [get_or_create_stream] and a round of the auto-save task.  The loading
    pass rebinds the entries of the stored ids, and a new process starts
    with no entry. *)
Definition keeps_entries (a : action) : bool :=
  match a with
  | GetOrCreate _ _ _ | AutoSave => true
  | Initialize | NewProcess => false
  end.

(** The state after a sequence of actions, the first of the list first. *)
Definition run_all (acts : list action) (w : World) : World :=
  foldl (λ w0 a, run a w0) w acts.

End MoreModel.

(** *** [ChatManager._ensure_collection]

    The catalogue of the database: the collections with their indexes, and
    the number of calls made to the driver, each of which may raise. *)
Record Index := mkIndex {
  ix_keys : list (string * Z);
  ix_unique : bool;
}.

#[global] Instance Index_eq_dec : EqDecision Index.
Proof. solve_decision. Defined.

Record Catalog := mkCatalog {
  collections : list (string * list Index);
  driver_calls : nat;
}.

Section EnsureCollection.

Context `{Env : Environment}.

Definition CM (A : Type) : Type := Catalog → result A * Catalog.

#[global] Instance CM_ret : MRet CM := λ A a c, (Ok a, c).

#[global] Instance CM_bind : MBind CM := λ A B f m c,
  match m c with
  | (Ok a, c') => f a c'
  | (Raise e, c') => (Raise e, c')
  end.

(** A call of the driver on the catalogue: counted, and without effect when
    it raises. *)
Definition driver_call {A} (run : list (string * list Index)
                                  → result A * list (string * list Index))
  : CM A := λ c,
  let c1 := mkCatalog (collections c) (S (driver_calls c)) in
  if store_down (driver_calls c) then (Raise StoreError, c1)
  else let '(r, cs) := run (collections c) in
       (r, mkCatalog cs (S (driver_calls c))).

(** [db.list_collection_names()] *)
Definition list_collection_names : CM (list string) :=
  driver_call (λ cs, (Ok (dict_keys cs), cs)).

(** [db.create_collection(name)], which refuses a name that exists. *)
Definition create_collection (name : string) : CM unit :=
  driver_call (λ cs,
    match dict_get cs name with
    | Some _ => (Raise StoreError, cs)
    | None => (Ok (), dict_set cs name [])
    end).

(** [db[name].create_index(keys, unique=...)]; the collection comes into
    being if it was not there, and an index that is there is not added
    again. *)
Definition create_index (name : string) (keys : list (string * Z))
    (unique : bool) : CM unit :=
  driver_call (λ cs,
    let old := default [] (dict_get cs name) in
    let ix := mkIndex keys unique in
    (Ok (),
     dict_set cs name
       (if bool_decide (ix ∈ old) then old else old ++ [ix]))).

Definition stream_id_index : Index :=
  mkIndex [("stream_id"%string, 1%Z)] true.

Definition identity_index : Index :=
  mkIndex [("platform"%string, 1%Z); ("user_info.user_id"%string, 1%Z);
           ("group_info.group_id"%string, 1%Z)] false.

(** [ChatManager._ensure_collection] *)
Definition _ensure_collection : CM unit :=
  names ← list_collection_names;
  if bool_decide ("chat_streams"%string ∈ names) then mret ()
  else
    create_collection "chat_streams";;
    create_index "chat_streams" (ix_keys stream_id_index)
                 (ix_unique stream_id_index);;
    create_index "chat_streams" (ix_keys identity_index)
                 (ix_unique identity_index).

End EnsureCollection.

Module Sample2.

(** A database without collections, and one where [chat_streams] exists
    without any index. *)
Definition cat_empty : Catalog := mkCatalog [] 0.

Definition cat_bare : Catalog := mkCatalog [("chat_streams"%string, [])] 0.

(** A document of an older layout: a last activity but no creation time. *)
Definition legacy_doc : Doc :=
  mkDoc (Some Sample.alice_id) (Some "qq"%string) None None None (Some 5%Z).

(** A document without [stream_id]. *)
Definition headless_doc : Doc :=
  mkDoc None (Some "qq"%string) None None (Some 5%Z) (Some 5%Z).

Definition bob : UserInfo (MessageBase := Sample.message_base) :=
  (PyInt 7, "bob"%string).

(** Two records, both dirty, in the order of their creation. *)
Definition w_two_dirty : World (MB := Sample.message_base) :=
  mkWorld
    [mkChatStream "id-a" "qq" (Some Sample.alice) None 1000 1000 false;
     mkChatStream "id-b" "qq" (Some bob) None 1001 1001 false]
    [("id-a"%string, 0%nat); ("id-b"%string, 1%nat)] [] 2 [] [].

Definition doc_alice : Doc :=
  to_dict (mkChatStream Sample.alice_id "qq" (Some Sample.alice) None
             1000 1000 false).

Definition doc_alice' : Doc :=
  to_dict (mkChatStream Sample.alice_id "qq" (Some Sample.alice') None
             1000 1001 false).

Definition doc_bob : Doc :=
  to_dict (mkChatStream "id-b" "qq" (Some bob) None 1001 1001 false).

(** A new process on a collection with a document that [from_dict] refuses
    between two good ones, and one on a collection with two documents of the
    same id. *)
Definition w_bad_middle : World (MB := Sample.message_base) :=
  mkWorld [] [] [doc_alice; headless_doc; doc_bob] 0 [] [].

Definition w_duplicates : World (MB := Sample.message_base) :=
  mkWorld [] [] [doc_alice; doc_alice'] 0 [] [].

End Sample2.

(** * Properties *)

(** ** The digest *)
Section MD5_facts.

Import MD5.

Lemma le_bytes_length n x : length (le_bytes n x) = n.
Proof. revert x; induction n as [|n IH]; intros x; simpl; [done | by rewrite IH]. Qed.

Lemma digest_length msg : length (digest msg) = 16%nat.
Proof.
  unfold digest. rewrite !length_app, !le_bytes_length. done.
Qed.

Lemma hex_of_bytes_length bs :
  String.length (hex_of_bytes bs) = (2 * length bs)%nat.
Proof. induction bs as [|b bs IH]; simpl; [done | rewrite IH; lia]. Qed.

Lemma hex_digit_is_hex x : is_hex_digit (hex_digit x) = true.
Proof.
  unfold hex_digit.
  generalize (Z.to_nat x). intros n.
  do 16 (destruct n as [|n]; [reflexivity|]).
  simpl. destruct n; reflexivity.
Qed.

Lemma hex_of_bytes_hex bs :
  forallb is_hex_digit (list_ascii_of_string (hex_of_bytes bs)) = true.
Proof.
  induction bs as [|b bs IH]; simpl; [done|].
  rewrite !hex_digit_is_hex. exact IH.
Qed.

Lemma hexdigest_length s : String.length (hexdigest s) = 32%nat.
Proof. unfold hexdigest. by rewrite hex_of_bytes_length, digest_length. Qed.

Lemma hexdigest_hex s :
  forallb is_hex_digit (list_ascii_of_string (hexdigest s)) = true.
Proof. apply hex_of_bytes_hex. Qed.

End MD5_facts.

Example md5_empty :
  MD5.hexdigest EmptyString = "d41d8cd98f00b204e9800998ecf8427e"%string.
Proof. vm_compute. reflexivity. Qed.

Example md5_abc :
  MD5.hexdigest "abc" = "900150983cd24fb0d6963f7d28e17f72"%string.
Proof. vm_compute. reflexivity. Qed.

Example md5_two_blocks :
  MD5.hexdigest "aaaaaaaaaaaaaaaaaaaaaaaaaaaaaaaaaaaaaaaaaaaaaaaaaaaaaaaa"
  = "3b0c8ac703f828b04c6c197006d17218"%string.
Proof. vm_compute. reflexivity. Qed.

Example md5_one_full_block :
  MD5.hexdigest
    "aaaaaaaaaaaaaaaaaaaaaaaaaaaaaaaaaaaaaaaaaaaaaaaaaaaaaaaaaaaaaaaa"
  = "014842d480b571495a4a0363793f7367"%string.
Proof. vm_compute. reflexivity. Qed.

Example py_str_values :
  py_str (PyInt 42) = "42"%string ∧ py_str (PyInt 0) = "0"%string
  ∧ py_str (PyInt (-7)) = "-7"%string ∧ py_str PyNone = "None"%string
  ∧ py_str (PyStr "42") = "42"%string.
Proof. repeat split. Qed.

Example md5_qq_42_private :
  MD5.hexdigest "qq_42_private" = "27701e99f5a472c7243eff0c8dae6aa0"%string.
Proof. vm_compute. reflexivity. Qed.

(** ** Identity derivation *)

(** C3: the stream id is a function of the platform, the user identifier
    and the group identifier alone: two calls whose inputs agree on these
    three yield the same identifier, which is the MD5 digest of
    [platform ++ "_" ++ str(user_id) ++ "_" ++ (str(group_id) | "private")],
    written as thirty-two hexadecimal digits; for the platform ["qq"], the
    user 42 and no group it is the digest of ["qq_42_private"]. *)
Theorem C3_stream_id_derivation `{MB : MessageBase}
    (p : string) (u u' : UserInfo) (g g' : option GroupInfo)
    (Hu : user_id u = user_id u') (Hg : group_id <$> g = group_id <$> g') :
  let id := MD5.hexdigest
              (p +:+ "_" +:+ py_str (user_id u) +:+ "_" +:+ group_component g) in
  _generate_stream_id p (Some u) g = Ok id
  ∧ _generate_stream_id p (Some u') g' = Ok id
  ∧ String.length id = 32%nat
  ∧ forallb is_hex_digit (list_ascii_of_string id) = true
  ∧ (p = "qq"%string → user_id u = PyInt 42 → g = None →
     id = MD5.hexdigest "qq_42_private").
Proof.
  intros id. subst id. split; [|split; [|split; [|split]]].
  - unfold _generate_stream_id, group_component. simpl. done.
  - unfold _generate_stream_id, group_component. simpl.
    rewrite <- Hu.
    destruct g as [x|], g' as [x'|]; simpl in Hg; try discriminate; [|done].
    by injection Hg as ->.
  - apply hexdigest_length.
  - apply hexdigest_hex.
  - intros -> -> ->. reflexivity.
Qed.

Lemma C3_stream_id_derivation_witness :
  _generate_stream_id "qq" (Some Sample.alice) None
  = _generate_stream_id "qq" (Some Sample.alice') None
  ∧ _generate_stream_id "qq" (Some Sample.alice) None
    = Ok "27701e99f5a472c7243eff0c8dae6aa0"%string.
Proof.
  destruct (C3_stream_id_derivation (MB := Sample.message_base)
              "qq" Sample.alice Sample.alice' None None eq_refl eq_refl)
    as (H1 & H2 & _ & _ & H5).
  split.
  - by rewrite H1, H2.
  - rewrite H1, (H5 eq_refl eq_refl eq_refl). vm_compute. reflexivity.
Defined.

(** The open question of the specification, on the code: the group takes
    part in the key, so the same user seen in a group gets another id than
    in private. *)
Example stream_id_with_group :
  _generate_stream_id "qq" (Some Sample.alice) (Some Sample.group7)
  = Ok "a08fc9cad8904ef0b6040cf92cbf57a0"%string
  ∧ _generate_stream_id "qq" (Some Sample.alice) None
    = Ok "27701e99f5a472c7243eff0c8dae6aa0"%string.
Proof. split; vm_compute; reflexivity. Qed.

(** An integer and the string of its digits give the same key. *)
Example stream_id_int_or_str :
  _generate_stream_id "qq" (Some (PyStr "42", "alice"%string)) None
  = _generate_stream_id "qq" (Some Sample.alice) None.
Proof. reflexivity. Qed.

(** C7, as the code has it: the derivation does not validate the user
    identifier.  A user info whose [user_id] is [None] yields the digest of
    [platform ++ "_None_" ++ ...]; only a user info that is itself [None]
    makes the derivation raise, with the [AttributeError] of the attribute
    access. *)
Theorem C7_no_validation_of_user_id `{MB : MessageBase}
    (p : string) (u : UserInfo) (g : option GroupInfo)
    (Hmissing : user_id u = PyNone) :
  _generate_stream_id p (Some u) g
  = Ok (MD5.hexdigest (p +:+ "_None_" +:+ group_component g))
  ∧ _generate_stream_id p None g = Raise AttributeError.
Proof.
  split; [|reflexivity].
  unfold _generate_stream_id, group_component. rewrite Hmissing. reflexivity.
Qed.

Lemma C7_no_validation_of_user_id_witness :
  _generate_stream_id "qq" (Some Sample.nobody) None
  = Ok (MD5.hexdigest "qq_None_private").
Proof.
  exact (proj1 (C7_no_validation_of_user_id (MB := Sample.message_base)
                  "qq" Sample.nobody None eq_refl)).
Defined.

(** C7 as stated fails: for a user info without user identifier the
    derivation returns an identifier instead of raising. *)
Lemma C7_missing_user_id_accepted :
  user_id Sample.nobody = PyNone
  ∧ _generate_stream_id "qq" (Some Sample.nobody) None
    = Ok "8de5a560a2b329ce8bd808150237067b"%string
  ∧ ¬ (∃ e, _generate_stream_id "qq" (Some Sample.nobody) None = Raise e).
Proof.
  split; [reflexivity|]. split; [vm_compute; reflexivity|].
  intros [e He]. vm_compute in He. discriminate.
Qed.

(** ** Running the methods *)
Section Runs.

Context `{MB : MessageBase} `{Env : Environment}.

Lemma bind_Ok {A B} (m : M A) (f : A → M B) w a w' :
  m w = (Ok a, w') → (m ≫= f) w = f a w'.
Proof. intros H. unfold mbind, M_bind. by rewrite H. Qed.

Lemma bind_Raise {A B} (m : M A) (f : A → M B) w e w' :
  m w = (Raise e, w') → (m ≫= f) w = (Raise e, w').
Proof. intros H. unfold mbind, M_bind. by rewrite H. Qed.

Lemma deref_Ok w l s : heap w !! l = Some s → deref l w = (Ok s, w).
Proof. intros H. unfold deref. by rewrite H. Qed.

Lemma assign_Ok w l s f :
  heap w !! l = Some s →
  assign l f w = (Ok (), set_heap (λ h, <[l := f s]> h) w).
Proof. intros H. unfold assign. by rewrite (bind_Ok _ _ _ _ _ (deref_Ok _ _ _ H)). Qed.

Lemma update_active_time_Ok w l s :
  heap w !! l = Some s →
  update_active_time l w
  = (Ok (),
     mkWorld (<[l := set_saved false (set_last_active_time (clock (ticks w)) s)]>
                (heap w))
             (streams w) (chat_streams w) (S (ticks w)) (store_log w)
             (logger w)).
Proof.
  intros H. unfold update_active_time.
  rewrite (bind_Ok _ _ w (clock (ticks w)) (set_ticks (S (ticks w)) w)) by done.
  erewrite bind_Ok; [|by apply assign_Ok].
  erewrite assign_Ok.
  - unfold set_heap; simpl. by rewrite list_insert_insert_eq.
  - simpl. apply list_lookup_insert_eq. by eapply lookup_lt_Some.
Qed.

Lemma store_call_up {A} op (run : list Doc → A * list Doc) w :
  store_down (length (store_log w)) = false →
  store_call op run w
  = (Ok (run (chat_streams w)).1,
     set_chat_streams (run (chat_streams w)).2
       (set_store_log (store_log w ++ [op]) w)).
Proof.
  intros H. unfold store_call. rewrite H. by destruct (run (chat_streams w)).
Qed.

Lemma store_call_down {A} op (run : list Doc → A * list Doc) w :
  store_down (length (store_log w)) = true →
  store_call op run w
  = (Raise StoreError, set_store_log (store_log w ++ [op]) w).
Proof. intros H. unfold store_call. by rewrite H. Qed.

Lemma ChatStream_init_run sid p u g data w :
  ChatStream_init sid p u g data w
  = (Ok (length (heap w)),
     mkWorld (heap w ++ [mkChatStream sid p u g
                           (init_create_time data (clock (ticks w)))
                           (init_last_active_time data (clock (ticks w)))
                           false])
             (streams w) (chat_streams w) (S (ticks w)) (store_log w)
             (logger w)).
Proof. destruct data as [d|]; [|done]. simpl. unfold ChatStream_init; simpl.
  unfold mbind, M_bind; simpl. by destruct (doc_bool d). Qed.

Lemma save_stream_clean w l s :
  heap w !! l = Some s → saved s = true → _save_stream l w = (Ok (), w).
Proof.
  intros H Hc. unfold _save_stream.
  rewrite (bind_Ok _ _ _ _ _ (deref_Ok _ _ _ H)). by rewrite Hc.
Qed.

Lemma save_stream_dirty_up w l s :
  heap w !! l = Some s → saved s = false →
  store_down (length (store_log w)) = false →
  _save_stream l w
  = (Ok (),
     mkWorld (<[l := set_saved true s]> (heap w)) (streams w)
             (upsert (stream_id s) (to_dict s) (chat_streams w)) (ticks w)
             (store_log w ++ [UpdateOne (stream_id s) (to_dict s)])
             (logger w)).
Proof.
  intros H Hd Hup. unfold _save_stream.
  rewrite (bind_Ok _ _ _ _ _ (deref_Ok _ _ _ H)). rewrite Hd. simpl.
  unfold update_one. erewrite bind_Ok; [|by apply store_call_up].
  by erewrite assign_Ok.
Qed.

Lemma save_stream_dirty_down w l s :
  heap w !! l = Some s → saved s = false →
  store_down (length (store_log w)) = true →
  _save_stream l w
  = (Raise StoreError,
     set_store_log (store_log w ++ [UpdateOne (stream_id s) (to_dict s)]) w).
Proof.
  intros H Hd Hdown. unfold _save_stream.
  rewrite (bind_Ok _ _ _ _ _ (deref_Ok _ _ _ H)). rewrite Hd. simpl.
  unfold update_one. by erewrite bind_Raise; [|by apply store_call_down].
Qed.

Lemma upsert_idempotent id d c :
  d_stream_id d = Some id → upsert id d (upsert id d c) = upsert id d c.
Proof.
  intros Hd. induction c as [|x c IH]; simpl.
  - unfold matches. by rewrite bool_decide_eq_true_2.
  - destruct (matches id x) eqn:E; simpl.
    + unfold matches. by rewrite bool_decide_eq_true_2.
    + by rewrite E, IH.
Qed.

Lemma doc_record_fields d now s :
  doc_record d now = Ok s →
  d_stream_id d = Some (stream_id s)
  ∧ d_platform d = Some (platform s)
  ∧ create_time s = init_create_time (Some d) now
  ∧ last_active_time s = init_last_active_time (Some d) now
  ∧ saved s = false.
Proof.
  unfold doc_record.
  destruct (match d_user_info d with Some _ => _ | None => _ end);
    [|discriminate].
  destruct (match d_group_info d with Some _ => _ | None => _ end);
    [|discriminate].
  destruct (d_stream_id d); [|discriminate].
  destruct (d_platform d); [|discriminate].
  by intros [= <-].
Qed.

Lemma doc_record_now d now now' s :
  doc_record d now = Ok s → ∃ s', doc_record d now' = Ok s'.
Proof.
  unfold doc_record.
  destruct (match d_user_info d with Some _ => _ | None => _ end);
    [|discriminate].
  destruct (match d_group_info d with Some _ => _ | None => _ end);
    [|discriminate].
  destruct (d_stream_id d); [|discriminate].
  destruct (d_platform d); [|discriminate].
  intros _. by eexists.
Qed.

Lemma loadable_record d now :
  loadable d = true → ∃ s, doc_record d now = Ok s.
Proof.
  unfold loadable. destruct (doc_record d 0) as [s|] eqn:E; [|discriminate].
  intros _. by eapply doc_record_now.
Qed.

Lemma from_dict_run d w :
  from_dict d w
  = match doc_record d (clock (ticks w)) with
    | Ok s =>
        (Ok (length (heap w)),
         mkWorld (heap w ++ [s]) (streams w) (chat_streams w) (S (ticks w))
                 (store_log w) (logger w))
    | Raise e => (Raise e, w)
    end.
Proof.
  unfold from_dict, doc_record, mbind, M_bind, mret, M_ret, lift, raise.
  destruct (d_user_info d) as [kw|]; [destruct (dict_bool kw)|];
    [destruct (UserInfo_kwargs kw)|..]; try reflexivity;
  (destruct (d_group_info d) as [kw'|]; [destruct (dict_bool kw')|];
    [destruct (GroupInfo_kwargs kw')|..]; try reflexivity;
   (destruct (d_stream_id d); [|reflexivity];
    destruct (d_platform d); [|reflexivity];
    apply ChatStream_init_run)).
Qed.

Lemma get_or_create_stream_no_id p u g w e :
  _generate_stream_id p u g = Raise e →
  get_or_create_stream p u g w = (Raise e, w).
Proof.
  intros H. unfold get_or_create_stream.
  by rewrite (bind_Raise _ _ w e w) by (unfold lift; by rewrite H).
Qed.

Lemma get_or_create_stream_hit w p u g id stream s :
  _generate_stream_id p u g = Ok id →
  dict_get (streams w) id = Some stream →
  heap w !! stream = Some s →
  get_or_create_stream p u g w
  = (Ok stream,
     mkWorld
       (<[stream := mkChatStream (stream_id s) (platform s) u
                      (match g with Some _ => g | None => group_info s end)
                      (create_time s) (clock (ticks w)) false]> (heap w))
       (streams w) (chat_streams w) (S (ticks w)) (store_log w) (logger w)).
Proof.
  intros Hid Hin Hs. unfold get_or_create_stream.
  rewrite (bind_Ok _ _ w id w) by (unfold lift; by rewrite Hid).
  rewrite (bind_Ok _ _ w (Some stream) w) by (unfold gets; by rewrite Hin).
  erewrite bind_Ok; [|by apply assign_Ok].
  assert (Hlt : stream < length (heap w)) by by eapply lookup_lt_Some.
  destruct g as [g0|].
  - erewrite bind_Ok; [|apply assign_Ok; simpl; by apply list_lookup_insert_eq].
    erewrite bind_Ok;
      [|apply update_active_time_Ok; simpl; apply list_lookup_insert_eq;
        by rewrite length_insert].
    simpl. by rewrite !list_insert_insert_eq.
  - rewrite (bind_Ok _ _ _ () (set_heap (λ h, <[stream:=set_user_info u s]> h) w))
      by done.
    erewrite bind_Ok;
      [|apply update_active_time_Ok; simpl; by apply list_lookup_insert_eq].
    simpl. by rewrite !list_insert_insert_eq.
Qed.

Lemma get_or_create_stream_dangling w p u g id stream :
  _generate_stream_id p u g = Ok id →
  dict_get (streams w) id = Some stream →
  heap w !! stream = None →
  get_or_create_stream p u g w = (Raise InvalidRef, w).
Proof.
  intros Hid Hin Hs. unfold get_or_create_stream.
  rewrite (bind_Ok _ _ w id w) by (unfold lift; by rewrite Hid).
  rewrite (bind_Ok _ _ w (Some stream) w) by (unfold gets; by rewrite Hin).
  erewrite bind_Raise; [done|]. unfold assign.
  erewrite bind_Raise; [done|]. unfold deref. by rewrite Hs.
Qed.

Lemma get_or_create_stream_read_fails w p u g id :
  _generate_stream_id p u g = Ok id →
  dict_get (streams w) id = None →
  store_down (length (store_log w)) = true →
  get_or_create_stream p u g w
  = (Raise StoreError,
     mkWorld (heap w) (streams w) (chat_streams w) (ticks w)
             (store_log w ++ [FindOne id]) (logger w)).
Proof.
  intros Hid Hmiss Hdown. unfold get_or_create_stream.
  rewrite (bind_Ok _ _ w id w) by (unfold lift; by rewrite Hid).
  rewrite (bind_Ok _ _ w None w) by (unfold gets; by rewrite Hmiss).
  unfold find_one. by erewrite bind_Raise; [|by apply store_call_down].
Qed.

Lemma get_or_create_stream_miss w p u g id :
  _generate_stream_id p u g = Ok id →
  dict_get (streams w) id = None →
  store_down (length (store_log w)) = false →
  get_or_create_stream p u g w
  = match fetched id p u g (find (matches id) (chat_streams w)) w with
    | Raise e =>
        (Raise e,
         mkWorld (heap w) (streams w) (chat_streams w) (ticks w)
                 (store_log w ++ [FindOne id]) (logger w))
    | Ok (s, t) =>
        let l := length (heap w) in
        let log' :=
          store_log w ++ [FindOne id; UpdateOne (stream_id s) (to_dict s)] in
        if store_down (S (length (store_log w))) then
          (Raise StoreError,
           mkWorld (heap w ++ [s]) (dict_set (streams w) id l)
                   (chat_streams w) t log' (logger w))
        else
          (Ok l,
           mkWorld (heap w ++ [set_saved true s]) (dict_set (streams w) id l)
                   (upsert (stream_id s) (to_dict s) (chat_streams w)) t log'
                   (logger w))
    end.
Proof.
  intros Hid Hmiss Hup. unfold get_or_create_stream.
  rewrite (bind_Ok _ _ w id w) by (unfold lift; by rewrite Hid).
  rewrite (bind_Ok _ _ w None w) by (unfold gets; by rewrite Hmiss).
  unfold find_one. erewrite bind_Ok; [|by apply store_call_up]. simpl.
  set (w1 := set_chat_streams _ _).
  set (found := find (matches id) (chat_streams w)).
  assert (Hsave : ∀ s t,
    let w2 := mkWorld (heap w ++ [s]) (dict_set (streams w) id (length (heap w)))
                (chat_streams w) t (store_log w ++ [FindOne id]) (logger w) in
    saved s = false →
    (_save_stream (length (heap w));; mret (length (heap w))) w2
    = let log' :=
        store_log w ++ [FindOne id; UpdateOne (stream_id s) (to_dict s)] in
      if store_down (S (length (store_log w))) then
        (Raise StoreError,
         mkWorld (heap w ++ [s]) (dict_set (streams w) id (length (heap w)))
                 (chat_streams w) t log' (logger w))
      else
        (Ok (length (heap w)),
         mkWorld (heap w ++ [set_saved true s])
                 (dict_set (streams w) id (length (heap w)))
                 (upsert (stream_id s) (to_dict s) (chat_streams w)) t log'
                 (logger w))).
  { intros s t w2 Hd.
    assert (Hl : heap w2 !! length (heap w) = Some s)
      by (by apply list_lookup_middle).
    assert (Hn : length (store_log w2) = S (length (store_log w)))
      by (simpl; rewrite length_app; simpl; lia).
    simpl. destruct (store_down (S (length (store_log w)))) eqn:E.
    - erewrite bind_Raise; [|apply (save_stream_dirty_down _ _ _ Hl Hd); by rewrite Hn].
      unfold set_store_log; simpl. by rewrite <- app_assoc.
    - erewrite bind_Ok; [|apply (save_stream_dirty_up _ _ _ Hl Hd); by rewrite Hn].
      unfold mret, M_ret; simpl. rewrite <- app_assoc.
      by rewrite insert_app_r_alt, Nat.sub_diag by lia. }
  assert (Hcreate :
    (ChatStream_init id p u g None ≫= λ stream,
       modify (set_streams (λ d, dict_set d id stream));;
       _save_stream stream;; mret stream) w1
    = match Ok (mkChatStream id p u g (clock (ticks w)) (clock (ticks w)) false,
                S (ticks w)) with
      | Raise e =>
          (Raise e,
           mkWorld (heap w) (streams w) (chat_streams w) (ticks w)
                   (store_log w ++ [FindOne id]) (logger w))
      | Ok (s, t) =>
          let l := length (heap w) in
          let log' :=
            store_log w ++ [FindOne id; UpdateOne (stream_id s) (to_dict s)] in
          if store_down (S (length (store_log w))) then
            (Raise StoreError,
             mkWorld (heap w ++ [s]) (dict_set (streams w) id l)
                     (chat_streams w) t log' (logger w))
          else
            (Ok l,
             mkWorld (heap w ++ [set_saved true s]) (dict_set (streams w) id l)
                     (upsert (stream_id s) (to_dict s) (chat_streams w)) t log'
                     (logger w))
      end).
  { erewrite bind_Ok; [|apply ChatStream_init_run].
    unfold modify at 1. unfold mbind at 1, M_bind at 1.
    apply (Hsave (mkChatStream id p u g _ _ false)). reflexivity. }
  unfold fetched. fold found.
  destruct found as [d|]; [|exact Hcreate].
  destruct (doc_bool d); [|exact Hcreate].
  clear Hcreate.
  assert (Hrec := from_dict_run d w1). simpl in Hrec.
  destruct (doc_record d (clock (ticks w))) as [s0|e].
  - set (w2 := mkWorld (heap w ++ [s0]) _ _ _ _ _) in Hrec.
    assert (Hl : heap w2 !! length (heap w) = Some s0)
      by (by apply list_lookup_middle).
    assert (Hlen : length (heap w) < length (heap w2))
      by (simpl; rewrite length_app; simpl; lia).
    assert (Hbuild :
      (stream ← from_dict d;
       assign stream (set_user_info u);;
       match g with
       | Some _ => assign stream (set_group_info g)
       | None => mret ()
       end;;
       update_active_time stream;;
       mret stream) w1
      = (Ok (length (heap w)),
         mkWorld
           (heap w ++
              [mkChatStream (stream_id s0) (platform s0) u
                 (match g with Some _ => g | None => group_info s0 end)
                 (create_time s0) (clock (S (ticks w))) false])
           (streams w) (chat_streams w) (S (S (ticks w)))
           (store_log w ++ [FindOne id]) (logger w))).
    { erewrite bind_Ok; [|exact Hrec].
      erewrite bind_Ok; [|by apply assign_Ok].
      destruct g as [g0|].
      - erewrite bind_Ok;
          [|apply assign_Ok; simpl; by apply list_lookup_insert_eq].
        erewrite bind_Ok;
          [|apply update_active_time_Ok; simpl; apply list_lookup_insert_eq;
            by rewrite length_insert].
        unfold mret, M_ret; simpl. rewrite !list_insert_insert_eq.
        by rewrite insert_app_r_alt, Nat.sub_diag by lia.
      - rewrite (bind_Ok _ _ _ ()
                   (set_heap (λ h, <[length (heap w):=set_user_info u s0]> h) w2))
          by done.
        erewrite bind_Ok;
          [|apply update_active_time_Ok; simpl; by apply list_lookup_insert_eq].
        unfold mret, M_ret; simpl. rewrite !list_insert_insert_eq.
        by rewrite insert_app_r_alt, Nat.sub_diag by lia. }
    erewrite bind_Ok; [|exact Hbuild].
    unfold modify at 1. unfold mbind at 1, M_bind at 1.
    apply (Hsave (mkChatStream (stream_id s0) (platform s0) u _ _ _ false)).
    reflexivity.
  - erewrite bind_Raise; [reflexivity|].
    erewrite bind_Raise; [reflexivity|exact Hrec].
Qed.

(** The two lookups read the dictionary and change nothing. *)
Lemma get_stream_run id w :
  get_stream id w = (Ok (dict_get (streams w) id), w).
Proof. reflexivity. Qed.

Lemma get_stream_by_info_run p u g w :
  get_stream_by_info p u g w
  = match _generate_stream_id p u g with
    | Ok id => (Ok (dict_get (streams w) id), w)
    | Raise e => (Raise e, w)
    end.
Proof.
  unfold get_stream_by_info, mbind, M_bind, lift.
  by destruct (_generate_stream_id p u g).
Qed.

End Runs.

(** ** Persisting one record *)

(** C6: [_save_stream] on a record that is not dirty changes nothing and
    issues no store call; on a dirty record it issues exactly one upsert
    keyed by the stream id, and after the write has succeeded the record is
    clean: its [saved] is [True] and its other fields are as they were.
    When the write raises, the record stays dirty.  The upsert is
    idempotent.  A record that has just been constructed is dirty, and
    [update_active_time] makes a record dirty again.  Whatever the store
    does, a call that returns normally leaves the record clean, and a call
    that raises was made on a dirty record and leaves every object as it
    was. *)
Theorem C6_persist_and_dirty_flag `{MB : MessageBase} `{Env : Environment}
    (w : World) (stream : nat) (s : ChatStream)
    (Hs : heap w !! stream = Some s) :
  (saved s = true → _save_stream stream w = (Ok (), w))
  ∧ (saved s = false → store_down (length (store_log w)) = false →
     _save_stream stream w
     = (Ok (),
        mkWorld (<[stream := mkChatStream (stream_id s) (platform s)
                               (user_info s) (group_info s) (create_time s)
                               (last_active_time s) true]> (heap w))
                (streams w)
                (upsert (stream_id s) (to_dict s) (chat_streams w)) (ticks w)
                (store_log w ++ [UpdateOne (stream_id s) (to_dict s)])
                (logger w)))
  ∧ (saved s = false → store_down (length (store_log w)) = true →
     _save_stream stream w
     = (Raise StoreError,
        mkWorld (heap w) (streams w) (chat_streams w) (ticks w)
                (store_log w ++ [UpdateOne (stream_id s) (to_dict s)])
                (logger w)))
  ∧ (∀ c, upsert (stream_id s) (to_dict s)
            (upsert (stream_id s) (to_dict s) c)
          = upsert (stream_id s) (to_dict s) c)
  ∧ (∀ sid p u g data w0,
       ∃ l w1 s1, ChatStream_init sid p u g data w0 = (Ok l, w1)
                  ∧ heap w1 !! l = Some s1 ∧ saved s1 = false)
  ∧ (∃ w1 s1, update_active_time stream w = (Ok (), w1)
              ∧ heap w1 !! stream = Some s1 ∧ saved s1 = false)
  ∧ (∀ w1, _save_stream stream w = (Ok (), w1) →
           ∃ s1, heap w1 !! stream = Some s1 ∧ saved s1 = true)
  ∧ (∀ e w1, _save_stream stream w = (Raise e, w1) →
             saved s = false ∧ heap w1 = heap w).
Proof.
  split; [|split; [|split; [|split; [|split; [|split; [|split]]]]]].
  - by apply save_stream_clean.
  - intros Hd Hup. exact (save_stream_dirty_up w stream s Hs Hd Hup).
  - by apply save_stream_dirty_down.
  - intros c. by apply upsert_idempotent.
  - intros sid p u g data w0. eexists _, _, _.
    split; [apply ChatStream_init_run|]. simpl.
    split; [by apply list_lookup_middle|reflexivity].
  - eexists _, _. split; [by apply update_active_time_Ok|]. simpl.
    split; [apply list_lookup_insert_eq; by eapply lookup_lt_Some|reflexivity].
  - intros w1. destruct (saved s) eqn:Hsv.
    + rewrite (save_stream_clean w stream s Hs Hsv). intros [= <-].
      by exists s.
    + destruct (store_down (length (store_log w))) eqn:Hst.
      * by rewrite (save_stream_dirty_down w stream s Hs Hsv Hst).
      * rewrite (save_stream_dirty_up w stream s Hs Hsv Hst). intros [= <-].
        eexists. simpl.
        split; [apply list_lookup_insert_eq; by eapply lookup_lt_Some|].
        reflexivity.
  - intros e w1. destruct (saved s) eqn:Hsv.
    + by rewrite (save_stream_clean w stream s Hs Hsv).
    + destruct (store_down (length (store_log w))) eqn:Hst.
      * rewrite (save_stream_dirty_down w stream s Hs Hsv Hst).
        by intros [= _ <-].
      * by rewrite (save_stream_dirty_up w stream s Hs Hsv Hst).
Qed.

Lemma C6_persist_and_dirty_flag_witness :
  _save_stream (Env := Sample.env_up) 0 Sample.w_dirty
  = (Ok (),
     mkWorld [mkChatStream Sample.alice_id "qq" (Some Sample.alice) None
                1000 1000 true]
             [(Sample.alice_id, 0%nat)]
             [to_dict Sample.s_new] 1
             [UpdateOne Sample.alice_id (to_dict Sample.s_new)] []).
Proof.
  exact (proj1 (proj2 (C6_persist_and_dirty_flag (Env := Sample.env_up)
                         Sample.w_dirty 0 Sample.s_new eq_refl))
               eq_refl eq_refl).
Defined.

(** ** [get_or_create_stream] on a stream that is in memory *)

(** C1, as the code has it: when the derived id is in [streams], the call
    assigns the user info, assigns the group info only when one is given,
    sets [last_active_time] to the clock, marks the record dirty and
    returns it.  It makes no call to the store: the collection and the list
    of store calls are as before. *)
Theorem C1_cache_hit `{MB : MessageBase} `{Env : Environment}
    (w : World) (p : string) (u : option UserInfo) (g : option GroupInfo)
    (id : string) (stream : nat) (s : ChatStream)
    (Hid : _generate_stream_id p u g = Ok id)
    (Hin : dict_get (streams w) id = Some stream)
    (Hs : heap w !! stream = Some s) :
  get_or_create_stream p u g w
  = (Ok stream,
     mkWorld
       (<[stream := mkChatStream (stream_id s) (platform s) u
                      (match g with Some _ => g | None => group_info s end)
                      (create_time s) (clock (ticks w)) false]> (heap w))
       (streams w) (chat_streams w) (S (ticks w)) (store_log w) (logger w)).
Proof. exact (get_or_create_stream_hit w p u g id stream s Hid Hin Hs). Qed.

Lemma C1_cache_hit_witness :
  get_or_create_stream (Env := Sample.env_up) "qq" (Some Sample.alice') None
    Sample.w_alice
  = (Ok 0%nat,
     mkWorld
       [mkChatStream Sample.alice_id "qq" (Some Sample.alice') None 1000 1001
          false]
       (streams Sample.w_alice) (chat_streams Sample.w_alice) 2
       (store_log Sample.w_alice) []).
Proof.
  exact (C1_cache_hit (Env := Sample.env_up) Sample.w_alice "qq"
           (Some Sample.alice') None Sample.alice_id 0
           (mkChatStream Sample.alice_id "qq" (Some Sample.alice) None
              1000 1000 true)
           eq_refl eq_refl eq_refl).
Defined.

(** C1 as stated fails: a call that finds its stream in memory issues no
    write to the store. *)
Lemma C1_cache_hit_issues_no_write :
  dict_get (streams Sample.w_alice) Sample.alice_id = Some 0%nat
  ∧ _generate_stream_id "qq" (Some Sample.alice') None = Ok Sample.alice_id
  ∧ get_or_create_stream (Env := Sample.env_up) "qq" (Some Sample.alice') None
      Sample.w_alice = (Ok 0%nat, Sample.w_updated)
  ∧ issued Sample.w_alice Sample.w_updated = []
  ∧ ¬ (∃ op, op ∈ issued Sample.w_alice Sample.w_updated
             ∧ is_write op = true).
Proof.
  split; [reflexivity|]. split; [vm_compute; reflexivity|].
  split; [vm_compute; reflexivity|].
  assert (H : issued Sample.w_alice Sample.w_updated = [])
    by (vm_compute; reflexivity).
  split; [exact H|]. intros [op [Hop _]]. rewrite H in Hop.
  by apply not_elem_of_nil in Hop.
Qed.

(** ** Dictionaries in insertion order *)
Section Dict.

Context {V : Type}.
Implicit Types (d : list (string * V)) (k : string) (v : V).

Lemma dict_get_set_eq d k v : dict_get (dict_set d k v) k = Some v.
Proof.
  induction d as [|[k' v'] d IH]; simpl.
  - by rewrite decide_True.
  - destruct (decide (k' = k)) as [->|Hne]; simpl.
    + by rewrite decide_True.
    + by rewrite decide_False.
Qed.

Lemma dict_get_set_ne d k k' v :
  k ≠ k' → dict_get (dict_set d k v) k' = dict_get d k'.
Proof.
  intros Hne. induction d as [|[k0 v0] d IH]; simpl.
  - by rewrite decide_False.
  - destruct (decide (k0 = k)) as [->|Hne0]; simpl.
    + by rewrite !decide_False.
    + by rewrite IH.
Qed.

Lemma dict_get_set d k k' v :
  dict_get (dict_set d k v) k'
  = if decide (k = k') then Some v else dict_get d k'.
Proof.
  destruct (decide (k = k')) as [->|Hne];
    [apply dict_get_set_eq | by apply dict_get_set_ne].
Qed.

Lemma dict_get_Some_elem d k v : dict_get d k = Some v → (k, v) ∈ d.
Proof.
  induction d as [|[k0 v0] d IH]; simpl; [done|].
  destruct (decide (k0 = k)) as [->|Hne].
  - intros [= ->]. left.
  - intros H. right. by apply IH.
Qed.

Lemma dict_get_None_keys d k : dict_get d k = None ↔ k ∉ dict_keys d.
Proof.
  induction d as [|[k0 v0] d IH]; simpl.
  - split; [intros _; apply not_elem_of_nil | done].
  - rewrite not_elem_of_cons. destruct (decide (k0 = k)) as [->|Hne].
    + split; [done | by intros [? _]].
    + rewrite IH. split; [by intros ?; split|by intros [_ ?]].
Qed.

Lemma dict_keys_set_present d k v :
  k ∈ dict_keys d → dict_keys (dict_set d k v) = dict_keys d.
Proof.
  induction d as [|[k0 v0] d IH]; simpl.
  - by intros ?%elem_of_nil.
  - destruct (decide (k0 = k)) as [->|Hne]; simpl; [done|].
    intros [?|Hin]%elem_of_cons; [congruence|]. by rewrite IH.
Qed.

Lemma dict_keys_set_absent d k v :
  k ∉ dict_keys d → dict_keys (dict_set d k v) = dict_keys d ++ [k].
Proof.
  induction d as [|[k0 v0] d IH]; simpl; [done|].
  rewrite not_elem_of_cons. intros [Hne Hnin].
  rewrite decide_False by done. simpl. by rewrite IH.
Qed.

Lemma dict_set_absent d k v :
  dict_get d k = None → dict_set d k v = d ++ [(k, v)].
Proof.
  induction d as [|[k0 v0] d IH]; simpl; [done|].
  destruct (decide (k0 = k)); [done|]. intros H. by rewrite IH.
Qed.

Lemma dict_keys_set_NoDup d k v :
  NoDup (dict_keys d) → NoDup (dict_keys (dict_set d k v)).
Proof.
  intros Hnd. destruct (decide (k ∈ dict_keys d)) as [Hin|Hnin].
  - by rewrite dict_keys_set_present.
  - rewrite dict_keys_set_absent by done.
    apply NoDup_app. split; [done|]. split; [|apply NoDup_singleton].
    intros x Hx ->%list_elem_of_singleton. done.
Qed.

End Dict.

(** ** [get_or_create_stream] when the store fails *)

(** C2, as the code has it: [get_or_create_stream] does not catch the
    failures of the store.  When the read of the fallback raises, the call
    raises the same exception and creates nothing.  When the write of the
    persist step raises (no other exception coming first), the call raises
    it as well: no record is returned, although the new record has already
    been put in [streams], where it stays dirty. *)
Theorem C2_store_failures_propagate `{MB : MessageBase} `{Env : Environment}
    (w : World) (p : string) (u : option UserInfo) (g : option GroupInfo)
    (id : string)
    (Hid : _generate_stream_id p u g = Ok id)
    (Hmiss : dict_get (streams w) id = None) :
  (store_down (length (store_log w)) = true →
   get_or_create_stream p u g w
   = (Raise StoreError,
      mkWorld (heap w) (streams w) (chat_streams w) (ticks w)
              (store_log w ++ [FindOne id]) (logger w)))
  ∧ (store_down (length (store_log w)) = false →
     store_down (S (length (store_log w))) = true →
     (∀ d, find (matches id) (chat_streams w) = Some d → loadable d = true) →
     ∃ w' stream s,
       get_or_create_stream p u g w = (Raise StoreError, w')
       ∧ dict_get (streams w') id = Some stream
       ∧ heap w' !! stream = Some s
       ∧ saved s = false
       ∧ user_info s = u
       ∧ chat_streams w' = chat_streams w).
Proof.
  split.
  - by apply get_or_create_stream_read_fails.
  - intros Hup Hdown Hparse.
    rewrite (get_or_create_stream_miss w p u g id Hid Hmiss Hup).
    unfold fetched.
    destruct (find (matches id) (chat_streams w)) as [d|] eqn:Hfound;
      [destruct (doc_bool d) eqn:Hb;
       [destruct (loadable_record d (clock (ticks w)) (Hparse d eq_refl))
          as [s0 ->]|]|];
      rewrite Hdown; eexists _, _, _;
      (split; [reflexivity|]); simpl;
      (split; [apply dict_get_set_eq|]);
      (split; [by apply list_lookup_middle|]); done.
Qed.

Lemma C2_store_failures_propagate_witness :
  fst (get_or_create_stream (Env := Sample.env_down_at 0) "qq"
         (Some Sample.alice) None world0) = Raise StoreError
  ∧ ∃ w' stream s,
      get_or_create_stream (Env := Sample.env_down_at 1) "qq"
        (Some Sample.alice) None world0 = (Raise StoreError, w')
      ∧ dict_get (streams w') Sample.alice_id = Some stream
      ∧ heap w' !! stream = Some s
      ∧ saved s = false.
Proof.
  split.
  - rewrite (proj1 (C2_store_failures_propagate (Env := Sample.env_down_at 0)
                      world0 "qq" (Some Sample.alice) None Sample.alice_id
                      eq_refl eq_refl) eq_refl).
    reflexivity.
  - destruct (proj2 (C2_store_failures_propagate (Env := Sample.env_down_at 1)
                       world0 "qq" (Some Sample.alice) None Sample.alice_id
                       eq_refl eq_refl) eq_refl eq_refl)
      as (w' & stream & s & H1 & H2 & H3 & H4 & _).
    + intros d Hd. discriminate Hd.
    + exists w', stream, s. auto.
Defined.

(** C2 as stated fails: with a store whose read raises, and with a store
    whose write raises, the call raises instead of returning a record. *)
Lemma C2_store_failure_reaches_caller :
  fst (get_or_create_stream (Env := Sample.env_down_at 0) "qq"
         (Some Sample.alice) None world0) = Raise StoreError
  ∧ fst (get_or_create_stream (Env := Sample.env_down_at 1) "qq"
           (Some Sample.alice) None world0) = Raise StoreError
  ∧ ¬ (∃ stream, fst (get_or_create_stream (Env := Sample.env_down_at 0) "qq"
                        (Some Sample.alice) None world0) = Ok stream)
  ∧ ¬ (∃ stream, fst (get_or_create_stream (Env := Sample.env_down_at 1) "qq"
                        (Some Sample.alice) None world0) = Ok stream).
Proof.
  assert (H0 : fst (get_or_create_stream (Env := Sample.env_down_at 0) "qq"
                      (Some Sample.alice) None world0) = Raise StoreError)
    by (vm_compute; reflexivity).
  assert (H1 : fst (get_or_create_stream (Env := Sample.env_down_at 1) "qq"
                      (Some Sample.alice) None world0) = Raise StoreError)
    by (vm_compute; reflexivity).
  split; [exact H0|]. split; [exact H1|].
  split; intros [stream H]; congruence.
Qed.

(** ** What a call of [get_or_create_stream] does to the objects *)
Section Objects.

Context `{MB : MessageBase} `{Env : Environment}.

(** The five ways in which a call can go. *)
Ltac goc_cases p u g w :=
  let id := fresh "id" in
  let e := fresh "e" in
  let Hid := fresh "Hid" in
  let Hin := fresh "Hin" in
  let Hs := fresh "Hs" in
  let Hst := fresh "Hst" in
  let stream := fresh "stream" in
  let s := fresh "s" in
  destruct (_generate_stream_id p u g) as [id|e] eqn:Hid;
  [ destruct (dict_get (streams w) id) as [stream|] eqn:Hin;
    [ destruct (heap w !! stream) as [s|] eqn:Hs;
      [ rewrite (get_or_create_stream_hit w p u g id stream s Hid Hin Hs)
      | rewrite (get_or_create_stream_dangling w p u g id stream Hid Hin Hs) ]
    | destruct (store_down (length (store_log w))) eqn:Hst;
      [ rewrite (get_or_create_stream_read_fails w p u g id Hid Hin Hst)
      | rewrite (get_or_create_stream_miss w p u g id Hid Hin Hst) ] ]
  | rewrite (get_or_create_stream_no_id p u g w e Hid) ].

(** An object that exists before the call is either left as it is, or it is
    the record found in memory, which the call returns after the updates of
    the hit path. *)
Lemma get_or_create_stream_old_object w p u g r w' l s :
  get_or_create_stream p u g w = (r, w') →
  heap w !! l = Some s →
  heap w' !! l = Some s
  ∨ (r = Ok l
     ∧ heap w' !! l
       = Some (mkChatStream (stream_id s) (platform s) u
                 (match g with Some _ => g | None => group_info s end)
                 (create_time s) (clock (ticks w)) false)).
Proof.
  intros Hrun Hl. revert Hrun. goc_cases p u g w.
  - intros [= <- <-]. simpl.
    destruct (decide (stream = l)) as [->|Hne].
    + right. split; [done|]. rewrite Hl in Hs. injection Hs as <-.
      apply list_lookup_insert_eq. by eapply lookup_lt_Some.
    + left. by rewrite list_lookup_insert_ne.
  - intros [= <- <-]. by left.
  - intros [= <- <-]. by left.
  - destruct (fetched id p u g _ w) as [[s1 t]|e].
    + simpl. destruct (store_down (S _)); intros [= <- <-]; simpl; left;
        by apply lookup_app_l_Some.
    + intros [= <- <-]. by left.
  - intros [= <- <-]. by left.
Qed.

(** The record that a successful call returns is registered under the
    derived id and carries the user info of the call, and its group info
    when one was given. *)
Lemma get_or_create_stream_returned w p u g stream w' :
  get_or_create_stream p u g w = (Ok stream, w') →
  ∃ id s,
    _generate_stream_id p u g = Ok id
    ∧ dict_get (streams w') id = Some stream
    ∧ heap w' !! stream = Some s
    ∧ user_info s = u
    ∧ (is_Some g → group_info s = g).
Proof.
  goc_cases p u g w; try discriminate.
  - intros [= <- <-]. eexists id, _. split; [done|]. simpl. split; [done|].
    split; [apply list_lookup_insert_eq; by eapply lookup_lt_Some|].
    simpl. split; [done|]. by intros [g0 ->].
  - unfold fetched.
    destruct (find (matches id) (chat_streams w)) as [d|];
      [destruct (doc_bool d); [destruct (doc_record d _) as [s0|]|]|];
      try discriminate;
      destruct (store_down (S _)); try discriminate;
      intros [= <- <-]; eexists id, _; (split; [done|]); simpl;
      (split; [apply dict_get_set_eq|]);
      (split; [by apply list_lookup_middle|]); simpl;
      (split; [done|]); by intros [g0 ->].
Qed.

End Objects.

(** ** The group of a stream *)



(** ** The loading pass and the saving pass *)
Section Passes.

Context `{MB : MessageBase} `{Env : Environment}.

Lemma load_body_run d w :
  load_body d w
  = match doc_record d (clock (ticks w)) with
    | Ok s =>
        (Ok (),
         mkWorld (heap w ++ [s])
                 (dict_set (streams w) (stream_id s) (length (heap w)))
                 (chat_streams w) (S (ticks w)) (store_log w) (logger w))
    | Raise e => (Raise e, w)
    end.
Proof.
  unfold load_body. assert (H := from_dict_run d w).
  destruct (doc_record d (clock (ticks w))) as [s|e].
  - erewrite bind_Ok; [|exact H].
    erewrite bind_Ok; [|apply deref_Ok; by apply list_lookup_middle].
    reflexivity.
  - by erewrite bind_Raise.
Qed.

(** What the loop of the loading pass leaves. *)
Lemma load_loop docs w r w' :
  for_each docs load_body w = (r, w') →
  (∃ new, heap w' = heap w ++ new
          ∧ Forall (λ s, ∃ d now, d ∈ docs ∧ doc_record d now = Ok s) new)
  ∧ chat_streams w' = chat_streams w
  ∧ store_log w' = store_log w
  ∧ logger w' = logger w
  ∧ (∀ id, Some id ∉ map d_stream_id docs →
           dict_get (streams w') id = dict_get (streams w) id)
  ∧ (r = Ok () →
     ∀ id, Some id ∈ map d_stream_id docs →
           ∃ stream s, dict_get (streams w') id = Some stream
                       ∧ length (heap w) ≤ stream
                       ∧ heap w' !! stream = Some s
                       ∧ stream_id s = id).
Proof.
  revert w. induction docs as [|d docs IH]; intros w; simpl.
  - intros [= <- <-]. split; [exists []; by rewrite app_nil_r|].
    do 4 (split; [done|]). intros _ id Hin. by apply elem_of_nil in Hin.
  - unfold mbind, M_bind. rewrite load_body_run.
    destruct (doc_record d (clock (ticks w))) as [s|e] eqn:Hrec.
    + intros Hrest. apply IH in Hrest as ([new [Hheap Hnew]] & Hc & Hl & Hg & Hout & Hin).
      simpl in *.
      destruct (doc_record_fields _ _ _ Hrec) as (Hsid & _).
      split.
      { exists (s :: new). split; [by rewrite Hheap, <- app_assoc|].
        constructor.
        - exists d, (clock (ticks w)). split; [left|done].
        - eapply Forall_impl; [exact Hnew|]. intros s' (d' & now & Hd' & Hr').
          exists d', now. split; [by right|done]. }
      do 3 (split; [done|]). split.
      * intros id Hid. rewrite not_elem_of_cons in Hid. destruct Hid as [Hne Hid].
        rewrite (Hout id Hid). apply dict_get_set_ne. congruence.
      * intros -> id Hid.
        destruct (decide (Some id ∈ map d_stream_id docs)) as [Hlater|Hlast].
        -- destruct (Hin eq_refl id Hlater) as (stream & s' & H1 & H2 & H3 & H4).
           exists stream, s'. rewrite length_app in H2. simpl in H2.
           split; [done|]. split; [lia|]. by split.
        -- apply elem_of_cons in Hid as [Hid|Hid]; [|done].
           rewrite Hsid in Hid. injection Hid as ->.
           exists (length (heap w)), s. rewrite (Hout _ Hlast), dict_get_set_eq.
           split; [done|]. split; [done|]. split; [|done].
           rewrite Hheap, <- app_assoc. by apply list_lookup_middle.
    + intros [= <- <-]. split; [exists []; split; [by rewrite app_nil_r|done]|].
      do 3 (split; [done|]). split; [|done].
      intros id Hid. done.
Qed.

Lemma load_loop_total docs w :
  forallb loadable docs = true →
  ∃ w', for_each docs load_body w = (Ok (), w').
Proof.
  revert w. induction docs as [|d docs IH]; intros w; simpl.
  - intros _. by eexists.
  - intros [Hd Hall]%andb_prop. unfold mbind, M_bind. rewrite load_body_run.
    destruct (loadable_record d (clock (ticks w)) Hd) as [s ->].
    by apply IH.
Qed.

Lemma load_all_streams_up w :
  store_down (length (store_log w)) = false →
  load_all_streams w
  = for_each (chat_streams w) load_body
      (mkWorld (heap w) (streams w) (chat_streams w) (ticks w)
               (store_log w ++ [FindAll]) (logger w)).
Proof.
  intros Hup. change load_all_streams with
    (find_all ≫= λ all_streams, for_each all_streams load_body).
  unfold find_all. by erewrite bind_Ok; [|by apply store_call_up].
Qed.

Lemma load_all_streams_down w :
  store_down (length (store_log w)) = true →
  load_all_streams w
  = (Raise StoreError,
     mkWorld (heap w) (streams w) (chat_streams w) (ticks w)
             (store_log w ++ [FindAll]) (logger w)).
Proof.
  intros Hdown. unfold load_all_streams, find_all.
  by erewrite bind_Raise; [|by apply store_call_down].
Qed.

End Passes.

Section Saving.

Context `{MB : MessageBase} `{Env : Environment}.

Lemma issued_app w w' ops :
  store_log w' = store_log w ++ ops → issued w w' = ops.
Proof. intros H. unfold issued. by rewrite H, drop_app_length. Qed.

(** The loop of the saving pass, while the store answers: every object of
    the list ends clean, the others are left alone, and each object that
    was dirty has been written. *)
Lemma save_loop ls w :
  store_up_from (length (store_log w)) →
  (∀ l, l ∈ ls → is_Some (heap w !! l)) →
  ∃ w' ops,
    for_each ls _save_stream w = (Ok (), w')
    ∧ streams w' = streams w ∧ ticks w' = ticks w ∧ logger w' = logger w
    ∧ store_log w' = store_log w ++ ops
    ∧ (∀ l s, heap w !! l = Some s →
              if decide (l ∈ ls) then heap w' !! l = Some (set_saved true s)
              else heap w' !! l = Some s)
    ∧ (∀ l, heap w !! l = None → heap w' !! l = None)
    ∧ (∀ op, op ∈ ops ↔
             ∃ l s, l ∈ ls ∧ heap w !! l = Some s ∧ saved s = false
                    ∧ op = UpdateOne (stream_id s) (to_dict s)).
Proof.
  revert w. induction ls as [|l ls IH]; intros w Hup Hvalid.
  - exists w, []. simpl. split; [done|]. rewrite app_nil_r.
    do 4 (split; [done|]). split; [|split; [done|]].
    + intros l s Hl. destruct (decide (l ∈ [])) as [Hd|_]; [|done].
      by apply elem_of_nil in Hd.
    + intros op. split; [by intros ?%elem_of_nil|].
      by intros (l & s & ?%elem_of_nil & _).
  - destruct (Hvalid l) as [s Hs]; [left|]. simpl.
    assert (Hstep : ∃ w1 ops1,
      _save_stream l w = (Ok (), w1)
      ∧ streams w1 = streams w ∧ ticks w1 = ticks w ∧ logger w1 = logger w
      ∧ store_log w1 = store_log w ++ ops1
      ∧ heap w1 = <[l := set_saved true s]> (heap w)
      ∧ ops1 = if saved s then [] else [UpdateOne (stream_id s) (to_dict s)]).
    { destruct (saved s) eqn:Hsv.
      - exists w, []. rewrite (save_stream_clean _ _ _ Hs Hsv), app_nil_r.
        do 5 (split; [done|]). split; [|done].
        symmetry. apply list_insert_id. rewrite Hs. f_equal.
        destruct s; simpl in *; by subst.
      - eexists _, _.
        rewrite (save_stream_dirty_up _ _ _ Hs Hsv (Hup _ (le_n _))).
        simpl. done. }
    destruct Hstep as (w1 & ops1 & Hrun & Hst1 & Ht1 & Hlg1 & Hlog1 & Hheap1 & Hops1).
    destruct (IH w1) as (w' & ops & Hrest & Hst & Ht & Hlg & Hlog & Hobj & Hnone & Hops).
    { intros k Hk. apply Hup. rewrite Hlog1, length_app in Hk. lia. }
    { intros l' Hl'. rewrite Hheap1. apply lookup_lt_is_Some.
      rewrite length_insert. apply lookup_lt_is_Some. apply Hvalid. by right. }
    exists w', (ops1 ++ ops). unfold mbind, M_bind. rewrite Hrun.
    split; [exact Hrest|]. split; [congruence|]. split; [congruence|].
    split; [congruence|]. split; [by rewrite Hlog, Hlog1, app_assoc|].
    split; [|split].
    + intros l' s' Hl'.
      destruct (decide (l' = l)) as [->|Hne].
      * rewrite decide_True by left.
        assert (Hs1 : heap w1 !! l = Some (set_saved true s)).
        { rewrite Hheap1. apply list_lookup_insert_eq. by eapply lookup_lt_Some. }
        rewrite Hl' in Hs. injection Hs as ->.
        specialize (Hobj l _ Hs1). by destruct (decide (l ∈ ls)).
      * assert (Hs1 : heap w1 !! l' = Some s')
          by (by rewrite Hheap1, list_lookup_insert_ne).
        specialize (Hobj l' _ Hs1).
        destruct (decide (l' ∈ ls)) as [Hin|Hnin].
        -- by rewrite decide_True by by right.
        -- rewrite decide_False; [done|]. rewrite not_elem_of_cons. done.
    + intros l' Hl'. apply Hnone. rewrite Hheap1.
      apply lookup_ge_None. rewrite length_insert. by apply lookup_ge_None.
    + intros op. rewrite elem_of_app, Hops. split.
      * intros [Hop|(l' & s' & Hl' & Hs' & Hd' & ->)].
        -- rewrite Hops1 in Hop. destruct (saved s) eqn:Hsv;
             [by apply elem_of_nil in Hop|].
           apply list_elem_of_singleton in Hop as ->.
           exists l, s. split; [left|done].
        -- destruct (decide (l' = l)) as [->|Hne].
           ++ rewrite Hheap1, list_lookup_insert_eq in Hs'
                by by eapply lookup_lt_Some.
              injection Hs' as <-. discriminate Hd'.
           ++ rewrite Hheap1, list_lookup_insert_ne in Hs' by done.
              exists l', s'. split; [by right|done].
      * intros (l' & s' & Hl' & Hs' & Hd' & ->).
        destruct (decide (l' = l)) as [->|Hne].
        -- left. rewrite Hs in Hs'. injection Hs' as <-. rewrite Hops1, Hd'.
           left.
        -- right. exists l', s'. apply elem_of_cons in Hl' as [?|Hl']; [done|].
           split; [done|]. split; [|done].
           by rewrite Hheap1, list_lookup_insert_ne.
Qed.

End Saving.

(** ** The invariants of the reachable states *)
Section Upsert.

Context `{MB : MessageBase}.

Lemma elem_of_upsert id upd c d :
  d ∈ upsert id upd c → d = upd ∨ d ∈ c.
Proof.
  induction c as [|x c IH]; simpl.
  - intros ->%list_elem_of_singleton. by left.
  - destruct (matches id x).
    + intros [->|Hd]%elem_of_cons; [by left|]. right. by right.
    + intros [->|Hd]%elem_of_cons; [right; left|].
      destruct (IH Hd) as [?|?]; [by left|]. right. by right.
Qed.

Lemma upsert_elem id upd c : upd ∈ upsert id upd c.
Proof.
  induction c as [|x c IH]; simpl; [left|].
  destruct (matches id x); [left|by right].
Qed.

Lemma upsert_other id upd c d :
  d ∈ c → d_stream_id d ≠ Some id → d ∈ upsert id upd c.
Proof.
  intros Hd Hne. induction c as [|x c IH]; simpl;
    [by apply elem_of_nil in Hd|].
  apply elem_of_cons in Hd as [<-|Hd].
  - unfold matches. rewrite bool_decide_eq_false_2 by done. left.
  - destruct (matches id x); right; [done|by apply IH].
Qed.

Lemma upsert_ids id upd c :
  d_stream_id upd = Some id →
  map d_stream_id (upsert id upd c)
  = if decide (Some id ∈ map d_stream_id c) then map d_stream_id c
    else map d_stream_id c ++ [Some id].
Proof.
  intros Hupd. induction c as [|x c IH]; simpl.
  - rewrite Hupd. destruct (decide (Some id ∈ [])) as [H|_]; [|done].
    by apply elem_of_nil in H.
  - unfold matches. destruct (bool_decide (d_stream_id x = Some id)) eqn:E.
    + apply bool_decide_eq_true in E. simpl. rewrite Hupd, E.
      rewrite decide_True; [done|left].
    + apply bool_decide_eq_false in E. simpl. rewrite IH.
      destruct (decide (Some id ∈ map d_stream_id c)) as [Hin|Hnin].
      * rewrite decide_True; [done|by right].
      * rewrite decide_False; [done|]. rewrite not_elem_of_cons. split; congruence.
Qed.

Lemma upsert_unique id upd c :
  d_stream_id upd = Some id → store_unique c → store_unique (upsert id upd c).
Proof.
  intros Hupd Hc. unfold store_unique. rewrite upsert_ids by done.
  destruct (decide (Some id ∈ map d_stream_id c)) as [Hin|Hnin]; [done|].
  apply NoDup_app. split; [done|]. split; [|apply NoDup_singleton].
  by intros x Hx ->%list_elem_of_singleton.
Qed.

(** Writing a document that is already there changes nothing. *)
Lemma upsert_same id d c :
  store_unique c → d ∈ c → d_stream_id d = Some id → upsert id d c = c.
Proof.
  intros Hc Hd Hid. induction c as [|x c IH]; simpl; [by apply elem_of_nil in Hd|].
  unfold store_unique in Hc. simpl in Hc. apply NoDup_cons in Hc as [Hx Hc].
  unfold matches. apply elem_of_cons in Hd as [<-|Hd].
  - by rewrite bool_decide_eq_true_2.
  - rewrite bool_decide_eq_false_2.
    + f_equal. by apply IH.
    + intros Hx'. apply Hx. rewrite Hx', <- Hid. by apply list_elem_of_fmap_2.
Qed.

Lemma unique_doc c d d' :
  store_unique c → d ∈ c → d' ∈ c → d_stream_id d = d_stream_id d' → d = d'.
Proof.
  intros Hc Hd Hd' Heq. induction c as [|x c IH]; [by apply elem_of_nil in Hd|].
  unfold store_unique in Hc. simpl in Hc. apply NoDup_cons in Hc as [Hx Hc].
  apply elem_of_cons in Hd as [->|Hd]; apply elem_of_cons in Hd' as [->|Hd'].
  - done.
  - exfalso. apply Hx. rewrite Heq. by apply list_elem_of_fmap_2.
  - exfalso. apply Hx. rewrite <- Heq. by apply list_elem_of_fmap_2.
  - by apply IH.
Qed.

End Upsert.

Section Consistency.

Context `{MB : MessageBase} `{Env : Environment}.

Lemma to_dict_set_saved b s : to_dict (set_saved b s) = to_dict s.
Proof. reflexivity. Qed.

Lemma consistent_same w w' :
  heap w' = heap w → streams w' = streams w →
  chat_streams w' = chat_streams w →
  consistent w → consistent w'.
Proof.
  intros Hh Hs Hc [K R D U C]. split.
  - by rewrite Hs.
  - intros id l. rewrite Hs, Hh. apply R.
  - intros d. rewrite Hc. apply D.
  - by rewrite Hc.
  - intros id l s. rewrite Hs, Hh, Hc. apply C.
Qed.

(** The hit path: an object is modified, keeps its id and ends dirty. *)
Lemma consistent_touch w w' l s s' :
  heap w !! l = Some s →
  heap w' = <[l := s']> (heap w) →
  stream_id s' = stream_id s → saved s' = false →
  streams w' = streams w → chat_streams w' = chat_streams w →
  consistent w → consistent w'.
Proof.
  intros Hl Hh Hid Hd Hs Hc [K R D U C]. split.
  - by rewrite Hs.
  - intros id l0. rewrite Hs, Hh. intros Hget.
    destruct (R _ _ Hget) as (s0 & Hs0 & Hid0).
    destruct (decide (l0 = l)) as [->|Hne].
    + exists s'. rewrite list_lookup_insert_eq by by eapply lookup_lt_Some.
      split; [done|]. congruence.
    + exists s0. by rewrite list_lookup_insert_ne.
  - intros d. rewrite Hc. apply D.
  - by rewrite Hc.
  - intros id l0 s0. rewrite Hs, Hh, Hc.
    destruct (decide (l0 = l)) as [->|Hne].
    + rewrite list_lookup_insert_eq by by eapply lookup_lt_Some.
      intros _ [= <-]. congruence.
    + rewrite list_lookup_insert_ne by done. apply C.
Qed.

(** A new dirty object is registered under its id. *)
Lemma consistent_alloc w w' s :
  heap w' = heap w ++ [s] →
  streams w' = dict_set (streams w) (stream_id s) (length (heap w)) →
  chat_streams w' = chat_streams w →
  saved s = false →
  consistent w → consistent w'.
Proof.
  intros Hh Hs Hc Hd [K R D U C]. split.
  - rewrite Hs. by apply dict_keys_set_NoDup.
  - intros id l. rewrite Hs, Hh, dict_get_set.
    destruct (decide (stream_id s = id)) as [<-|Hne].
    + intros [= <-]. exists s. split; [by apply list_lookup_middle|done].
    + intros Hget. destruct (R _ _ Hget) as (s0 & Hs0 & Hid0).
      exists s0. split; [by apply lookup_app_l_Some|done].
  - intros d. rewrite Hc. apply D.
  - by rewrite Hc.
  - intros id l s0. rewrite Hs, Hh, Hc, dict_get_set.
    destruct (decide (stream_id s = id)) as [<-|Hne].
    + intros [= <-]. rewrite list_lookup_middle by done. intros [= <-]. congruence.
    + intros Hget. destruct (R _ _ Hget) as (s1 & Hs1 & _).
      rewrite (lookup_app_l_Some _ _ _ _ Hs1). intros [= <-]. by apply (C id l).
Qed.

(** A registered object is written and marked clean. *)
Lemma consistent_save w w' l s :
  heap w !! l = Some s →
  dict_get (streams w) (stream_id s) = Some l →
  heap w' = <[l := set_saved true s]> (heap w) →
  streams w' = streams w →
  chat_streams w' = upsert (stream_id s) (to_dict s) (chat_streams w) →
  consistent w → consistent w'.
Proof.
  intros Hl Hreg Hh Hs Hc [K R D U C]. split.
  - by rewrite Hs.
  - intros id l0. rewrite Hs, Hh. intros Hget.
    destruct (R _ _ Hget) as (s0 & Hs0 & Hid0).
    destruct (decide (l0 = l)) as [->|Hne].
    + exists (set_saved true s).
      rewrite list_lookup_insert_eq by by eapply lookup_lt_Some.
      split; [done|]. simpl. congruence.
    + exists s0. by rewrite list_lookup_insert_ne.
  - intros d. rewrite Hc. intros [->|Hd]%elem_of_upsert; [by exists s|by apply D].
  - rewrite Hc. by apply upsert_unique.
  - intros id l0 s0. rewrite Hs, Hh, Hc.
    destruct (decide (l0 = l)) as [->|Hne].
    + rewrite list_lookup_insert_eq by by eapply lookup_lt_Some.
      intros _ [= <-] _. rewrite to_dict_set_saved. apply upsert_elem.
    + rewrite list_lookup_insert_ne by done. intros Hget Hs0 Hclean.
      apply upsert_other; [by apply (C id l0)|].
      destruct (R _ _ Hget) as (s1 & Hs1 & Hid1).
      assert (s1 = s0) as -> by congruence.
      simpl. intros [= Heq]. rewrite Heq in Hid1. subst id. congruence.
Qed.

(** Any outcome of [_save_stream] on a registered object. *)
Lemma consistent_save_stream w l s :
  heap w !! l = Some s →
  dict_get (streams w) (stream_id s) = Some l →
  consistent w → consistent (_save_stream l w).2.
Proof.
  intros Hl Hreg Hc.
  destruct (saved s) eqn:Hsv.
  - by rewrite (save_stream_clean _ _ _ Hl Hsv).
  - destruct (store_down (length (store_log w))) eqn:Hst.
    + rewrite (save_stream_dirty_down _ _ _ Hl Hsv Hst).
      by apply (consistent_same w).
    + rewrite (save_stream_dirty_up _ _ _ Hl Hsv Hst).
      by apply (consistent_save w _ l s).
Qed.

Lemma fetched_facts id p u g c w s t :
  fetched id p u g (find (matches id) c) w = Ok (s, t) →
  stream_id s = id ∧ saved s = false ∧ user_info s = u.
Proof.
  unfold fetched.
  destruct (find (matches id) c) as [d|] eqn:Hfind;
    [destruct (doc_bool d); [destruct (doc_record d _) as [s0|] eqn:Hrec|]|];
    try discriminate; intros [= <- <-]; simpl; try done.
  split; [|done].
  apply find_some in Hfind as [_ Hm]. apply bool_decide_eq_true in Hm.
  apply doc_record_fields in Hrec as (Hsid & _). congruence.
Qed.

Lemma consistent_get_or_create_stream p u g w :
  consistent w → consistent (get_or_create_stream p u g w).2.
Proof.
  intros Hc.
  destruct (_generate_stream_id p u g) as [id|e] eqn:Hid;
    [|by rewrite (get_or_create_stream_no_id p u g w e Hid)].
  destruct (dict_get (streams w) id) as [stream|] eqn:Hin.
  - destruct (cons_refs _ Hc _ _ Hin) as (s & Hs & _).
    rewrite (get_or_create_stream_hit w p u g id stream s Hid Hin Hs).
    by eapply (consistent_touch w _ stream s).
  - destruct (store_down (length (store_log w))) eqn:Hst.
    + rewrite (get_or_create_stream_read_fails w p u g id Hid Hin Hst).
      by apply (consistent_same w).
    + rewrite (get_or_create_stream_miss w p u g id Hid Hin Hst).
      destruct (fetched id p u g _ w) as [[s t]|e] eqn:Hf;
        [|by apply (consistent_same w)].
      destruct (fetched_facts _ _ _ _ _ _ _ _ Hf) as (Hsid & Hd & _).
      set (wi := mkWorld (heap w ++ [s])
                   (dict_set (streams w) id (length (heap w)))
                   (chat_streams w) t (store_log w) (logger w)).
      assert (Hwi : consistent wi)
        by (apply (consistent_alloc w wi s); simpl; congruence).
      simpl. destruct (store_down (S _)).
      * by apply (consistent_same wi).
      * apply (consistent_save wi _ (length (heap w)) s); simpl; try done.
        -- by apply list_lookup_middle.
        -- rewrite Hsid. apply dict_get_set_eq.
        -- by rewrite insert_app_r_alt, Nat.sub_diag by lia.
Qed.

Lemma for_each_invariant {A} (I : World → Prop) (body : A → M unit) l :
  (∀ x w, x ∈ l → I w → I (body x w).2) →
  ∀ w, I w → I (for_each l body w).2.
Proof.
  induction l as [|x l IH]; intros Hbody w Hw; simpl; [done|].
  unfold mbind, M_bind.
  assert (Hx := Hbody x w (list_elem_of_here _ _) Hw).
  destruct (body x w) as [[[]|e] w1]; simpl in *; [|done].
  apply IH; [|done]. intros y w0 Hy. apply Hbody. by right.
Qed.

Lemma consistent_load_body d w :
  consistent w → consistent (load_body d w).2.
Proof.
  intros Hc. rewrite load_body_run.
  destruct (doc_record d (clock (ticks w))) as [s|e] eqn:Hrec; [|done].
  apply doc_record_fields in Hrec as (_ & _ & _ & _ & Hd).
  by apply (consistent_alloc w _ s).
Qed.

Lemma consistent_load_all_streams w :
  consistent w → consistent (load_all_streams w).2.
Proof.
  intros Hc. destruct (store_down (length (store_log w))) eqn:Hst.
  - rewrite (load_all_streams_down _ Hst). by apply (consistent_same w).
  - rewrite (load_all_streams_up _ Hst).
    apply for_each_invariant.
    + intros d w0 _. apply consistent_load_body.
    + by apply (consistent_same w).
Qed.

Lemma dict_values_registered (d : list (string * nat)) l :
  NoDup (dict_keys d) → l ∈ dict_values d → ∃ id, dict_get d id = Some l.
Proof.
  induction d as [|[k v] d IH]; simpl; [by intros _ ?%elem_of_nil|].
  rewrite NoDup_cons. intros [Hk Hnd] [->|Hl]%elem_of_cons.
  - exists k. by rewrite decide_True.
  - destruct (IH Hnd Hl) as [id Hid]. exists id.
    rewrite decide_False; [done|]. intros ->.
    apply Hk. apply dict_get_Some_elem in Hid.
    by apply (list_elem_of_fmap_2 fst) in Hid.
Qed.

Lemma consistent_save_all_streams w :
  consistent w → consistent (_save_all_streams w).2.
Proof.
  intros Hc. unfold _save_all_streams.
  rewrite (bind_Ok _ _ w (dict_values (streams w)) w) by done.
  apply (for_each_invariant (λ w0, consistent w0 ∧ streams w0 = streams w));
    [|by split].
  intros l w0 Hl [Hc0 Hst0].
  rewrite <- Hst0 in Hl.
  destruct (dict_values_registered _ _ (cons_keys _ Hc0) Hl) as [id Hid].
  destruct (cons_refs _ Hc0 _ _ Hid) as (s & Hs & <-).
  split; [by apply (consistent_save_stream w0 l s)|].
  rewrite <- Hst0. clear -Hs.
  destruct (saved s) eqn:Hsv.
  - by rewrite (save_stream_clean _ _ _ Hs Hsv).
  - destruct (store_down (length (store_log w0))) eqn:Hst.
    + by rewrite (save_stream_dirty_down _ _ _ Hs Hsv Hst).
    + by rewrite (save_stream_dirty_up _ _ _ Hs Hsv Hst).
Qed.

Lemma try_log_invariant (I : World → Prop) (body : M unit) ok ko w :
  (∀ w0 w1, heap w1 = heap w0 → streams w1 = streams w0 →
            chat_streams w1 = chat_streams w0 → ticks w1 = ticks w0 →
            I w0 → I w1) →
  I (body w).2 →
  I (try_except (body;; log ok) (λ e, log (ko e)) w).2.
Proof.
  intros Hlog Hbody. unfold try_except, mbind, M_bind.
  destruct (body w) as [[[]|e] w1]; simpl in *;
    (eapply Hlog; [..|exact Hbody]; reflexivity).
Qed.

Lemma consistent_run a w : consistent w → consistent (run a w).
Proof.
  intros Hc. destruct a as [p u g| | |]; unfold run.
  - by apply consistent_get_or_create_stream.
  - unfold _initialize, try_except, mbind, M_bind.
    assert (H := consistent_load_all_streams w Hc).
    destruct (load_all_streams w) as [[[]|e] w1]; simpl in *;
      by apply (consistent_same w1).
  - unfold _auto_save_round.
    apply try_log_invariant; [|by apply consistent_save_all_streams].
    intros w0 w1 ? ? ? _. by apply consistent_same.
  - split; simpl.
    + apply NoDup_nil_2.
    + intros id l. discriminate.
    + apply (cons_docs _ Hc).
    + apply (cons_unique _ Hc).
    + intros id l s. discriminate.
Qed.

Lemma reachable_consistent w : reachable w → consistent w.
Proof.
  induction 1 as [|a w _ IH]; [|by apply consistent_run].
  split; simpl.
  - apply NoDup_nil_2.
  - intros id l. discriminate.
  - by intros d ?%elem_of_nil.
  - apply NoDup_nil_2.
  - intros id l s. discriminate.
Qed.

(** In a reachable state no reference dangles: a hit in memory returns its
    record, and the saving pass completes when the store answers. *)
Lemma reachable_hit_returns w p u g id stream :
  reachable w →
  _generate_stream_id p u g = Ok id →
  dict_get (streams w) id = Some stream →
  ∃ w', get_or_create_stream p u g w = (Ok stream, w').
Proof.
  intros Hr Hid Hin.
  destruct (cons_refs _ (reachable_consistent w Hr) _ _ Hin) as (s & Hs & _).
  eexists. by apply (get_or_create_stream_hit w p u g id stream s).
Qed.

Lemma reachable_save_all_streams_completes w :
  reachable w → store_up_from (length (store_log w)) →
  ∃ w', _save_all_streams w = (Ok (), w').
Proof.
  intros Hr Hup. assert (Hc := reachable_consistent w Hr).
  destruct (save_loop (dict_values (streams w)) w Hup) as (w' & ops & Hrun & _).
  - intros l Hl.
    destruct (dict_values_registered _ _ (cons_keys _ Hc) Hl) as [id Hid].
    destruct (cons_refs _ Hc _ _ Hid) as (s & Hs & _). by exists s.
  - exists w'. unfold _save_all_streams.
    by rewrite (bind_Ok _ _ w (dict_values (streams w)) w).
Qed.

End Consistency.

Section Timeliness.

Context `{MB : MessageBase} `{Env : Environment}.

Hypothesis clock_mono : clock_monotone.

Lemma clock_le n m : n ≤ m → (clock n ≤ clock m)%Z.
Proof.
  induction 1 as [|m _ IH]; [lia|]. specialize (clock_mono m). lia.
Qed.

Lemma timely_advance w w' :
  ticks w ≤ ticks w' → heap w' = heap w → chat_streams w' = chat_streams w →
  timely w → timely w'.
Proof.
  intros Ht Hh Hc [H D]. apply clock_le in Ht. split.
  - intros l s. rewrite Hh. intros Hl. destruct (H l s Hl). lia.
  - intros d. rewrite Hc. intros Hd.
    destruct (D d Hd) as (ct & lat & ? & ? & ? & ?).
    exists ct, lat. repeat split; try done. lia.
Qed.

Lemma timely_touch w w' l s s' :
  heap w !! l = Some s →
  heap w' = <[l := s']> (heap w) →
  create_time s' = create_time s →
  last_active_time s' = clock (ticks w) →
  ticks w' = S (ticks w) →
  chat_streams w' = chat_streams w →
  timely w → timely w'.
Proof.
  intros Hl Hh Hct Hlat Ht Hc [H D].
  assert (Hle := clock_mono (ticks w)). split.
  - intros l0 s0. rewrite Hh, Ht.
    destruct (decide (l0 = l)) as [->|Hne].
    + rewrite list_lookup_insert_eq by by eapply lookup_lt_Some.
      intros [= <-]. destruct (H l s Hl). lia.
    + rewrite list_lookup_insert_ne by done. intros Hl0.
      destruct (H l0 s0 Hl0). lia.
  - intros d. rewrite Hc, Ht. intros Hd.
    destruct (D d Hd) as (ct & lat & ? & ? & ? & ?).
    exists ct, lat. repeat split; try done. lia.
Qed.

Lemma timely_alloc w w' s :
  heap w' = heap w ++ [s] →
  ticks w ≤ ticks w' →
  (create_time s ≤ last_active_time s)%Z →
  (last_active_time s ≤ clock (ticks w'))%Z →
  chat_streams w' = chat_streams w →
  timely w → timely w'.
Proof.
  intros Hh Ht H1 H2 Hc [H D]. apply clock_le in Ht. split.
  - intros l0 s0. rewrite Hh.
    intros [Hl0|[_ Hl0]]%lookup_app_Some.
    + destruct (H l0 s0 Hl0). lia.
    + destruct (l0 - length (heap w)) as [|k]; [|done].
      injection Hl0 as <-. done.
  - intros d. rewrite Hc. intros Hd.
    destruct (D d Hd) as (ct & lat & ? & ? & ? & ?).
    exists ct, lat. repeat split; try done. lia.
Qed.

Lemma timely_save w w' l s :
  heap w !! l = Some s →
  heap w' = <[l := set_saved true s]> (heap w) →
  chat_streams w' = upsert (stream_id s) (to_dict s) (chat_streams w) →
  ticks w' = ticks w →
  timely w → timely w'.
Proof.
  intros Hl Hh Hc Ht [H D]. split.
  - intros l0 s0. rewrite Hh, Ht.
    destruct (decide (l0 = l)) as [->|Hne].
    + rewrite list_lookup_insert_eq by by eapply lookup_lt_Some.
      intros [= <-]. apply (H l s Hl).
    + rewrite list_lookup_insert_ne by done. apply H.
  - intros d. rewrite Hc, Ht. intros [->|Hd]%elem_of_upsert; [|by apply D].
    exists (create_time s), (last_active_time s). simpl.
    destruct (H l s Hl). done.
Qed.

Lemma doc_record_times d now s ct lat :
  doc_record d now = Ok s →
  d_create_time d = Some ct → d_last_active_time d = Some lat →
  create_time s = ct ∧ last_active_time s = lat.
Proof.
  intros Hrec Hct Hlat.
  apply doc_record_fields in Hrec as (_ & _ & -> & -> & _).
  assert (Hb : doc_bool d = true).
  { unfold doc_bool. rewrite Hct.
    rewrite (bool_decide_eq_true_2 (is_Some (Some ct))) by by eexists.
    by rewrite !orb_true_r. }
  unfold init_last_active_time, init_create_time. by rewrite Hb, Hct, Hlat.
Qed.

Lemma fetched_times id p u g w s t :
  timely w →
  fetched id p u g (find (matches id) (chat_streams w)) w = Ok (s, t) →
  ticks w ≤ t
  ∧ (create_time s ≤ last_active_time s)%Z
  ∧ (last_active_time s ≤ clock t)%Z.
Proof.
  intros [H D]. unfold fetched.
  assert (H1 := clock_mono (ticks w)).
  assert (H2 := clock_mono (S (ticks w))).
  destruct (find (matches id) (chat_streams w)) as [d|] eqn:Hfind;
    [destruct (doc_bool d); [destruct (doc_record d _) as [s0|] eqn:Hrec|]|];
    try discriminate; intros [= <- <-]; simpl; try (split; [lia|lia]).
  apply find_some in Hfind as [Hd%list_elem_of_In _].
  destruct (D d Hd) as (ct & lat & Hct & Hlat & ? & ?).
  destruct (doc_record_times _ _ _ _ _ Hrec Hct Hlat) as [-> _].
  split; [lia|lia].
Qed.

Lemma timely_get_or_create_stream p u g w :
  consistent w → timely w → timely (get_or_create_stream p u g w).2.
Proof.
  intros Hc Ht.
  destruct (_generate_stream_id p u g) as [id|e] eqn:Hid;
    [|by rewrite (get_or_create_stream_no_id p u g w e Hid)].
  destruct (dict_get (streams w) id) as [stream|] eqn:Hin.
  - destruct (cons_refs _ Hc _ _ Hin) as (s & Hs & _).
    rewrite (get_or_create_stream_hit w p u g id stream s Hid Hin Hs).
    by eapply (timely_touch w _ stream s).
  - destruct (store_down (length (store_log w))) eqn:Hst.
    + rewrite (get_or_create_stream_read_fails w p u g id Hid Hin Hst).
      by apply (timely_advance w).
    + rewrite (get_or_create_stream_miss w p u g id Hid Hin Hst).
      destruct (fetched id p u g _ w) as [[s t]|e] eqn:Hf;
        [|by apply (timely_advance w)].
      destruct (fetched_times _ _ _ _ _ _ _ Ht Hf) as (Htick & Hct & Hlat).
      set (wi := mkWorld (heap w ++ [s])
                   (dict_set (streams w) id (length (heap w)))
                   (chat_streams w) t (store_log w) (logger w)).
      assert (Hwi : timely wi) by by apply (timely_alloc w wi s).
      simpl. destruct (store_down (S _)).
      * by apply (timely_advance wi).
      * apply (timely_save wi _ (length (heap w)) s); simpl; try done.
        -- by apply list_lookup_middle.
        -- by rewrite insert_app_r_alt, Nat.sub_diag by lia.
Qed.

Lemma timely_load_body d w :
  d ∈ chat_streams w → timely w → timely (load_body d w).2.
Proof.
  intros Hd Ht. rewrite load_body_run.
  destruct (doc_record d (clock (ticks w))) as [s|e] eqn:Hrec; [|done].
  destruct (timely_docs _ Ht d Hd) as (ct & lat & Hct & Hlat & ? & ?).
  destruct (doc_record_times _ _ _ _ _ Hrec Hct Hlat) as [Hc Hl].
  assert (H1 := clock_mono (ticks w)).
  apply (timely_alloc w _ s); simpl; try done; lia.
Qed.

Lemma load_body_chat_streams d w :
  chat_streams (load_body d w).2 = chat_streams w.
Proof.
  rewrite load_body_run. by destruct (doc_record d (clock (ticks w))).
Qed.

Lemma timely_load_all_streams w :
  timely w → timely (load_all_streams w).2.
Proof.
  intros Ht. destruct (store_down (length (store_log w))) eqn:Hst.
  - rewrite (load_all_streams_down _ Hst). by apply (timely_advance w).
  - rewrite (load_all_streams_up _ Hst).
    apply (for_each_invariant
             (λ w0, timely w0 ∧ chat_streams w0 = chat_streams w)).
    + intros d w0 Hd [Ht0 Hc0]. split.
      * apply timely_load_body; [by rewrite Hc0|done].
      * by rewrite load_body_chat_streams.
    + split; [by apply (timely_advance w)|done].
Qed.

Lemma timely_save_stream w l :
  timely w → timely (_save_stream l w).2.
Proof.
  intros Ht. destruct (heap w !! l) as [s|] eqn:Hs.
  - destruct (saved s) eqn:Hsv.
    + by rewrite (save_stream_clean _ _ _ Hs Hsv).
    + destruct (store_down (length (store_log w))) eqn:Hst.
      * rewrite (save_stream_dirty_down _ _ _ Hs Hsv Hst).
        by apply (timely_advance w).
      * rewrite (save_stream_dirty_up _ _ _ Hs Hsv Hst).
        by apply (timely_save w _ l s).
  - unfold _save_stream. erewrite bind_Raise; [done|].
    unfold deref. by rewrite Hs.
Qed.

Lemma timely_save_all_streams w :
  timely w → timely (_save_all_streams w).2.
Proof.
  intros Ht. unfold _save_all_streams.
  rewrite (bind_Ok _ _ w (dict_values (streams w)) w) by done.
  apply for_each_invariant; [|done].
  intros l w0 _. apply timely_save_stream.
Qed.

Lemma timely_run a w : consistent w → timely w → timely (run a w).
Proof.
  intros Hc Ht. destruct a as [p u g| | |]; unfold run.
  - by apply timely_get_or_create_stream.
  - unfold _initialize, try_except, mbind, M_bind.
    assert (H := timely_load_all_streams w Ht).
    destruct (load_all_streams w) as [[[]|e] w1]; simpl in *;
      by apply (timely_advance w1).
  - unfold _auto_save_round.
    apply try_log_invariant; [|by apply timely_save_all_streams].
    intros w0 w1 Hh _ Hcs Htk. apply timely_advance; [lia|done|done].
  - destruct Ht as [H D]. split; simpl.
    + intros l s Hl. by destruct l.
    + exact D.
Qed.

Lemma reachable_timely w : reachable w → timely w.
Proof.
  induction 1 as [|a w Hr IH].
  - split; simpl.
    + intros l s Hl. by destruct l.
    + by intros d ?%elem_of_nil.
  - apply timely_run; [by apply reachable_consistent|done].
Qed.

End Timeliness.

(** ** Liveness *)

(** C5: with a clock that never goes back, in every state that the process
    reaches from an empty store, every record has
    [create_time <= last_active_time]; a call of [get_or_create_stream]
    leaves every record that exists with the same id and [create_time] and
    with a [last_active_time] that is not smaller than before; and a record
    rebuilt from its stored document keeps the stored [create_time] and
    gets a [last_active_time] not smaller than the stored one. *)
Theorem C5_liveness_monotone `{MB : MessageBase} `{Env : Environment}
    (Hmono : clock_monotone) (w : World) (Hreach : reachable w) :
  (∀ l s, heap w !! l = Some s → (create_time s ≤ last_active_time s)%Z)
  ∧ (∀ p u g r w' l s,
       get_or_create_stream p u g w = (r, w') →
       heap w !! l = Some s →
       ∃ s', heap w' !! l = Some s'
             ∧ (last_active_time s ≤ last_active_time s')%Z
             ∧ create_time s' = create_time s
             ∧ stream_id s' = stream_id s)
  ∧ (∀ p u g stream w' id d,
       get_or_create_stream p u g w = (Ok stream, w') →
       _generate_stream_id p u g = Ok id →
       dict_get (streams w) id = None →
       find (matches id) (chat_streams w) = Some d →
       ∃ s ct lat,
         heap w' !! stream = Some s
         ∧ d_create_time d = Some ct ∧ d_last_active_time d = Some lat
         ∧ create_time s = ct
         ∧ (lat ≤ last_active_time s)%Z
         ∧ stream_id s = id).
Proof.
  assert (Ht := reachable_timely Hmono w Hreach).
  split; [|split].
  - intros l s Hl. by destruct (timely_heap _ Ht l s Hl).
  - intros p u g r w' l s Hrun Hl.
    destruct (get_or_create_stream_old_object _ _ _ _ _ _ _ _ Hrun Hl)
      as [Hsame|[_ Hupd]].
    + exists s. split; [done|]. split; [lia|done].
    + eexists. split; [exact Hupd|]. simpl.
      destruct (timely_heap _ Ht l s Hl). done.
  - intros p u g stream w' id d Hrun Hid Hmiss Hfind.
    destruct (store_down (length (store_log w))) eqn:Hst;
      [by rewrite (get_or_create_stream_read_fails w p u g id Hid Hmiss Hst)
         in Hrun|].
    rewrite (get_or_create_stream_miss w p u g id Hid Hmiss Hst) in Hrun.
    assert (Hd : d ∈ chat_streams w)
      by (apply find_some in Hfind as [?%list_elem_of_In _]; done).
    destruct (timely_docs _ Ht d Hd) as (ct & lat & Hct & Hlat & Hle & Hnow).
    assert (Hm : d_stream_id d = Some id)
      by (apply find_some in Hfind as [_ Hm];
          by apply bool_decide_eq_true in Hm).
    unfold fetched in Hrun. rewrite Hfind in Hrun.
    assert (Hb : doc_bool d = true).
    { unfold doc_bool. rewrite Hm.
      by rewrite (bool_decide_eq_true_2 (is_Some (Some id))) by by eexists. }
    rewrite Hb in Hrun.
    destruct (doc_record d (clock (ticks w))) as [s0|e] eqn:Hrec;
      [|discriminate].
    destruct (doc_record_times _ _ _ _ _ Hrec Hct Hlat) as [Hc0 Hl0].
    apply doc_record_fields in Hrec as (Hsid & _).
    simpl in Hrun. destruct (store_down (S _)); [discriminate|].
    injection Hrun as <- <-. eexists _, ct, lat. simpl.
    split; [by apply list_lookup_middle|]. simpl.
    do 3 (split; [done|]). split; [|congruence].
    assert (H1 := Hmono (ticks w)). lia.
Qed.

Lemma C5_liveness_monotone_witness :
  ∃ s, heap Sample.w_alice !! 0%nat = Some s
       ∧ (create_time s ≤ last_active_time s)%Z.
Proof.
  assert (Hmono : clock_monotone (Env := Sample.env_up))
    by (intros n; simpl; lia).
  assert (Hreach : reachable (Env := Sample.env_up) Sample.w_alice)
    by (unfold Sample.w_alice; apply reachable_run, reachable_start).
  destruct (C5_liveness_monotone (Env := Sample.env_up) Hmono
              Sample.w_alice Hreach) as [H _].
  eexists. split; [reflexivity|]. by apply (H 0%nat).
Defined.

(** ** The loading pass *)

(** C10: [load_all_streams] checks nothing before it assigns
    [streams[stream_id]].  When the store holds a document for an id that
    is in memory, the pass (the store answering, the documents accepted by
    [from_dict]) ends with that entry pointing to a new object, built from a
    stored document of that id; the object that was in memory is left as it
    was and is no longer the one that [streams] gives. *)
Theorem C10_load_overwrites_memory `{MB : MessageBase} `{Env : Environment}
    (w : World) (id : string) (old : nat) (s_old : ChatStream)
    (Hmem : dict_get (streams w) id = Some old)
    (Hold : heap w !! old = Some s_old)
    (Hstored : Some id ∈ map d_stream_id (chat_streams w))
    (Hup : store_down (length (store_log w)) = false)
    (Hload : forallb loadable (chat_streams w) = true) :
  ∃ w' stream s d now,
    load_all_streams w = (Ok (), w')
    ∧ dict_get (streams w') id = Some stream
    ∧ stream ≠ old
    ∧ heap w' !! stream = Some s
    ∧ d ∈ chat_streams w ∧ d_stream_id d = Some id
    ∧ doc_record d now = Ok s
    ∧ heap w' !! old = Some s_old.
Proof.
  rewrite (load_all_streams_up _ Hup).
  set (w0 := mkWorld _ _ _ _ _ _).
  destruct (load_loop_total (chat_streams w) w0 Hload) as [w' Hrun].
  destruct (load_loop _ _ _ _ Hrun)
    as ([new [Hheap Hnew]] & _ & _ & _ & _ & Hin).
  destruct (Hin eq_refl id Hstored) as (stream & s & Hget & Hge & Hs & Hsid).
  simpl in Hheap, Hge.
  assert (Hlt : old < length (heap w)) by by eapply lookup_lt_Some.
  assert (Hs' : new !! (stream - length (heap w)) = Some s).
  { rewrite Hheap in Hs. by rewrite lookup_app_r in Hs by lia. }
  apply list_elem_of_lookup_2 in Hs'.
  rewrite Forall_forall in Hnew.
  destruct (Hnew s Hs') as (d & now & Hd & Hrec).
  exists w', stream, s, d, now.
  split; [done|]. split; [done|]. split; [lia|]. split; [done|].
  split; [done|]. split.
  - apply doc_record_fields in Hrec as (-> & _). by rewrite Hsid.
  - split; [done|]. rewrite Hheap. by apply lookup_app_l_Some.
Qed.

Lemma C10_load_overwrites_memory_witness :
  ∃ w' stream s,
    load_all_streams (Env := Sample.env_up) Sample.w_updated = (Ok (), w')
    ∧ dict_get (streams Sample.w_updated) Sample.alice_id = Some 0%nat
    ∧ heap Sample.w_updated !! 0%nat
      = Some (mkChatStream Sample.alice_id "qq" (Some Sample.alice') None
                1000 1001 false)
    ∧ dict_get (streams w') Sample.alice_id = Some stream
    ∧ stream ≠ 0%nat
    ∧ heap w' !! stream = Some s
    ∧ user_info s = Some Sample.alice
    ∧ last_active_time s = 1000%Z.
Proof.
  destruct (C10_load_overwrites_memory (Env := Sample.env_up)
              Sample.w_updated Sample.alice_id 0%nat
              (mkChatStream Sample.alice_id "qq" (Some Sample.alice') None
                 1000 1001 false))
    as (w' & stream & s & d & now & Hrun & Hget & Hne & Hs & Hd & _ & Hrec & _).
  - vm_compute. reflexivity.
  - vm_compute. reflexivity.
  - vm_compute. left.
  - reflexivity.
  - vm_compute. reflexivity.
  - exists w', stream, s.
    split; [exact Hrun|]. split; [vm_compute; reflexivity|].
    split; [vm_compute; reflexivity|].
    split; [exact Hget|]. split; [exact Hne|]. split; [exact Hs|].
    assert (Hd' : d = to_dict (mkChatStream Sample.alice_id "qq"
                                 (Some Sample.alice) None 1000 1000 true)).
    { vm_compute in Hd. apply list_elem_of_singleton in Hd. rewrite Hd.
      vm_compute. reflexivity. }
    subst d. vm_compute in Hrec. injection Hrec as <-. split; reflexivity.
Defined.

Section Roundtrip.

Context `{MB : MessageBase} `{Env : Environment} `{!Lawful MB}.

Lemma doc_bool_to_dict s : doc_bool (to_dict s) = true.
Proof. reflexivity. Qed.

(** [from_dict] gives back what [to_dict] was given, as a dirty object. *)
Lemma doc_record_to_dict s now :
  doc_record (to_dict s) now = Ok (set_saved false s).
Proof.
  unfold doc_record, init_last_active_time, init_create_time.
  rewrite doc_bool_to_dict. destruct s as [sid p u g ct lat sv]. simpl.
  destruct u as [u|], g as [g|]; simpl;
    rewrite ?user_dict_nonempty, ?user_roundtrip,
            ?group_dict_nonempty, ?group_roundtrip; reflexivity.
Qed.

Lemma docs_written_loadable w :
  docs_written w → forallb loadable (chat_streams w) = true.
Proof.
  intros Hw. apply forallb_forall. intros d Hd%list_elem_of_In.
  destruct (Hw d Hd) as [s ->]. unfold loadable.
  by rewrite doc_record_to_dict.
Qed.

End Roundtrip.

(** C9: a [ChatStream] is always constructed dirty, also by [from_dict].
    Hence after the loading pass every id of the store is registered with a
    dirty record, and the next saving pass issues an upsert for each of
    them, although (with collaborators that serialise faithfully) the
    document it writes is the one that the store already holds. *)
Theorem C9_loaded_records_are_written_again
    `{MB : MessageBase} `{Env : Environment}
    (w : World)
    (Hreach : reachable w)
    (Hup : store_up_from (length (store_log w)))
    (Hload : forallb loadable (chat_streams w) = true) :
  (∀ sid p u g data w0,
     ∃ l w1 s1, ChatStream_init sid p u g data w0 = (Ok l, w1)
                ∧ heap w1 !! l = Some s1 ∧ saved s1 = false)
  ∧ (∀ d w0 l w1, from_dict d w0 = (Ok l, w1) →
                  ∃ s1, heap w1 !! l = Some s1 ∧ saved s1 = false)
  ∧ ∃ w1 w2,
      load_all_streams w = (Ok (), w1)
      ∧ _save_all_streams w1 = (Ok (), w2)
      ∧ ∀ id, Some id ∈ map d_stream_id (chat_streams w) →
          ∃ stream s,
            dict_get (streams w1) id = Some stream
            ∧ heap w1 !! stream = Some s
            ∧ saved s = false
            ∧ UpdateOne id (to_dict s) ∈ issued w1 w2
            ∧ (Lawful MB → to_dict s ∈ chat_streams w1).
Proof.
  split; [|split].
  - intros sid p u g data w0. eexists _, _, _.
    split; [apply ChatStream_init_run|]. simpl.
    split; [by apply list_lookup_middle|reflexivity].
  - intros d w0 l w1. rewrite from_dict_run.
    destruct (doc_record d (clock (ticks w0))) as [s|e] eqn:Hrec;
      [|discriminate].
    intros [= <- <-]. exists s. simpl. split; [by apply list_lookup_middle|].
    by apply doc_record_fields in Hrec as (_ & _ & _ & _ & ?).
  - assert (Hc := reachable_consistent w Hreach).
    assert (Hup0 := Hup _ (le_n _)).
    assert (Hc1 := consistent_load_all_streams w Hc).
    rewrite (load_all_streams_up _ Hup0) in *.
    set (w0 := mkWorld _ _ _ _ _ _) in *.
    destruct (load_loop_total (chat_streams w) w0 Hload) as [w1 Hrun].
    rewrite Hrun in Hc1. simpl in Hc1.
    destruct (load_loop _ _ _ _ Hrun)
      as ([new [Hheap Hnew]] & Hcs & Hlog & _ & _ & Hin).
    simpl in Hheap, Hcs, Hlog.
    destruct (save_loop (dict_values (streams w1)) w1)
      as (w2 & ops & Hsave & _ & _ & _ & Hlog2 & _ & _ & Hops).
    { intros k Hk. apply Hup. rewrite Hlog, length_app in Hk. lia. }
    { intros l Hl.
      destruct (dict_values_registered _ _ (cons_keys _ Hc1) Hl) as [id Hid].
      destruct (cons_refs _ Hc1 _ _ Hid) as (s & Hs & _). by exists s. }
    exists w1, w2. split; [done|]. split.
    { unfold _save_all_streams.
      by rewrite (bind_Ok _ _ w1 (dict_values (streams w1)) w1). }
    intros id Hid.
    destruct (Hin eq_refl id Hid) as (stream & s & Hget & Hge & Hs & Hsid).
    simpl in Hge.
    assert (Hs' : new !! (stream - length (heap w)) = Some s).
    { rewrite Hheap in Hs. by rewrite lookup_app_r in Hs by lia. }
    apply list_elem_of_lookup_2 in Hs'.
    rewrite Forall_forall in Hnew.
    destruct (Hnew s Hs') as (d & now & Hd & Hrec).
    assert (Hdirty : saved s = false)
      by (by apply doc_record_fields in Hrec as (_ & _ & _ & _ & ?)).
    exists stream, s. do 3 (split; [done|]). split.
    + rewrite (issued_app _ _ _ Hlog2). apply Hops.
      exists stream, s. split; [|by rewrite Hsid].
      apply dict_get_Some_elem in Hget.
      by apply (list_elem_of_fmap_2 snd) in Hget.
    + intros Hlaw. rewrite Hcs.
      destruct (cons_docs _ Hc d Hd) as [s0 ->].
      rewrite doc_record_to_dict in Hrec. injection Hrec as <-.
      by rewrite to_dict_set_saved.
Qed.

(** The sample collaborators and the sample states. *)
#[global] Instance sample_lawful : Lawful Sample.message_base.
Proof.
  split.
  - intros [i n]. reflexivity.
  - intros [i n]. reflexivity.
  - intros g. reflexivity.
  - intros g. reflexivity.
Qed.

Lemma sample_reachable :
  reachable (Env := Sample.env_up) Sample.w_updated
  ∧ reachable (Env := Sample.env_up) Sample.w_restarted.
Proof.
  assert (H : reachable (Env := Sample.env_up) Sample.w_updated).
  { unfold Sample.w_updated, Sample.w_alice.
    apply reachable_run, reachable_run, reachable_start. }
  split; [exact H|]. unfold Sample.w_restarted. by apply reachable_run.
Qed.

(** A record is updated in memory before the loading pass of [_initialize]
    runs: the pass puts the stored version back. *)
Example initialize_after_update :
  let w' := run (Env := Sample.env_up) Initialize Sample.w_updated in
  heap Sample.w_updated
  = [mkChatStream Sample.alice_id "qq" (Some Sample.alice') None 1000 1001
       false]
  ∧ streams w' = [(Sample.alice_id, 1%nat)]
  ∧ heap w' !! 1%nat
    = Some (mkChatStream Sample.alice_id "qq" (Some Sample.alice) None
              1000 1000 false)
  ∧ logger w' = [LogLoaded 1].
Proof. vm_compute. repeat split. Qed.

Lemma C9_loaded_records_are_written_again_witness :
  ∃ w1 w2 stream s,
    load_all_streams (Env := Sample.env_up) Sample.w_restarted = (Ok (), w1)
    ∧ _save_all_streams (Env := Sample.env_up) w1 = (Ok (), w2)
    ∧ dict_get (streams w1) Sample.alice_id = Some stream
    ∧ heap w1 !! stream = Some s
    ∧ saved s = false
    ∧ UpdateOne Sample.alice_id (to_dict s) ∈ issued w1 w2
    ∧ to_dict s ∈ chat_streams w1.
Proof.
  destruct (C9_loaded_records_are_written_again (Env := Sample.env_up)
              Sample.w_restarted)
    as (_ & _ & w1 & w2 & Hload & Hsave & Hall).
  - exact (proj2 sample_reachable).
  - intros k _. reflexivity.
  - vm_compute. reflexivity.
  - destruct (Hall Sample.alice_id) as (stream & s & H1 & H2 & H3 & H4 & H5).
    + vm_compute. left.
    + exists w1, w2, stream, s. do 5 (split; [assumption|]).
      split; [assumption|]. exact (H5 sample_lawful).
Defined.

(** ** Persist, clear, load *)

(** C8: take a record of [streams] in a reachable state, with collaborators
    that serialise faithfully and a store that answers.  [_save_stream]
    succeeds on it; and in any state of memory on the same collection (in
    particular an empty dictionary), [load_all_streams] succeeds and
    registers under the same id a record with the same [stream_id],
    [platform], [user_info], [group_info], [create_time] and
    [last_active_time]. *)
Theorem C8_persist_clear_load `{MB : MessageBase} `{Env : Environment}
    `{!Lawful MB}
    (w : World) (id : string) (stream : nat) (s : ChatStream)
    (Hreach : reachable w)
    (Hreg : dict_get (streams w) id = Some stream)
    (Hs : heap w !! stream = Some s)
    (Hup : store_down (length (store_log w)) = false) :
  ∃ w1,
    _save_stream stream w = (Ok (), w1)
    ∧ ∀ w2,
        chat_streams w2 = chat_streams w1 →
        store_down (length (store_log w2)) = false →
        ∃ w3 stream' s',
          load_all_streams w2 = (Ok (), w3)
          ∧ dict_get (streams w3) id = Some stream'
          ∧ heap w3 !! stream' = Some s'
          ∧ stream_id s' = stream_id s
          ∧ platform s' = platform s
          ∧ user_info s' = user_info s
          ∧ group_info s' = group_info s
          ∧ create_time s' = create_time s
          ∧ last_active_time s' = last_active_time s.
Proof.
  assert (Hc := reachable_consistent w Hreach).
  destruct (cons_refs _ Hc _ _ Hreg) as (s0 & Hs0 & Hsid).
  assert (s0 = s) as -> by congruence.
  assert (Hc1 := consistent_save_stream w stream s Hs
                   ltac:(by rewrite Hsid) Hc).
  assert (Hsave : ∃ w1, _save_stream stream w = (Ok (), w1)
                        ∧ to_dict s ∈ chat_streams w1).
  { destruct (saved s) eqn:Hsv.
    - exists w. split; [by apply (save_stream_clean w stream s)|].
      by apply (cons_clean _ Hc id stream s).
    - eexists. split; [by apply (save_stream_dirty_up w stream s)|]. simpl.
      apply upsert_elem. }
  destruct Hsave as (w1 & Hrun & Hdoc). rewrite Hrun in Hc1. simpl in Hc1.
  exists w1. split; [done|]. intros w2 Hcs Hup2.
  assert (Hload : forallb loadable (chat_streams w2) = true).
  { rewrite Hcs. apply docs_written_loadable, Hc1. }
  rewrite (load_all_streams_up _ Hup2).
  set (w0 := mkWorld _ _ _ _ _ _).
  destruct (load_loop_total (chat_streams w2) w0 Hload) as [w3 Hrun3].
  destruct (load_loop _ _ _ _ Hrun3)
    as ([new [Hheap Hnew]] & _ & _ & _ & _ & Hin).
  destruct (Hin eq_refl id) as (stream' & s' & Hget & Hge & Hs' & Hsid').
  { rewrite Hcs, <- Hsid.
    by apply (list_elem_of_fmap_2 d_stream_id) in Hdoc. }
  simpl in Hheap, Hge.
  assert (Hnew' : new !! (stream' - length (heap w2)) = Some s').
  { rewrite Hheap in Hs'. by rewrite lookup_app_r in Hs' by lia. }
  apply list_elem_of_lookup_2 in Hnew'.
  rewrite Forall_forall in Hnew.
  destruct (Hnew s' Hnew') as (d & now & Hd & Hrec).
  assert (d = to_dict s) as ->.
  { apply (unique_doc (chat_streams w1)); [apply Hc1|by rewrite <- Hcs|done|].
    apply doc_record_fields in Hrec as (-> & _). simpl. congruence. }
  rewrite doc_record_to_dict in Hrec. injection Hrec as <-.
  exists w3, stream', (set_saved false s). by repeat split.
Qed.

Lemma C8_persist_clear_load_witness :
  ∃ w1 w3 stream' s',
    _save_stream (Env := Sample.env_up) 0 Sample.w_updated = (Ok (), w1)
    ∧ load_all_streams (Env := Sample.env_up) (startup w1) = (Ok (), w3)
    ∧ dict_get (streams w3) Sample.alice_id = Some stream'
    ∧ heap w3 !! stream' = Some s'
    ∧ user_info s' = Some Sample.alice'
    ∧ last_active_time s' = 1001%Z.
Proof.
  destruct (C8_persist_clear_load (Env := Sample.env_up)
              Sample.w_updated Sample.alice_id 0%nat
              (mkChatStream Sample.alice_id "qq" (Some Sample.alice') None
                 1000 1001 false)
              (proj1 sample_reachable))
    as (w1 & Hsave & Hload).
  - vm_compute. reflexivity.
  - vm_compute. reflexivity.
  - reflexivity.
  - destruct (Hload (startup w1) eq_refl eq_refl)
      as (w3 & stream' & s' & H1 & H2 & H3 & _ & _ & H6 & _ & _ & H9).
    exists w1, w3, stream', s'. do 5 (split; [assumption|]). assumption.
Defined.

(** * Further properties of the code *)

(** ** [ChatStream.from_dict] *)

(** X1: [from_dict] undoes [to_dict].  With collaborators that serialise
    faithfully, deserialising the dictionary of any record allocates one
    new object that equals the record in every field except the dirty flag,
    which is set; the reading of the clock made by the constructor is not
    used. *)
Theorem X1_from_dict_to_dict `{MB : MessageBase} `{Env : Environment}
    `{!Lawful MB} (s : ChatStream) (w : World) :
  from_dict (to_dict s) w
  = (Ok (length (heap w)),
     mkWorld (heap w ++ [set_saved false s]) (streams w) (chat_streams w)
             (S (ticks w)) (store_log w) (logger w)).
Proof. by rewrite from_dict_run, doc_record_to_dict. Qed.

Lemma X1_from_dict_to_dict_witness :
  from_dict (Env := Sample.env_up) (to_dict Sample.s_new) world0
  = (Ok 0%nat, mkWorld [Sample.s_new] [] [] 1 [] []).
Proof.
  exact (X1_from_dict_to_dict (Env := Sample.env_up) Sample.s_new world0).
Defined.

(** X2: when [from_dict] raises, it has changed nothing, whatever the
    document and whichever step refuses (a missing key, or a constructor of
    the info classes): no object is allocated and the clock is not read.
    When the constructors accept the info dictionaries of the document, a
    document without ["stream_id"] raises [KeyError "stream_id"], whether
    or not it has a platform, and a document with a stream id but no
    ["platform"] raises [KeyError "platform"]. *)
Theorem X2_from_dict_missing_key `{MB : MessageBase} `{Env : Environment}
    (d : Doc) (w : World) :
  (∀ e w', from_dict d w = (Raise e, w') → w' = w)
  ∧ (infos_accepted d → d_stream_id d = None →
     from_dict d w = (Raise (KeyError "stream_id"), w))
  ∧ (infos_accepted d → is_Some (d_stream_id d) → d_platform d = None →
     from_dict d w = (Raise (KeyError "platform"), w)).
Proof.
  split; [|split].
  - intros e w'. rewrite from_dict_run.
    destruct (doc_record d (clock (ticks w))); [discriminate|].
    by intros [= _ <-].
  - intros [Hu Hg] Hid. rewrite from_dict_run. unfold doc_record. rewrite Hid.
    destruct (d_user_info d) as [kw|] eqn:Eu;
      [destruct (dict_bool kw) eqn:Bu;
       [destruct (Hu kw eq_refl Bu) as [u ->]|]|];
    (destruct (d_group_info d) as [kw'|] eqn:Eg;
      [destruct (dict_bool kw') eqn:Bg;
       [destruct (Hg kw' eq_refl Bg) as [g ->]|]|]); reflexivity.
  - intros [Hu Hg] [sid Hid] Hp. rewrite from_dict_run. unfold doc_record.
    rewrite Hid, Hp.
    destruct (d_user_info d) as [kw|] eqn:Eu;
      [destruct (dict_bool kw) eqn:Bu;
       [destruct (Hu kw eq_refl Bu) as [u ->]|]|];
    (destruct (d_group_info d) as [kw'|] eqn:Eg;
      [destruct (dict_bool kw') eqn:Bg;
       [destruct (Hg kw' eq_refl Bg) as [g ->]|]|]); reflexivity.
Qed.

Lemma X2_from_dict_missing_key_witness :
  from_dict (Env := Sample.env_up) Sample2.headless_doc Sample.w_alice
  = (Raise (KeyError "stream_id"), Sample.w_alice).
Proof.
  refine (proj1 (proj2 (X2_from_dict_missing_key (Env := Sample.env_up)
                          Sample2.headless_doc Sample.w_alice)) _ eq_refl).
  split; intros kw Hkw; discriminate Hkw.
Defined.

(** X3: the times of a loaded record.  For a document that [from_dict]
    accepts, [create_time] is the stored one, or the clock when the
    document has none, and [last_active_time] is the stored one, or
    [create_time] when the document has none.  So a document with a last
    activity in the past and no creation time yields a record whose last
    activity precedes its creation. *)
Theorem X3_from_dict_times `{MB : MessageBase} `{Env : Environment}
    (d : Doc) (w : World) (Hload : loadable d = true) :
  ∃ s,
    from_dict d w
    = (Ok (length (heap w)),
       mkWorld (heap w ++ [s]) (streams w) (chat_streams w) (S (ticks w))
               (store_log w) (logger w))
    ∧ create_time s = default (clock (ticks w)) (d_create_time d)
    ∧ last_active_time s = default (create_time s) (d_last_active_time d)
    ∧ saved s = false
    ∧ (∀ lat, d_create_time d = None → d_last_active_time d = Some lat →
              (lat < clock (ticks w))%Z →
              (last_active_time s < create_time s)%Z).
Proof.
  destruct (loadable_record d (clock (ticks w)) Hload) as [s Hrec].
  exists s. rewrite from_dict_run, Hrec. split; [done|].
  destruct (doc_record_fields _ _ _ Hrec) as (Hid & _ & Hct & Hlat & Hsv).
  assert (Hb : doc_bool d = true).
  { unfold doc_bool. rewrite Hid. reflexivity. }
  unfold init_last_active_time, init_create_time in Hct, Hlat.
  rewrite Hb in Hct, Hlat.
  split; [done|]. split; [by rewrite Hlat, Hct|]. split; [done|].
  intros lat Hnone Hsome Hlt. rewrite Hlat, Hct, Hnone, Hsome. simpl. lia.
Qed.

Lemma X3_from_dict_times_witness :
  ∃ s, from_dict (Env := Sample.env_up) Sample2.legacy_doc world0
       = (Ok 0%nat, mkWorld [s] [] [] 1 [] [])
       ∧ create_time s = 1000%Z ∧ last_active_time s = 5%Z.
Proof.
  destruct (X3_from_dict_times (Env := Sample.env_up) Sample2.legacy_doc
              world0 eq_refl) as (s & Hrun & Hct & Hlat & _).
  exists s. split; [exact Hrun|]. split; [exact Hct|].
  rewrite Hlat. reflexivity.
Defined.

(** ** Lookups and identity *)

Ltac goc_split p u g w :=
  let id := fresh "id" in
  let e := fresh "e" in
  let Hid := fresh "Hid" in
  let Hin := fresh "Hin" in
  let Hs := fresh "Hs" in
  let Hst := fresh "Hst" in
  let stream := fresh "stream" in
  let s := fresh "s" in
  destruct (_generate_stream_id p u g) as [id|e] eqn:Hid;
  [ destruct (dict_get (streams w) id) as [stream|] eqn:Hin;
    [ destruct (heap w !! stream) as [s|] eqn:Hs;
      [ rewrite (get_or_create_stream_hit w p u g id stream s Hid Hin Hs)
      | rewrite (get_or_create_stream_dangling w p u g id stream Hid Hin Hs) ]
    | destruct (store_down (length (store_log w))) eqn:Hst;
      [ rewrite (get_or_create_stream_read_fails w p u g id Hid Hin Hst)
      | rewrite (get_or_create_stream_miss w p u g id Hid Hin Hst) ] ]
  | rewrite (get_or_create_stream_no_id p u g w e Hid) ].

(** X4: what [get_or_create_stream] has returned is what the two lookups
    find: [get_stream_by_info] with the same identity and [get_stream] with
    the derived id give that record, and they leave the state as it is (no
    refresh of the activity time, no dirty mark, no call to the store).  The
    lookups do not fall back on the store: in a new process on the same
    store, the lookup by identity finds nothing. *)
Theorem X4_lookup_after_get_or_create `{MB : MessageBase} `{Env : Environment}
    (w w1 : World) (p : string) (u : option UserInfo) (g : option GroupInfo)
    (stream : nat)
    (Hrun : get_or_create_stream p u g w = (Ok stream, w1)) :
  get_stream_by_info p u g w1 = (Ok (Some stream), w1)
  ∧ (∃ id, _generate_stream_id p u g = Ok id
           ∧ get_stream id w1 = (Ok (Some stream), w1))
  ∧ get_stream_by_info p u g (startup w1) = (Ok None, startup w1).
Proof.
  destruct (get_or_create_stream_returned _ _ _ _ _ _ Hrun)
    as (id & s & Hid & Hget & _).
  split; [|split].
  - by rewrite get_stream_by_info_run, Hid, Hget.
  - exists id. split; [done|]. by rewrite get_stream_run, Hget.
  - by rewrite get_stream_by_info_run, Hid.
Qed.

Lemma X4_lookup_after_get_or_create_witness :
  get_stream_by_info "qq" (Some Sample.alice) None Sample.w_alice
  = (Ok (Some 0%nat), Sample.w_alice)
  ∧ get_stream_by_info "qq" (Some Sample.alice) None (startup Sample.w_alice)
    = (Ok None, startup Sample.w_alice).
Proof.
  destruct (X4_lookup_after_get_or_create (Env := Sample.env_up)
              world0 Sample.w_alice "qq" (Some Sample.alice) None 0%nat)
    as (H1 & _ & H3).
  - vm_compute. reflexivity.
  - split; [exact H1|exact H3].
Defined.

(** ** What the background tasks leave alone *)
Section Background.

Context `{MB : MessageBase} `{Env : Environment}.

Lemma save_stream_effect l w :
  streams (_save_stream l w).2 = streams w
  ∧ (heap (_save_stream l w).2 = heap w
     ∨ ∃ s, heap w !! l = Some s
            ∧ heap (_save_stream l w).2 = <[l := set_saved true s]> (heap w)).
Proof.
  destruct (heap w !! l) as [s|] eqn:Hs.
  - destruct (saved s) eqn:Hsv.
    + rewrite (save_stream_clean _ _ _ Hs Hsv). split; [done|by left].
    + destruct (store_down (length (store_log w))) eqn:Hst.
      * rewrite (save_stream_dirty_down _ _ _ Hs Hsv Hst). split; [done|by left].
      * rewrite (save_stream_dirty_up _ _ _ Hs Hsv Hst). split; [done|].
        right. by exists s.
  - unfold _save_stream. erewrite bind_Raise; [split; [done|by left]|].
    unfold deref. by rewrite Hs.
Qed.

Lemma save_all_streams_effect w :
  streams (_save_all_streams w).2 = streams w
  ∧ ∀ l s, heap w !! l = Some s →
           heap (_save_all_streams w).2 !! l = Some s
           ∨ heap (_save_all_streams w).2 !! l = Some (set_saved true s).
Proof.
  unfold _save_all_streams.
  rewrite (bind_Ok _ _ w (dict_values (streams w)) w) by done.
  apply (for_each_invariant
           (λ w0, streams w0 = streams w
                  ∧ ∀ l s, heap w !! l = Some s →
                           heap w0 !! l = Some s
                           ∨ heap w0 !! l = Some (set_saved true s)));
    [|split; [done|by left]].
  intros l0 w0 _ [Hst Hobj].
  destruct (save_stream_effect l0 w0) as [Hst' Hheap].
  split; [congruence|]. intros l s Hl. specialize (Hobj l s Hl).
  destruct Hheap as [->|(s0 & Hs0 & ->)]; [done|].
  destruct (decide (l = l0)) as [->|Hne].
  - right. rewrite list_lookup_insert_eq by by eapply lookup_lt_Some.
    destruct Hobj as [H|H]; rewrite H in Hs0; by injection Hs0 as <-.
  - by rewrite list_lookup_insert_ne.
Qed.


End Background.

(** *** Entries of [streams] outside the loading pass *)
Section Entries.

Context `{MB : MessageBase} `{Env : Environment}.

Lemma same_identity_refl s : same_identity s s.
Proof. by repeat split. Qed.

Lemma same_identity_trans s1 s2 s3 :
  same_identity s1 s2 → same_identity s2 s3 → same_identity s1 s3.
Proof.
  intros (H1 & H2 & H3) (H1' & H2' & H3').
  split; [|split]; congruence.
Qed.

(** A call, whatever its outcome, rebinds no entry. *)
Lemma get_or_create_stream_keeps_entry p u g w id' l :
  dict_get (streams w) id' = Some l →
  dict_get (streams (get_or_create_stream p u g w).2) id' = Some l.
Proof.
  intros Hget. goc_split p u g w; try done.
  destruct (fetched id p u g _ w) as [[s t]|e'] eqn:Hf; [|done].
  simpl. destruct (store_down (S _)); simpl;
    (rewrite dict_get_set_ne; [done|congruence]).
Qed.

(** A call leaves an object its id, its platform and its creation time. *)
Lemma get_or_create_stream_keeps_identity p u g w l s :
  heap w !! l = Some s →
  ∃ s', heap (get_or_create_stream p u g w).2 !! l = Some s'
        ∧ same_identity s s'.
Proof.
  intros Hl.
  destruct (get_or_create_stream p u g w) as [r w'] eqn:Hrun.
  destruct (get_or_create_stream_old_object _ _ _ _ _ _ _ _ Hrun Hl)
    as [H|[_ H]]; simpl.
  - exists s. split; [done|apply same_identity_refl].
  - eexists. split; [exact H|]. by repeat split.
Qed.

(** A round of the auto-save task rebinds no entry and only clears dirty
    flags. *)
Lemma auto_save_round_effect w :
  streams (_auto_save_round w).2 = streams w
  ∧ ∀ l s, heap w !! l = Some s →
           ∃ s', heap (_auto_save_round w).2 !! l = Some s'
                 ∧ same_identity s s'.
Proof.
  destruct (save_all_streams_effect w) as [Hst Hobj].
  unfold _auto_save_round, try_except, mbind, M_bind.
  destruct (_save_all_streams w) as [[[]|e'] w2]; simpl in *;
    (split; [done|]); intros l s Hl;
    (destruct (Hobj l s Hl) as [H|H];
     [exists s; split; [done|apply same_identity_refl]
     |eexists; split; [exact H|by repeat split]]).
Qed.

Lemma keeps_entries_run a w id l s :
  keeps_entries a = true →
  dict_get (streams w) id = Some l →
  heap w !! l = Some s →
  dict_get (streams (run a w)) id = Some l
  ∧ ∃ s', heap (run a w) !! l = Some s' ∧ same_identity s s'.
Proof.
  intros Ha Hget Hl. destruct a as [p u g| | |]; try discriminate; simpl.
  - split; [by apply get_or_create_stream_keeps_entry|].
    by apply get_or_create_stream_keeps_identity.
  - destruct (auto_save_round_effect w) as [Hst Hobj].
    split; [by rewrite Hst|by apply Hobj].
Qed.

Lemma keeps_entries_run_all acts w id l s :
  forallb keeps_entries acts = true →
  dict_get (streams w) id = Some l →
  heap w !! l = Some s →
  dict_get (streams (run_all acts w)) id = Some l
  ∧ ∃ s', heap (run_all acts w) !! l = Some s' ∧ same_identity s s'.
Proof.
  revert w s. induction acts as [|a acts IH]; intros w s Hacts Hget Hl.
  - split; [done|]. exists s. split; [done|apply same_identity_refl].
  - simpl in Hacts. apply andb_prop in Hacts as [Ha Hacts].
    destruct (keeps_entries_run a w id l s Ha Hget Hl)
      as (Hget' & s1 & Hl' & Hsame).
    destruct (IH (run a w) s1 Hacts Hget' Hl') as (Hget2 & s2 & Hl2 & Hsame2).
    split; [exact Hget2|]. exists s2. split; [exact Hl2|].
    by eapply same_identity_trans.
Qed.

End Entries.

(** X5: one record per stream id, between two loading passes.  Once
    [get_or_create_stream] has returned a record, then after any sequence
    of further calls of [get_or_create_stream] (for any identity, returning
    or raising) and of rounds of the auto-save task, whatever the store
    does, a call whose identity derives the same id returns the same
    object: nothing is allocated, [streams] is as before, the store is not
    called, and the record has the id, the platform and the creation time
    that it had when it was first returned, while it takes the user info of
    the new call (and its group info, if it has one).  The sequence has no
    loading pass and no new process: those rebind or forget the entry. *)
Theorem X5_same_id_same_record `{MB : MessageBase} `{Env : Environment}
    (w w1 : World) (p p' : string) (u u' : option UserInfo)
    (g g' : option GroupInfo) (stream : nat) (acts : list action)
    (Hrun : get_or_create_stream p u g w = (Ok stream, w1))
    (Hacts : forallb keeps_entries acts = true)
    (Hsame : _generate_stream_id p' u' g' = _generate_stream_id p u g) :
  let w2 := run_all acts w1 in
  ∃ s1 s2,
    heap w1 !! stream = Some s1
    ∧ heap w2 !! stream = Some s2
    ∧ get_or_create_stream p' u' g' w2
      = (Ok stream,
         mkWorld
           (<[stream := mkChatStream (stream_id s1) (platform s1) u'
                          (match g' with Some _ => g' | None => group_info s2 end)
                          (create_time s1) (clock (ticks w2)) false]> (heap w2))
           (streams w2) (chat_streams w2) (S (ticks w2)) (store_log w2)
           (logger w2)).
Proof.
  intros w2.
  destruct (get_or_create_stream_returned _ _ _ _ _ _ Hrun)
    as (id & s1 & Hid & Hget & Hs1 & _).
  destruct (keeps_entries_run_all acts w1 id stream s1 Hacts Hget Hs1)
    as (Hget2 & s2 & Hs2 & Hi1 & Hi2 & Hi3).
  fold w2 in Hget2, Hs2.
  exists s1, s2. split; [done|]. split; [done|].
  rewrite <- Hi1, <- Hi2, <- Hi3.
  apply (get_or_create_stream_hit w2 p' u' g' id stream s2); [|done|done].
  by rewrite Hsame.
Qed.

Lemma X5_same_id_same_record_witness :
  (get_or_create_stream (Env := Sample.env_down_at 3) "qq"
     (Some Sample.alice') None
     (run_all (Env := Sample.env_down_at 3)
        [GetOrCreate "qq" (Some Sample.alice) None;
         GetOrCreate "qq" (Some Sample2.bob) None;
         AutoSave]
        (run (Env := Sample.env_down_at 3)
           (GetOrCreate "qq" (Some Sample.alice) (Some Sample.group_private))
           world0))).1
  = Ok 0%nat.
Proof.
  destruct (X5_same_id_same_record (Env := Sample.env_down_at 3) world0
              (run (Env := Sample.env_down_at 3)
                 (GetOrCreate "qq" (Some Sample.alice)
                    (Some Sample.group_private)) world0)
              "qq" "qq" (Some Sample.alice)
              (Some Sample.alice') (Some Sample.group_private) None 0%nat
              [GetOrCreate "qq" (Some Sample.alice) None;
               GetOrCreate "qq" (Some Sample2.bob) None;
               AutoSave])
    as (s1 & s2 & _ & _ & Hcall).
  - vm_compute. reflexivity.
  - reflexivity.
  - vm_compute. reflexivity.
  - by rewrite Hcall.
Defined.

Lemma string_app_assoc (a b c : string) :
  (a +:+ b) +:+ c = a +:+ (b +:+ c).
Proof.
  induction a as [|x a IH]; [done|].
  change (String x ((a +:+ b) +:+ c) = String x (a +:+ (b +:+ c))).
  by rewrite IH.
Qed.

(** X6: the key is joined without escaping, so distinct identities share an
    id.  A platform [p_q] with user [c] has the id of the platform [p] with
    user [q_c]; an integer user id has the id of the string of its digits;
    and a group whose id is the string "private" has the id of the private
    stream. *)
Theorem X6_key_collisions `{MB : MessageBase} :
  (∀ (p q c : string) (u u' : UserInfo) (g : option GroupInfo),
     user_id u = PyStr c → user_id u' = PyStr (q +:+ "_" +:+ c) →
     _generate_stream_id (p +:+ "_" +:+ q) (Some u) g
     = _generate_stream_id p (Some u') g)
  ∧ (∀ (p : string) (n : Z) (u u' : UserInfo) (g : option GroupInfo),
       user_id u = PyInt n → user_id u' = PyStr (py_str (PyInt n)) →
       _generate_stream_id p (Some u) g = _generate_stream_id p (Some u') g)
  ∧ (∀ (p : string) (u : UserInfo) (gp : GroupInfo),
       group_id gp = PyStr "private" →
       _generate_stream_id p (Some u) (Some gp)
       = _generate_stream_id p (Some u) None).
Proof.
  split; [|split].
  - intros p q c u u' g Hu Hu'. unfold _generate_stream_id. simpl.
    rewrite Hu, Hu'. simpl. do 2 f_equal.
    by rewrite !string_app_assoc.
  - intros p n u u' g Hu Hu'. unfold _generate_stream_id. by rewrite Hu, Hu'.
  - intros p u gp Hg. unfold _generate_stream_id. by rewrite Hg.
Qed.

Lemma X6_key_collisions_witness :
  _generate_stream_id "wx_work" (Some (PyStr "42", "alice"%string)) None
  = _generate_stream_id "wx" (Some (PyStr "work_42", "carol"%string)) None
  ∧ _generate_stream_id "qq" (Some Sample.alice) None
    = _generate_stream_id "qq" (Some (PyStr "42", "dave"%string)) None
  ∧ _generate_stream_id "qq" (Some Sample.alice) (Some Sample.group_private)
    = _generate_stream_id "qq" (Some Sample.alice) None.
Proof.
  destruct (X6_key_collisions (MB := Sample.message_base)) as (H1 & H2 & H3).
  split; [|split].
  - exact (H1 "wx"%string "work"%string "42"%string
              (PyStr "42", "alice"%string) (PyStr "work_42", "carol"%string)
              None eq_refl eq_refl).
  - exact (H2 "qq"%string 42%Z Sample.alice (PyStr "42", "dave"%string) None
              eq_refl eq_refl).
  - exact (H3 "qq"%string Sample.alice Sample.group_private eq_refl).
Defined.

(** ** [get_or_create_stream] and the store *)
Section StoreFacts.

Context `{MB : MessageBase}.

Lemma find_unique id d c :
  store_unique c → d ∈ c → d_stream_id d = Some id →
  find (matches id) c = Some d.
Proof.
  intros Hc Hd Hid. induction c as [|x c IH]; [by apply elem_of_nil in Hd|].
  unfold store_unique in Hc. simpl in Hc. apply NoDup_cons in Hc as [Hx Hc].
  simpl. unfold matches at 1.
  apply elem_of_cons in Hd as [<-|Hd].
  - by rewrite bool_decide_eq_true_2.
  - rewrite bool_decide_eq_false_2; [by apply IH|].
    intros Hx'. apply Hx. rewrite Hx', <- Hid.
    by apply (list_elem_of_fmap_2 d_stream_id).
Qed.

Lemma find_absent id c :
  Some id ∉ map d_stream_id c → find (matches id) c = None.
Proof.
  induction c as [|x c IH]; simpl; [done|].
  rewrite not_elem_of_cons. intros [Hne Hnin].
  unfold matches at 1. rewrite bool_decide_eq_false_2 by congruence.
  by apply IH.
Qed.

Lemma upsert_absent id upd c :
  Some id ∉ map d_stream_id c → upsert id upd c = c ++ [upd].
Proof.
  induction c as [|x c IH]; simpl; [done|].
  rewrite not_elem_of_cons. intros [Hne Hnin].
  unfold matches. rewrite bool_decide_eq_false_2 by congruence.
  by rewrite IH.
Qed.

Lemma upsert_present_length id upd c :
  Some id ∈ map d_stream_id c → length (upsert id upd c) = length c.
Proof.
  induction c as [|x c IH]; simpl; [by intros ?%elem_of_nil|].
  unfold matches. destruct (bool_decide (d_stream_id x = Some id)) eqn:E.
  - done.
  - apply bool_decide_eq_false in E.
    intros [?|Hin]%elem_of_cons; [congruence|]. simpl. by rewrite IH.
Qed.

End StoreFacts.

(** X7: the store calls of one [get_or_create_stream].  A call appends to
    the list of store calls nothing, or one read of the derived id, or that
    read followed by one upsert of a document with that id; it never writes
    without having read, and never makes a third call.  Without the upsert
    the collection is left as it was, and a call that finds its stream in
    memory makes no call at all. *)
Theorem X7_store_calls_of_a_call `{MB : MessageBase} `{Env : Environment}
    (p : string) (u : option UserInfo) (g : option GroupInfo) (w : World) :
  ∃ ops,
    store_log (get_or_create_stream p u g w).2 = store_log w ++ ops
    ∧ (ops = []
       ∨ ∃ id, _generate_stream_id p u g = Ok id
               ∧ dict_get (streams w) id = None
               ∧ (ops = [FindOne id]
                  ∨ ∃ d, ops = [FindOne id; UpdateOne id d]
                         ∧ d_stream_id d = Some id))
    ∧ (length ops ≤ 1 →
       chat_streams (get_or_create_stream p u g w).2 = chat_streams w).
Proof.
  goc_split p u g w; simpl.
  - exists []. rewrite app_nil_r. split; [done|]. split; [by left|done].
  - exists []. rewrite app_nil_r. split; [done|]. split; [by left|done].
  - exists [FindOne id]. split; [done|]. split; [|done].
    right. exists id. split; [done|]. split; [done|]. by left.
  - destruct (fetched id p u g _ w) as [[s t]|e] eqn:Hf.
    + destruct (fetched_facts _ _ _ _ _ _ _ _ Hf) as (Hsid & _).
      exists [FindOne id; UpdateOne (stream_id s) (to_dict s)].
      split; [by destruct (store_down (S _))|].
      split.
      * right. exists id. split; [done|]. split; [done|]. right.
        exists (to_dict s). rewrite Hsid. split; [done|]. simpl. by rewrite Hsid.
      * simpl. lia.
    + exists [FindOne id]. split; [done|]. split; [|done].
      right. exists id. split; [done|]. split; [done|]. by left.
  - exists []. rewrite app_nil_r. split; [done|]. split; [by left|done].
Qed.

(** X8: a stored record is taken up again.  When the id is not in memory
    and the collection (one document per id) holds the dictionary of a
    record [s], the call, the store answering, builds a new object with the
    id, the platform and the creation time of [s], the user info of the
    call, the group info of the call or else that of [s], and the clock as
    activity time; it registers it, writes it over the stored document
    (the collection keeps its length) and returns it clean. *)
Theorem X8_fetch_stored_record `{MB : MessageBase} `{Env : Environment}
    `{!Lawful MB}
    (w : World) (s : ChatStream) (p : string) (u : option UserInfo)
    (g : option GroupInfo)
    (Hkey : _generate_stream_id p u g = Ok (stream_id s))
    (Hmiss : dict_get (streams w) (stream_id s) = None)
    (Hdoc : to_dict s ∈ chat_streams w)
    (Huniq : store_unique (chat_streams w))
    (Hup1 : store_down (length (store_log w)) = false)
    (Hup2 : store_down (S (length (store_log w))) = false) :
  let s' := mkChatStream (stream_id s) (platform s) u
              (match g with Some _ => g | None => group_info s end)
              (create_time s) (clock (S (ticks w))) true in
  get_or_create_stream p u g w
  = (Ok (length (heap w)),
     mkWorld (heap w ++ [s'])
             (dict_set (streams w) (stream_id s) (length (heap w)))
             (upsert (stream_id s) (to_dict s') (chat_streams w))
             (S (S (ticks w)))
             (store_log w
                ++ [FindOne (stream_id s); UpdateOne (stream_id s) (to_dict s')])
             (logger w))
  ∧ length (upsert (stream_id s) (to_dict s') (chat_streams w))
    = length (chat_streams w).
Proof.
  intros s'. split.
  - rewrite (get_or_create_stream_miss w p u g _ Hkey Hmiss Hup1).
    rewrite (find_unique (stream_id s) (to_dict s)) by done.
    unfold fetched. rewrite doc_bool_to_dict, doc_record_to_dict.
    simpl. rewrite Hup2. reflexivity.
  - apply upsert_present_length.
    by apply (list_elem_of_fmap_2 d_stream_id) in Hdoc.
Qed.

Lemma X8_fetch_stored_record_witness :
  ∃ w' s',
    get_or_create_stream (Env := Sample.env_up) "qq" (Some Sample.alice) None
      Sample.w_restarted = (Ok 0%nat, w')
    ∧ heap w' !! 0%nat = Some s'
    ∧ create_time s' = 1000%Z
    ∧ length (chat_streams w') = 1%nat.
Proof.
  destruct (X8_fetch_stored_record (Env := Sample.env_up) Sample.w_restarted
              (mkChatStream Sample.alice_id "qq" (Some Sample.alice) None
                 1000 1000 true)
              "qq" (Some Sample.alice) None) as [Hrun Hlen].
  - vm_compute. reflexivity.
  - vm_compute. reflexivity.
  - vm_compute. left.
  - vm_compute. apply NoDup_singleton.
  - reflexivity.
  - reflexivity.
  - eexists _, _. split; [exact Hrun|]. split; [reflexivity|].
    split; [reflexivity|]. exact Hlen.
Defined.

(** X9: a new identity.  When the derived id is neither in memory nor in
    the collection, the call, the store answering, creates one record whose
    creation and activity times are the same reading of the clock, appends
    it to [streams] and its dictionary to the collection, and returns it
    clean, after one read and one upsert. *)
Theorem X9_create_new_record `{MB : MessageBase} `{Env : Environment}
    (w : World) (p : string) (u : option UserInfo) (g : option GroupInfo)
    (id : string)
    (Hkey : _generate_stream_id p u g = Ok id)
    (Hmiss : dict_get (streams w) id = None)
    (Habsent : Some id ∉ map d_stream_id (chat_streams w))
    (Hup1 : store_down (length (store_log w)) = false)
    (Hup2 : store_down (S (length (store_log w))) = false) :
  let s' := mkChatStream id p u g (clock (ticks w)) (clock (ticks w)) true in
  get_or_create_stream p u g w
  = (Ok (length (heap w)),
     mkWorld (heap w ++ [s'])
             (streams w ++ [(id, length (heap w))])
             (chat_streams w ++ [to_dict s'])
             (S (ticks w))
             (store_log w ++ [FindOne id; UpdateOne id (to_dict s')])
             (logger w)).
Proof.
  intros s'.
  rewrite (get_or_create_stream_miss w p u g _ Hkey Hmiss Hup1).
  rewrite (find_absent id) by done. unfold fetched. simpl. rewrite Hup2.
  by rewrite (dict_set_absent _ _ _ Hmiss), (upsert_absent id) by done.
Qed.

Lemma X9_create_new_record_witness :
  get_or_create_stream (Env := Sample.env_up) "qq" (Some Sample.alice) None
    world0
  = (Ok 0%nat, Sample.w_alice).
Proof.
  rewrite (X9_create_new_record (Env := Sample.env_up) world0 "qq"
             (Some Sample.alice) None Sample.alice_id).
  - vm_compute. reflexivity.
  - vm_compute. reflexivity.
  - reflexivity.
  - apply not_elem_of_nil.
  - reflexivity.
  - reflexivity.
Defined.

(** ** Invariants of the process *)

(** X10: one record and one document per id.  In every reachable state the
    keys of [streams] are distinct, each entry refers to an object whose
    [stream_id] is its key, the collection has at most one document per
    [stream_id], and every document carries a [stream_id], a [platform], a
    [create_time] and a [last_active_time]. *)
Theorem X10_one_record_per_id `{MB : MessageBase} `{Env : Environment}
    (w : World) (Hreach : reachable w) :
  NoDup (dict_keys (streams w))
  ∧ (∀ id l, dict_get (streams w) id = Some l →
             ∃ s, heap w !! l = Some s ∧ stream_id s = id)
  ∧ NoDup (map d_stream_id (chat_streams w))
  ∧ (∀ d, d ∈ chat_streams w →
          is_Some (d_stream_id d) ∧ is_Some (d_platform d)
          ∧ is_Some (d_create_time d) ∧ is_Some (d_last_active_time d)).
Proof.
  destruct (reachable_consistent w Hreach) as [K R D U C].
  split; [done|]. split; [done|]. split; [done|].
  intros d Hd. destruct (D d Hd) as [s ->]. simpl.
  repeat split; by eexists.
Qed.

Lemma X10_one_record_per_id_witness :
  NoDup (dict_keys (streams Sample.w_updated))
  ∧ NoDup (map d_stream_id (chat_streams Sample.w_updated)).
Proof.
  destruct (X10_one_record_per_id (Env := Sample.env_up) Sample.w_updated
              (proj1 sample_reachable)) as (H1 & _ & H3 & _).
  split; [exact H1|exact H3].
Defined.

(** X11: a record that is not dirty is in the store as it is.  In every
    reachable state, for a record of [streams] with [saved = True], the
    document that the store gives for its id is the dictionary of the
    record. *)
Theorem X11_clean_record_is_stored `{MB : MessageBase} `{Env : Environment}
    (w : World) (id : string) (l : nat) (s : ChatStream)
    (Hreach : reachable w)
    (Hreg : dict_get (streams w) id = Some l)
    (Hs : heap w !! l = Some s)
    (Hclean : saved s = true) :
  find (matches id) (chat_streams w) = Some (to_dict s).
Proof.
  destruct (reachable_consistent w Hreach) as [K R D U C].
  destruct (R _ _ Hreg) as (s0 & Hs0 & Hid).
  assert (s0 = s) as -> by congruence.
  apply find_unique; [done|by apply (C id l s)|by rewrite <- Hid].
Qed.

Lemma X11_clean_record_is_stored_witness :
  find (matches Sample.alice_id) (chat_streams Sample.w_alice)
  = Some (to_dict (mkChatStream Sample.alice_id "qq" (Some Sample.alice) None
                     1000 1000 true)).
Proof.
  apply (X11_clean_record_is_stored (Env := Sample.env_up) Sample.w_alice
           Sample.alice_id 0%nat).
  - unfold Sample.w_alice. apply reachable_run, reachable_start.
  - reflexivity.
  - reflexivity.
  - reflexivity.
Defined.

(** ** The saving pass *)
Section SavingPass.

Context `{MB : MessageBase} `{Env : Environment}.

Lemma for_each_app_Ok {A} (l1 l2 : list A) (body : A → M unit) w w1 :
  for_each l1 body w = (Ok (), w1) →
  for_each (l1 ++ l2) body w = for_each l2 body w1.
Proof.
  revert w. induction l1 as [|x l1 IH]; intros w; simpl.
  - by intros [= <-].
  - unfold mbind, M_bind. destruct (body x w) as [[[]|e] w0]; [|discriminate].
    apply IH.
Qed.

Lemma save_loop_clean ls w :
  (∀ l, l ∈ ls → ∃ s, heap w !! l = Some s ∧ saved s = true) →
  for_each ls _save_stream w = (Ok (), w).
Proof.
  induction ls as [|l ls IH]; intros Hall; simpl; [done|].
  destruct (Hall l) as (s & Hs & Hc); [left|].
  unfold mbind, M_bind. rewrite (save_stream_clean _ _ _ Hs Hc).
  apply IH. intros l' Hl'. apply Hall. by right.
Qed.

End SavingPass.

(** X12: the saving pass brings memory and store together, and is
    idempotent.  In a reachable state, with a store that answers,
    [_save_all_streams] completes; afterwards every record of [streams] is
    clean and the store gives its dictionary under its id; and a second
    pass right after it changes nothing and calls the store not once. *)
Theorem X12_saving_pass `{MB : MessageBase} `{Env : Environment}
    (w : World)
    (Hreach : reachable w)
    (Hup : store_up_from (length (store_log w))) :
  ∃ w1,
    _save_all_streams w = (Ok (), w1)
    ∧ streams w1 = streams w
    ∧ (∀ id l, dict_get (streams w1) id = Some l →
               ∃ s, heap w1 !! l = Some s ∧ saved s = true
                    ∧ find (matches id) (chat_streams w1) = Some (to_dict s))
    ∧ _save_all_streams w1 = (Ok (), w1).
Proof.
  assert (Hc := reachable_consistent w Hreach).
  assert (Hc1 := consistent_save_all_streams w Hc).
  assert (Hvalid : ∀ l, l ∈ dict_values (streams w) → is_Some (heap w !! l)).
  { intros l Hl.
    destruct (dict_values_registered _ _ (cons_keys _ Hc) Hl) as [id Hid].
    destruct (cons_refs _ Hc _ _ Hid) as (s & Hs & _). by exists s. }
  destruct (save_loop (dict_values (streams w)) w Hup Hvalid)
    as (w1 & ops & Hrun & Hst & _ & _ & _ & Hobj & _ & _).
  assert (Hall : _save_all_streams w = (Ok (), w1)).
  { unfold _save_all_streams.
    by rewrite (bind_Ok _ _ w (dict_values (streams w)) w). }
  rewrite Hall in Hc1. simpl in Hc1.
  assert (Hclean : ∀ id l, dict_get (streams w1) id = Some l →
            ∃ s, heap w1 !! l = Some s ∧ saved s = true
                 ∧ stream_id s = id).
  { intros id l Hget. rewrite Hst in Hget.
    destruct (cons_refs _ Hc _ _ Hget) as (s & Hs & Hid).
    specialize (Hobj l s Hs).
    rewrite decide_True in Hobj.
    - exists (set_saved true s). by split.
    - apply dict_get_Some_elem in Hget.
      by apply (list_elem_of_fmap_2 snd) in Hget. }
  exists w1. split; [done|]. split; [done|]. split.
  - intros id l Hget. destruct (Hclean id l Hget) as (s & Hs & Hsv & Hid).
    exists s. split; [done|]. split; [done|].
    apply find_unique; [apply Hc1|by apply (cons_clean _ Hc1 id l s)|].
    by rewrite <- Hid.
  - unfold _save_all_streams.
    rewrite (bind_Ok _ _ w1 (dict_values (streams w1)) w1) by done.
    apply save_loop_clean. intros l Hl.
    destruct (dict_values_registered _ _ (cons_keys _ Hc1) Hl) as [id Hid].
    destruct (Hclean id l Hid) as (s & Hs & Hsv & _). by exists s.
Qed.

Lemma X12_saving_pass_witness :
  ∃ w1 s,
    _save_all_streams (Env := Sample.env_up) Sample.w_updated = (Ok (), w1)
    ∧ heap w1 !! 0%nat = Some s ∧ saved s = true
    ∧ find (matches Sample.alice_id) (chat_streams w1) = Some (to_dict s)
    ∧ _save_all_streams (Env := Sample.env_up) w1 = (Ok (), w1).
Proof.
  destruct (X12_saving_pass (Env := Sample.env_up) Sample.w_updated
              (proj1 sample_reachable)) as (w1 & Hrun & Hst & Hall & Hagain).
  - intros k _. reflexivity.
  - destruct (Hall Sample.alice_id 0%nat) as (s & Hs & Hsv & Hfind).
    + rewrite Hst. reflexivity.
    + exists w1, s. do 3 (split; [assumption|]). split; assumption.
Defined.

(** X13: one failure aborts the saving pass.  When the records that come
    before a dirty record in [streams] are clean and the store raises on
    the write of that record, [_save_all_streams] raises after this one
    call: the record stays dirty and the records after it are not tried,
    whatever the store would answer later.  The round of the auto-save task
    catches the exception, logs it and returns normally. *)
Theorem X13_saving_pass_aborts `{MB : MessageBase} `{Env : Environment}
    (w : World) (pre post : list nat) (l : nat) (s : ChatStream)
    (Hvalues : dict_values (streams w) = pre ++ l :: post)
    (Hpre : ∀ l', l' ∈ pre → ∃ s', heap w !! l' = Some s' ∧ saved s' = true)
    (Hs : heap w !! l = Some s)
    (Hdirty : saved s = false)
    (Hdown : store_down (length (store_log w)) = true) :
  let log' := store_log w ++ [UpdateOne (stream_id s) (to_dict s)] in
  _save_all_streams w
  = (Raise StoreError,
     mkWorld (heap w) (streams w) (chat_streams w) (ticks w) log' (logger w))
  ∧ _auto_save_round w
    = (Ok (),
       mkWorld (heap w) (streams w) (chat_streams w) (ticks w) log'
               (logger w ++ [LogAutoSaveFailed StoreError])).
Proof.
  intros log'.
  assert (Hall : _save_all_streams w
    = (Raise StoreError,
       mkWorld (heap w) (streams w) (chat_streams w) (ticks w) log' (logger w))).
  { unfold _save_all_streams.
    rewrite (bind_Ok _ _ w (dict_values (streams w)) w) by done.
    rewrite Hvalues.
    rewrite (for_each_app_Ok pre (l :: post) _ w w)
      by by apply save_loop_clean.
    simpl. by erewrite bind_Raise;
      [|by apply (save_stream_dirty_down w l s)]. }
  split; [exact Hall|].
  unfold _auto_save_round, try_except.
  erewrite bind_Raise; [|exact Hall]. reflexivity.
Qed.

Lemma X13_saving_pass_aborts_witness :
  _auto_save_round (Env := Sample.env_down_at 0) Sample2.w_two_dirty
  = (Ok (),
     mkWorld (heap Sample2.w_two_dirty) (streams Sample2.w_two_dirty) [] 2
       [UpdateOne "id-a"
          (to_dict (mkChatStream "id-a" "qq" (Some Sample.alice) None
                      1000 1000 false))]
       [LogAutoSaveFailed StoreError]).
Proof.
  exact (proj2 (X13_saving_pass_aborts (Env := Sample.env_down_at 0)
                  Sample2.w_two_dirty [] [1%nat] 0%nat
                  (mkChatStream "id-a" "qq" (Some Sample.alice) None
                     1000 1000 false)
                  eq_refl
                  (λ l' Hl', False_ind _ (proj1 (elem_of_nil l') Hl'))
                  eq_refl eq_refl eq_refl)).
Defined.

Section Logger.

Context `{MB : MessageBase} `{Env : Environment}.

Lemma save_stream_logger l w : logger (_save_stream l w).2 = logger w.
Proof.
  destruct (heap w !! l) as [s|] eqn:Hs.
  - destruct (saved s) eqn:Hsv.
    + by rewrite (save_stream_clean _ _ _ Hs Hsv).
    + destruct (store_down (length (store_log w))) eqn:Hst.
      * by rewrite (save_stream_dirty_down _ _ _ Hs Hsv Hst).
      * by rewrite (save_stream_dirty_up _ _ _ Hs Hsv Hst).
  - unfold _save_stream. erewrite bind_Raise; [done|].
    unfold deref. by rewrite Hs.
Qed.

Lemma save_all_streams_logger w : logger (_save_all_streams w).2 = logger w.
Proof.
  unfold _save_all_streams.
  rewrite (bind_Ok _ _ w (dict_values (streams w)) w) by done.
  apply (for_each_invariant (λ w0, logger w0 = logger w)); [|done].
  intros l w0 _ <-. apply save_stream_logger.
Qed.

Lemma load_all_streams_logger w : logger (load_all_streams w).2 = logger w.
Proof.
  destruct (store_down (length (store_log w))) eqn:Hst.
  - by rewrite (load_all_streams_down _ Hst).
  - rewrite (load_all_streams_up _ Hst).
    destruct (for_each _ _ _) as [r w'] eqn:Hrun.
    destruct (load_loop _ _ _ _ Hrun) as (_ & _ & _ & Hlg & _).
    simpl in *. by rewrite Hlg.
Qed.

Lemma save_round_logger w :
  ∃ w1, _auto_save_round w = (Ok (), w1)
        ∧ length (logger w1) = S (length (logger w)).
Proof.
  unfold _auto_save_round, try_except, mbind, M_bind.
  assert (Hlg := save_all_streams_logger w).
  destruct (_save_all_streams w) as [[[]|e] w1]; simpl in *;
    (eexists; split; [reflexivity|]; simpl;
     rewrite length_app, Hlg; simpl; lia).
Qed.

End Logger.

(** X14: the background tasks never raise.  Whatever the state and the
    store, [_initialize] returns normally and writes one entry to the log,
    and [n] turns of the loop of [_auto_save_task] return normally and write
    [n] entries: a failed round does not end the loop. *)
Theorem X14_background_tasks_never_raise
    `{MB : MessageBase} `{Env : Environment} (n : nat) (w : World) :
  (∃ w', _initialize w = (Ok (), w')
         ∧ length (logger w') = S (length (logger w)))
  ∧ (∃ w', _auto_save_task n w = (Ok (), w')
           ∧ length (logger w') = length (logger w) + n).
Proof.
  split.
  - unfold _initialize, try_except, mbind, M_bind.
    assert (Hlg := load_all_streams_logger w).
    destruct (load_all_streams w) as [[[]|e] w1]; simpl in *;
      (eexists; split; [reflexivity|]; simpl;
       rewrite length_app, Hlg; simpl; lia).
  - revert w. induction n as [|n IH]; intros w.
    + exists w. split; [done|lia].
    + simpl. unfold mbind, M_bind.
      destruct (save_round_logger w) as (w1 & Hrun & Hlg). rewrite Hrun.
      destruct (IH w1) as (w' & Hrest & Hlg'). exists w'.
      split; [done|]. rewrite Hlg', Hlg. lia.
Qed.

(** ** The loading pass, document by document *)
Section LoadingPass.

Context `{MB : MessageBase} `{Env : Environment}.

Lemma not_loadable_raises d now :
  loadable d = false → ∃ e, doc_record d now = Raise e.
Proof.
  intros Hd. destruct (doc_record d now) as [s|e] eqn:Hrec; [|by exists e].
  destruct (doc_record_now d now 0 s Hrec) as [s' Hs'].
  unfold loadable in Hd. by rewrite Hs' in Hd.
Qed.

End LoadingPass.

(** X15: the loading pass stops at the first document that [from_dict]
    refuses.  The documents before it are loaded and registered, the
    documents after it are not looked at (an id that occurs only there keeps
    the entry it had, or none), and [load_all_streams] raises the exception
    of [from_dict]; [_initialize] logs it and returns normally, keeping what
    was loaded. *)
Theorem X15_loading_stops_at_bad_document
    `{MB : MessageBase} `{Env : Environment}
    (w : World) (good rest : list Doc) (bad : Doc)
    (Hdocs : chat_streams w = good ++ bad :: rest)
    (Hgood : forallb loadable good = true)
    (Hbad : loadable bad = false)
    (Hup : store_down (length (store_log w)) = false) :
  ∃ e w',
    load_all_streams w = (Raise e, w')
    ∧ (∀ id, Some id ∈ map d_stream_id good →
             ∃ stream s, dict_get (streams w') id = Some stream
                         ∧ heap w' !! stream = Some s ∧ stream_id s = id)
    ∧ (∀ id, Some id ∉ map d_stream_id good →
             dict_get (streams w') id = dict_get (streams w) id)
    ∧ _initialize w
      = (Ok (),
         mkWorld (heap w') (streams w') (chat_streams w') (ticks w')
                 (store_log w') (logger w' ++ [LogLoadFailed e])).
Proof.
  rewrite (load_all_streams_up _ Hup), Hdocs.
  set (w0 := mkWorld _ _ _ _ _ _).
  destruct (load_loop_total good w0 Hgood) as [w1 Hrun].
  destruct (load_loop _ _ _ _ Hrun) as (_ & _ & _ & _ & Hout & Hin).
  destruct (not_loadable_raises bad (clock (ticks w1)) Hbad) as [e He].
  assert (Hall : for_each (good ++ bad :: rest) load_body w0 = (Raise e, w1)).
  { rewrite (for_each_app_Ok good (bad :: rest) _ w0 w1 Hrun). simpl.
    erewrite bind_Raise; [done|]. by rewrite load_body_run, He. }
  exists e, w1. split; [exact Hall|]. split; [|split].
  - intros id Hid. destruct (Hin eq_refl id Hid) as (stream & s & ? & _ & ? & ?).
    by exists stream, s.
  - intros id Hid. by rewrite (Hout id Hid).
  - unfold _initialize, try_except.
    erewrite bind_Raise; [reflexivity|].
    by rewrite (load_all_streams_up _ Hup), Hdocs.
Qed.

Lemma X15_loading_stops_at_bad_document_witness :
  ∃ w',
    load_all_streams (Env := Sample.env_up) Sample2.w_bad_middle
    = (Raise (KeyError "stream_id"), w')
    ∧ is_Some (dict_get (streams w') Sample.alice_id)
    ∧ dict_get (streams w') "id-b" = None.
Proof.
  destruct (X15_loading_stops_at_bad_document (Env := Sample.env_up)
              Sample2.w_bad_middle [Sample2.doc_alice] [Sample2.doc_bob]
              Sample2.headless_doc eq_refl eq_refl eq_refl eq_refl)
    as (e & w' & Hrun & Hin & Hout & _).
  exists w'. split; [|split].
  - rewrite Hrun. f_equal.
    assert (H : (load_all_streams (Env := Sample.env_up)
                   Sample2.w_bad_middle).1 = Raise (KeyError "stream_id"))
      by (vm_compute; reflexivity).
    rewrite Hrun in H. exact H.
  - destruct (Hin Sample.alice_id) as (stream & s & Hget & _).
    + vm_compute. left.
    + rewrite Hget. by eexists.
  - rewrite Hout; [reflexivity|].
    vm_compute. intros H. apply list_elem_of_singleton in H. discriminate H.
Defined.

(** X16: among documents with the same id the last one wins.  When the
    pass completes, the record registered for an id is the one built from
    the last document of the collection that has this id. *)
Theorem X16_last_document_wins `{MB : MessageBase} `{Env : Environment}
    (w : World) (pre post : list Doc) (d : Doc) (id : string)
    (Hdocs : chat_streams w = pre ++ d :: post)
    (Hid : d_stream_id d = Some id)
    (Hlast : Some id ∉ map d_stream_id post)
    (Hload : forallb loadable (chat_streams w) = true)
    (Hup : store_down (length (store_log w)) = false) :
  ∃ w' stream s now,
    load_all_streams w = (Ok (), w')
    ∧ dict_get (streams w') id = Some stream
    ∧ heap w' !! stream = Some s
    ∧ doc_record d now = Ok s.
Proof.
  rewrite (load_all_streams_up _ Hup). rewrite Hdocs in *.
  set (w0 := mkWorld _ _ _ _ _ _).
  rewrite forallb_app in Hload. apply andb_prop in Hload as [Hpre Hrest].
  simpl in Hrest. apply andb_prop in Hrest as [Hd Hpost].
  destruct (load_loop_total pre w0 Hpre) as [w1 Hrun1].
  destruct (loadable_record d (clock (ticks w1)) Hd) as [s Hrec].
  set (w2 := mkWorld (heap w1 ++ [s])
               (dict_set (streams w1) (stream_id s) (length (heap w1)))
               (chat_streams w1) (S (ticks w1)) (store_log w1) (logger w1)).
  destruct (load_loop_total post w2 Hpost) as [w3 Hrun3].
  destruct (load_loop _ _ _ _ Hrun3) as ([new [Hheap _]] & _ & _ & _ & Hout & _).
  assert (Hsid : stream_id s = id).
  { apply doc_record_fields in Hrec as (Hs & _). congruence. }
  exists w3, (length (heap w1)), s, (clock (ticks w1)).
  split; [|split; [|split; [|done]]].
  - rewrite (for_each_app_Ok pre (d :: post) _ w0 w1 Hrun1). simpl.
    erewrite bind_Ok; [exact Hrun3|]. by rewrite load_body_run, Hrec.
  - rewrite (Hout id Hlast). simpl. rewrite Hsid. apply dict_get_set_eq.
  - rewrite Hheap. simpl. rewrite <- app_assoc. by apply list_lookup_middle.
Qed.

Lemma X16_last_document_wins_witness :
  ∃ w' stream s,
    load_all_streams (Env := Sample.env_up) Sample2.w_duplicates = (Ok (), w')
    ∧ dict_get (streams w') Sample.alice_id = Some stream
    ∧ heap w' !! stream = Some s
    ∧ user_info s = Some Sample.alice'.
Proof.
  destruct (X16_last_document_wins (Env := Sample.env_up)
              Sample2.w_duplicates [Sample2.doc_alice] [] Sample2.doc_alice'
              Sample.alice_id eq_refl eq_refl)
    as (w' & stream & s & now & Hrun & Hget & Hs & Hrec).
  - apply not_elem_of_nil.
  - reflexivity.
  - reflexivity.
  - exists w', stream, s. do 3 (split; [assumption|]).
    vm_compute in Hrec. by injection Hrec as <-.
Defined.



(** ** [_ensure_collection] *)
Section Catalogue.

Context `{Env : Environment}.

Lemma dict_keys_elem_get {V} (d : list (string * V)) k :
  k ∈ dict_keys d → ∃ v, dict_get d k = Some v.
Proof.
  intros Hk. destruct (dict_get d k) as [v|] eqn:E; [by exists v|].
  by apply dict_get_None_keys in E.
Qed.



Lemma cm_bind_Ok {A B} (m : CM A) (f : A → CM B) c a c' :
  m c = (Ok a, c') → (m ≫= f) c = f a c'.
Proof. intros H. unfold mbind, CM_bind. by rewrite H. Qed.

Lemma cm_bind_Raise {A B} (m : CM A) (f : A → CM B) c e c' :
  m c = (Raise e, c') → (m ≫= f) c = (Raise e, c').
Proof. intros H. unfold mbind, CM_bind. by rewrite H. Qed.

Lemma driver_call_up {A} (run : _ → result A * _) c :
  store_down (driver_calls c) = false →
  driver_call run c
  = ((run (collections c)).1,
     mkCatalog (run (collections c)).2 (S (driver_calls c))).
Proof.
  intros H. unfold driver_call. rewrite H. by destruct (run (collections c)).
Qed.

Lemma driver_call_down {A} (run : _ → result A * _) c :
  store_down (driver_calls c) = true →
  driver_call run c
  = (Raise StoreError, mkCatalog (collections c) (S (driver_calls c))).
Proof. intros H. unfold driver_call. by rewrite H. Qed.

Lemma list_collection_names_up c :
  store_down (driver_calls c) = false →
  list_collection_names c
  = (Ok (dict_keys (collections c)),
     mkCatalog (collections c) (S (driver_calls c))).
Proof. intros H. unfold list_collection_names. by rewrite driver_call_up. Qed.

Lemma create_collection_up name c :
  store_down (driver_calls c) = false →
  dict_get (collections c) name = None →
  create_collection name c
  = (Ok (), mkCatalog (dict_set (collections c) name []) (S (driver_calls c))).
Proof.
  intros H Hn. unfold create_collection. rewrite driver_call_up by done.
  by rewrite Hn.
Qed.


Lemma create_index_down name keys unique c :
  store_down (driver_calls c) = true →
  create_index name keys unique c
  = (Raise StoreError, mkCatalog (collections c) (S (driver_calls c))).
Proof. intros H. unfold create_index. by rewrite driver_call_down. Qed.

(** When the collection is there, nothing is created. *)
Lemma ensure_collection_present c :
  "chat_streams"%string ∈ dict_keys (collections c) →
  store_down (driver_calls c) = false →
  _ensure_collection c
  = (Ok (), mkCatalog (collections c) (S (driver_calls c))).
Proof.
  intros Hin Hup. unfold _ensure_collection.
  erewrite cm_bind_Ok; [|by apply list_collection_names_up].
  by rewrite bool_decide_eq_true_2.
Qed.

End Catalogue.



(** X19: a failure between the creation of the collection and that of its
    indexes is never repaired.  When the driver raises on the first
    [create_index], [_ensure_collection] raises and leaves [chat_streams]
    without index; and on any database where the collection exists, with
    or without its indexes, a later run creates nothing, so the unique
    index on [stream_id] stays missing. *)
Theorem X19_missing_index_is_not_repaired `{Env : Environment}
    (c : Catalog)
    (Habsent : "chat_streams"%string ∉ dict_keys (collections c))
    (Hup0 : store_down (driver_calls c) = false)
    (Hup1 : store_down (S (driver_calls c)) = false)
    (Hdown : store_down (S (S (driver_calls c))) = true) :
  let bare := collections c ++ [("chat_streams"%string, [])] in
  _ensure_collection c
  = (Raise StoreError, mkCatalog bare (S (S (S (driver_calls c)))))
  ∧ ∀ c2, collections c2 = bare → store_down (driver_calls c2) = false →
          _ensure_collection c2
          = (Ok (), mkCatalog bare (S (driver_calls c2))).
Proof.
  intros bare.
  assert (Hnone : dict_get (collections c) "chat_streams" = None)
    by by apply dict_get_None_keys.
  split.
  - unfold _ensure_collection.
    erewrite cm_bind_Ok; [|by apply list_collection_names_up].
    rewrite bool_decide_eq_false_2 by done.
    erewrite cm_bind_Ok; [|by apply create_collection_up].
    rewrite (dict_set_absent _ _ _ Hnone).
    erewrite cm_bind_Raise; [|by apply create_index_down]. reflexivity.
  - intros c2 Hc2 Hup2. rewrite <- Hc2.
    apply ensure_collection_present; [|done].
    rewrite Hc2. unfold bare, dict_keys. rewrite map_app. simpl.
    apply elem_of_app. right. left.
Qed.

Lemma X19_missing_index_is_not_repaired_witness :
  _ensure_collection (Env := Sample.env_down_at 2) Sample2.cat_empty
  = (Raise StoreError, mkCatalog [("chat_streams"%string, [])] 3)
  ∧ _ensure_collection (Env := Sample.env_down_at 2) Sample2.cat_bare
    = (Ok (), mkCatalog [("chat_streams"%string, [])] 1).
Proof.
  destruct (X19_missing_index_is_not_repaired (Env := Sample.env_down_at 2)
              Sample2.cat_empty) as [H1 H2].
  - apply not_elem_of_nil.
  - reflexivity.
  - reflexivity.
  - reflexivity.
  - split; [exact H1|]. exact (H2 Sample2.cat_bare eq_refl eq_refl).
Defined.

(** ** A call that fails *)

(** X20: a call of [get_or_create_stream] that raises has altered no
    existing record, no entry of [streams] and no document: the objects that
    existed are as they were, every entry still refers to the same object,
    and the collection is unchanged.  With no user info at all, the call
    raises [AttributeError] before anything else and leaves the whole state
    as it was, without a call to the store. *)
Theorem X20_failed_call_alters_nothing `{MB : MessageBase} `{Env : Environment}
    (w w' : World) (p : string) (u : option UserInfo) (g : option GroupInfo)
    (e : exn)
    (Hrun : get_or_create_stream p u g w = (Raise e, w')) :
  chat_streams w' = chat_streams w
  ∧ (∀ l s, heap w !! l = Some s → heap w' !! l = Some s)
  ∧ (∀ id l, dict_get (streams w) id = Some l →
             dict_get (streams w') id = Some l)
  ∧ (u = None → e = AttributeError ∧ w' = w).
Proof.
  revert Hrun. goc_split p u g w; try discriminate.
  - intros [= <- <-]. do 3 (split; [done|]).
    intros ->. discriminate Hid.
  - intros [= <- <-]. do 3 (split; [done|]).
    intros ->. discriminate Hid.
  - destruct (fetched id p u g _ w) as [[s t]|e'] eqn:Hf.
    + simpl. destruct (store_down (S _)); [|discriminate].
      intros [= <- <-]. simpl. split; [done|]. split; [|split].
      * intros l s0 Hl. by apply lookup_app_l_Some.
      * intros id' l Hget. rewrite dict_get_set_ne; [done|]. congruence.
      * intros ->. discriminate Hid.
    + intros [= <- <-]. do 3 (split; [done|]).
      intros ->. discriminate Hid.
  - intros [= <- <-]. do 3 (split; [done|]).
    intros ->. simpl in Hid. by injection Hid as <-.
Qed.

Lemma X20_failed_call_alters_nothing_witness :
  get_or_create_stream (Env := Sample.env_up) "qq" None None Sample.w_alice
  = (Raise AttributeError, Sample.w_alice).
Proof.
  assert (Hrun : get_or_create_stream (Env := Sample.env_up) "qq" None None
                   Sample.w_alice
                 = (Raise AttributeError,
                    (get_or_create_stream (Env := Sample.env_up) "qq" None
                       None Sample.w_alice).2))
    by reflexivity.
  destruct (X20_failed_call_alters_nothing (Env := Sample.env_up) _ _ _ _ _ _
              Hrun) as (_ & _ & _ & H).
  destruct (H eq_refl) as [_ Hw]. rewrite Hrun at 1. by rewrite Hw.
Defined.

(** ** A new process on the store of the previous one *)
Section Hydration.

Context `{MB : MessageBase} `{Env : Environment}.

(** The keys that the loop of the loading pass appends. *)
Lemma load_loop_keys docs w w' :
  NoDup (map d_stream_id docs) →
  (∀ id, Some id ∈ map d_stream_id docs → id ∉ dict_keys (streams w)) →
  for_each docs load_body w = (Ok (), w') →
  map Some (dict_keys (streams w'))
  = map Some (dict_keys (streams w)) ++ map d_stream_id docs.
Proof.
  revert w. induction docs as [|d docs IH]; intros w Hnd Hfresh; simpl.
  - intros [= <-]. by rewrite app_nil_r.
  - apply NoDup_cons in Hnd as [Hd Hnd].
    unfold mbind, M_bind. rewrite load_body_run.
    destruct (doc_record d (clock (ticks w))) as [s|e] eqn:Hrec;
      [|discriminate].
    destruct (doc_record_fields _ _ _ Hrec) as (Hsid & _).
    intros Hrest. apply IH in Hrest; [|done|].
    + rewrite Hrest. simpl.
      rewrite dict_keys_set_absent.
      * by rewrite map_app, <- app_assoc, Hsid.
      * apply Hfresh. simpl. rewrite Hsid. left.
    + intros id Hid. simpl.
      rewrite dict_keys_set_absent
        by (apply Hfresh; simpl; rewrite Hsid; left).
      rewrite not_elem_of_app. split.
      * apply Hfresh. simpl. by right.
      * intros ->%list_elem_of_singleton. apply Hd. by rewrite Hsid.
Qed.

End Hydration.

(** X21: the loading pass rebuilds memory from the store.  Take the store
    that a run of the process has left, collaborators that serialise
    faithfully, and a store that answers.  In a new process
    [load_all_streams] completes; [streams] then has exactly the ids of the
    collection, in its order; the record registered for each document
    serialises to that document; and [_initialize] logs the number of
    documents. *)
Theorem X21_loading_rebuilds_memory `{MB : MessageBase} `{Env : Environment}
    `{!Lawful MB}
    (w : World)
    (Hreach : reachable w)
    (Hup : store_down (length (store_log w)) = false) :
  ∃ w',
    load_all_streams (startup w) = (Ok (), w')
    ∧ map Some (dict_keys (streams w')) = map d_stream_id (chat_streams w)
    ∧ (∀ d, d ∈ chat_streams w →
            ∃ id, d_stream_id d = Some id ∧ registered_doc w' id = Some d)
    ∧ _initialize (startup w)
      = (Ok (),
         mkWorld (heap w') (streams w') (chat_streams w') (ticks w')
                 (store_log w')
                 (logger w' ++ [LogLoaded (length (chat_streams w))])).
Proof.
  assert (Hc := reachable_consistent w Hreach).
  assert (Hload : forallb loadable (chat_streams w) = true)
    by apply docs_written_loadable, Hc.
  assert (Hup0 : store_down (length (store_log (startup w))) = false) by done.
  rewrite (load_all_streams_up _ Hup0).
  set (w0 := mkWorld _ _ _ _ _ _).
  destruct (load_loop_total (chat_streams (startup w)) w0 Hload) as [w' Hrun].
  destruct (load_loop _ _ _ _ Hrun)
    as ([new [Hheap Hnew]] & Hcs & Hlog & Hlg & _ & Hin).
  assert (Hkeys : map Some (dict_keys (streams w'))
                  = map d_stream_id (chat_streams w)).
  { rewrite (load_loop_keys (chat_streams w) w0 w' (cons_unique _ Hc));
      [reflexivity| |exact Hrun].
    intros id _. apply not_elem_of_nil. }
  exists w'. split; [exact Hrun|]. split; [exact Hkeys|]. split.
  - intros d Hd. destruct (cons_docs _ Hc d Hd) as [s0 ->].
    exists (stream_id s0). split; [done|].
    destruct (Hin eq_refl (stream_id s0)) as (stream & s & Hget & Hge & Hs & Hsid).
    { by apply (list_elem_of_fmap_2 d_stream_id) in Hd. }
    simpl in Hheap, Hge.
    assert (Hs' : new !! stream = Some s) by by rewrite Hheap in Hs.
    apply list_elem_of_lookup_2 in Hs'.
    rewrite Forall_forall in Hnew.
    destruct (Hnew s Hs') as (d' & now & Hd' & Hrec).
    assert (d' = to_dict s0) as ->.
    { apply (unique_doc (chat_streams w)); [apply Hc|done|done|].
      apply doc_record_fields in Hrec as (-> & _). simpl. congruence. }
    rewrite doc_record_to_dict in Hrec. injection Hrec as <-.
    unfold registered_doc. by rewrite Hget, Hs.
  - unfold _initialize, try_except, mbind, M_bind.
    rewrite (load_all_streams_up _ Hup0). fold w0. rewrite Hrun.
    assert (Hlen : length (streams w') = length (chat_streams w)).
    { apply (f_equal length) in Hkeys. unfold dict_keys in Hkeys.
      by rewrite !length_map in Hkeys. }
    unfold log, modify, set_logger, gets. simpl. by rewrite Hlen.
Qed.

Lemma X21_loading_rebuilds_memory_witness :
  ∃ w',
    load_all_streams (Env := Sample.env_up) (startup Sample.w_updated)
    = (Ok (), w')
    ∧ dict_keys (streams w') = [Sample.alice_id]
    ∧ registered_doc w' Sample.alice_id = Some Sample2.doc_alice.
Proof.
  destruct (X21_loading_rebuilds_memory (Env := Sample.env_up)
              Sample.w_updated (proj1 sample_reachable) eq_refl)
    as (w' & Hrun & Hkeys & Hdocs & _).
  exists w'. split; [exact Hrun|]. split.
  - assert (Hk : map Some (dict_keys (streams w')) = [Some Sample.alice_id])
      by (rewrite Hkeys; vm_compute; reflexivity).
    destruct (dict_keys (streams w')) as [|k [|k' ks]]; try discriminate Hk.
    by injection Hk as ->.
  - destruct (Hdocs Sample2.doc_alice) as (id & Hid & Hreg).
    + vm_compute. left.
    + vm_compute in Hid. by injection Hid as <-.
Defined.

Section FlushAfterLoad.

Context `{MB : MessageBase} `{Env : Environment}.

Lemma dict_values_set {V} (d : list (string * V)) k v x :
  x ∈ dict_values (dict_set d k v) → x = v ∨ x ∈ dict_values d.
Proof.
  induction d as [|[k0 v0] d IH]; simpl.
  - intros ->%list_elem_of_singleton. by left.
  - destruct (decide (k0 = k)); simpl.
    + intros [->|Hx]%elem_of_cons; [by left|]. right. by right.
    + intros [->|Hx]%elem_of_cons; [right; left|].
      destruct (IH Hx) as [?|?]; [by left|]. right. by right.
Qed.

Lemma dict_values_set_NoDup {V} (d : list (string * V)) k v :
  NoDup (dict_values d) → v ∉ dict_values d →
  NoDup (dict_values (dict_set d k v)).
Proof.
  induction d as [|[k0 v0] d IH]; simpl.
  - intros _ _. apply NoDup_singleton.
  - rewrite NoDup_cons, not_elem_of_cons. intros [Hv0 Hnd] [Hne Hnin].
    destruct (decide (k0 = k)); simpl; apply NoDup_cons.
    + done.
    + split; [|by apply IH].
      intros [->|Hx]%dict_values_set; done.
Qed.

(** The loop of the loading pass registers objects that are new, each
    under one key. *)
Lemma load_loop_values docs w r w' :
  NoDup (dict_values (streams w)) →
  (∀ l, l ∈ dict_values (streams w) → l < length (heap w)) →
  for_each docs load_body w = (r, w') →
  NoDup (dict_values (streams w'))
  ∧ (∀ l, l ∈ dict_values (streams w') → l < length (heap w')).
Proof.
  revert w. induction docs as [|d docs IH]; intros w Hnd Hlt; simpl.
  - by intros [= _ <-].
  - unfold mbind, M_bind. rewrite load_body_run.
    destruct (doc_record d (clock (ticks w))) as [s|e]; [|by intros [= _ <-]].
    apply IH; simpl.
    + apply dict_values_set_NoDup; [done|].
      intros Hin. apply Hlt in Hin. lia.
    + intros l [->|Hl]%dict_values_set; rewrite length_app; simpl; [lia|].
      apply Hlt in Hl. lia.
Qed.

Lemma for_each_log_prefix ls w w' r :
  for_each ls _save_stream w = (r, w') →
  ∃ ops, store_log w' = store_log w ++ ops.
Proof.
  revert w. induction ls as [|l ls IH]; intros w; simpl.
  - intros [= _ <-]. exists []. by rewrite app_nil_r.
  - unfold mbind, M_bind.
    assert (Hstep : ∃ ops, store_log (_save_stream l w).2 = store_log w ++ ops).
    { destruct (heap w !! l) as [s|] eqn:Hs.
      - destruct (saved s) eqn:Hsv.
        + rewrite (save_stream_clean _ _ _ Hs Hsv). exists [].
          by rewrite app_nil_r.
        + destruct (store_down (length (store_log w))) eqn:Hst.
          * rewrite (save_stream_dirty_down _ _ _ Hs Hsv Hst). by eexists.
          * rewrite (save_stream_dirty_up _ _ _ Hs Hsv Hst). by eexists.
      - unfold _save_stream. erewrite bind_Raise.
        + exists []. by rewrite app_nil_r.
        + unfold deref. by rewrite Hs. }
    destruct (_save_stream l w) as [[[]|e] w1]; simpl in Hstep.
    + intros Hrest. destruct (IH _ Hrest) as [ops' ->].
      destruct Hstep as [ops ->]. exists (ops ++ ops'). by rewrite app_assoc.
    + intros [= _ <-]. exact Hstep.
Qed.

(** Saving distinct dirty records whose dictionaries are already stored:
    one upsert each, and the collection is as before. *)
Lemma save_loop_redundant ls w :
  NoDup ls →
  store_up_from (length (store_log w)) →
  store_unique (chat_streams w) →
  (∀ l, l ∈ ls → ∃ s, heap w !! l = Some s ∧ saved s = false
                      ∧ to_dict s ∈ chat_streams w) →
  ∃ w', for_each ls _save_stream w = (Ok (), w')
        ∧ chat_streams w' = chat_streams w
        ∧ length (store_log w') = length (store_log w) + length ls
        ∧ Forall (λ op, is_write op = true) (issued w w').
Proof.
  revert w. induction ls as [|l ls IH]; intros w Hnd Hup Hu Hall; simpl.
  - exists w. split; [done|]. split; [done|]. split; [lia|].
    unfold issued. by rewrite drop_all.
  - apply NoDup_cons in Hnd as [Hl Hnd].
    destruct (Hall l) as (s & Hs & Hd & Hin); [left|].
    assert (Hrun := save_stream_dirty_up w l s Hs Hd (Hup _ (le_n _))).
    rewrite (upsert_same (stream_id s) (to_dict s)) in Hrun by done.
    set (w1 := mkWorld _ _ _ _ _ _) in Hrun.
    destruct (IH w1) as (w' & Hrest & Hcs & Hlen & Hops); [done| |done| |].
    { intros k Hk. apply Hup. simpl in Hk. rewrite length_app in Hk. lia. }
    { intros l' Hl'. destruct (Hall l') as (s' & Hs' & Hd' & Hin'); [by right|].
      exists s'. simpl. rewrite list_lookup_insert_ne; [done|].
      intros ->. done. }
    exists w'. unfold mbind, M_bind. rewrite Hrun.
    split; [done|]. split; [done|]. split.
    + rewrite Hlen. simpl. rewrite length_app. simpl. lia.
    + unfold issued in *. simpl in Hops.
      assert (Hlog : ∃ ops, store_log w' = store_log w1 ++ ops).
      { exists (drop (length (store_log w1)) (store_log w')).
        rewrite <- (take_drop (length (store_log w1)) (store_log w')) at 1.
        f_equal.
        assert (Hpre := for_each_log_prefix ls w1 w' (Ok ()) Hrest).
        destruct Hpre as [ops' ->]. by rewrite take_app_length. }
      destruct Hlog as [ops Hlog]. rewrite Hlog in *. simpl in *.
      rewrite <- app_assoc. rewrite drop_app_length.
      rewrite drop_app_length in Hops. by constructor.
Qed.

End FlushAfterLoad.

(** X22: the first saving pass of a new process is pure overhead.  After
    the loading pass on the store that a run of the process has left (the
    collaborators serialising faithfully, the store answering), the next
    saving pass issues exactly one upsert per document of the collection and
    leaves the collection exactly as it was. *)
Theorem X22_saving_after_loading_is_redundant
    `{MB : MessageBase} `{Env : Environment} `{!Lawful MB}
    (w : World)
    (Hreach : reachable w)
    (Hup : store_up_from (length (store_log w))) :
  ∃ w1 w2,
    load_all_streams (startup w) = (Ok (), w1)
    ∧ _save_all_streams w1 = (Ok (), w2)
    ∧ chat_streams w2 = chat_streams w
    ∧ length (issued w1 w2) = length (chat_streams w)
    ∧ Forall (λ op, is_write op = true) (issued w1 w2).
Proof.
  assert (Hc := reachable_consistent w Hreach).
  assert (Hload : forallb loadable (chat_streams w) = true)
    by apply docs_written_loadable, Hc.
  assert (Hup0 : store_down (length (store_log (startup w))) = false)
    by apply Hup, le_n.
  rewrite (load_all_streams_up _ Hup0).
  set (w0 := mkWorld _ _ _ _ _ _).
  destruct (load_loop_total (chat_streams (startup w)) w0 Hload) as [w1 Hrun].
  destruct (load_loop _ _ _ _ Hrun)
    as ([new [Hheap Hnew]] & Hcs & Hlog & _ & _ & _).
  simpl in Hheap, Hcs, Hlog.
  assert (Hkeys := load_loop_keys (chat_streams w) w0 w1 (cons_unique _ Hc)
                     ltac:(intros id _; apply not_elem_of_nil) Hrun).
  assert (Hlen : length (dict_values (streams w1)) = length (chat_streams w)).
  { apply (f_equal length) in Hkeys. unfold dict_keys in Hkeys. simpl in Hkeys.
    unfold dict_values. by rewrite !length_map in *. }
  destruct (load_loop_values _ _ _ _ (NoDup_nil_2 : NoDup (dict_values (streams w0)))
              ltac:(by intros l ?%elem_of_nil) Hrun) as [Hnd Hlt].
  destruct (save_loop_redundant (dict_values (streams w1)) w1 Hnd)
    as (w2 & Hsave & Hcs2 & Hlen2 & Hops).
  { intros k Hk. apply Hup. rewrite Hlog, length_app in Hk. simpl in Hk. lia. }
  { rewrite Hcs. apply Hc. }
  { intros l Hl. apply Hlt in Hl. apply lookup_lt_is_Some in Hl as [s Hs].
    exists s. split; [done|].
    assert (Hs' : s ∈ new)
      by (rewrite Hheap in Hs; by apply list_elem_of_lookup_2 in Hs).
    rewrite Forall_forall in Hnew.
    destruct (Hnew s Hs') as (d & now & Hd & Hrec).
    destruct (cons_docs _ Hc d Hd) as [s0 ->].
    rewrite doc_record_to_dict in Hrec. injection Hrec as <-.
    split; [done|]. by rewrite Hcs. }
  exists w1, w2. split; [done|]. split.
  { unfold _save_all_streams.
    by rewrite (bind_Ok _ _ w1 (dict_values (streams w1)) w1). }
  split; [by rewrite Hcs2, Hcs|]. split; [|done].
  unfold issued. rewrite length_drop, Hlen2, Hlen. lia.
Qed.

Lemma X22_saving_after_loading_is_redundant_witness :
  ∃ w1 w2,
    load_all_streams (Env := Sample.env_up) (startup Sample.w_updated)
    = (Ok (), w1)
    ∧ _save_all_streams (Env := Sample.env_up) w1 = (Ok (), w2)
    ∧ chat_streams w2 = [Sample2.doc_alice]
    ∧ length (issued w1 w2) = 1%nat.
Proof.
  destruct (X22_saving_after_loading_is_redundant (Env := Sample.env_up)
              Sample.w_updated (proj1 sample_reachable))
    as (w1 & w2 & H1 & H2 & H3 & H4 & _).
  - intros k _. reflexivity.
  - exists w1, w2. split; [exact H1|]. split; [exact H2|]. split.
    + rewrite H3. vm_compute. reflexivity.
    + rewrite H4. vm_compute. reflexivity.
Defined.

(** ** The store is never ahead of memory *)
Section Behind.

Context `{MB : MessageBase} `{Env : Environment}.

Hypothesis clock_mono : clock_monotone.

Lemma former_state_to_dict s b : former_state (to_dict s) (set_saved b s).
Proof. split; [done|]. split; [done|]. exists (last_active_time s). by split. Qed.

Lemma behind_same w w' :
  heap w' = heap w → streams w' = streams w →
  chat_streams w' = chat_streams w →
  store_behind w → store_behind w'.
Proof. intros Hh Hs Hc H id l s d. rewrite Hh, Hs, Hc. apply H. Qed.

Lemma behind_touch w w' l s s' :
  heap w !! l = Some s →
  heap w' = <[l := s']> (heap w) →
  platform s' = platform s → create_time s' = create_time s →
  (last_active_time s ≤ last_active_time s')%Z →
  streams w' = streams w → chat_streams w' = chat_streams w →
  store_behind w → store_behind w'.
Proof.
  intros Hl Hh Hp Hct Hlat Hs Hc H id l0 s0 d. rewrite Hh, Hs, Hc.
  destruct (decide (l0 = l)) as [->|Hne].
  - rewrite list_lookup_insert_eq by by eapply lookup_lt_Some.
    intros Hget [= <-] Hd Hid.
    destruct (H id l s d Hget Hl Hd Hid) as (H1 & H2 & lat & H3 & H4).
    split; [congruence|]. split; [congruence|]. exists lat. split; [done|lia].
  - rewrite list_lookup_insert_ne by done. apply H.
Qed.

Lemma behind_alloc w w' s :
  refs_ok w →
  heap w' = heap w ++ [s] →
  streams w' = dict_set (streams w) (stream_id s) (length (heap w)) →
  chat_streams w' = chat_streams w →
  (∀ d, d ∈ chat_streams w → d_stream_id d = Some (stream_id s) →
        former_state d s) →
  store_behind w → store_behind w'.
Proof.
  intros R Hh Hs Hc Hnew H id l s0 d. rewrite Hh, Hs, Hc, dict_get_set.
  destruct (decide (stream_id s = id)) as [<-|Hne].
  - intros [= <-]. rewrite list_lookup_middle by done. intros [= <-].
    apply Hnew.
  - intros Hget. destruct (R _ _ Hget) as (s1 & Hs1 & _).
    rewrite (lookup_app_l_Some _ _ _ _ Hs1). intros [= <-]. by apply (H id l).
Qed.

Lemma behind_save w w' l s :
  refs_ok w →
  heap w !! l = Some s →
  dict_get (streams w) (stream_id s) = Some l →
  heap w' = <[l := set_saved true s]> (heap w) →
  streams w' = streams w →
  chat_streams w' = upsert (stream_id s) (to_dict s) (chat_streams w) →
  store_behind w → store_behind w'.
Proof.
  intros R Hl Hreg Hh Hs Hc H id l0 s0 d. rewrite Hh, Hs, Hc.
  intros Hget Hs0 [->|Hd]%elem_of_upsert Hid.
  - simpl in Hid. injection Hid as <-.
    assert (l0 = l) as -> by congruence.
    rewrite list_lookup_insert_eq in Hs0 by by eapply lookup_lt_Some.
    injection Hs0 as <-. apply former_state_to_dict.
  - destruct (decide (l0 = l)) as [->|Hne].
    + rewrite list_lookup_insert_eq in Hs0 by by eapply lookup_lt_Some.
      injection Hs0 as <-. by apply (H id l s d).
    + rewrite list_lookup_insert_ne in Hs0 by done. by apply (H id l0).
Qed.

Lemma behind_save_stream w l s :
  refs_ok w →
  heap w !! l = Some s →
  dict_get (streams w) (stream_id s) = Some l →
  store_behind w → store_behind (_save_stream l w).2.
Proof.
  intros R Hl Hreg H. destruct (saved s) eqn:Hsv.
  - by rewrite (save_stream_clean _ _ _ Hl Hsv).
  - destruct (store_down (length (store_log w))) eqn:Hst.
    + rewrite (save_stream_dirty_down _ _ _ Hl Hsv Hst). by apply (behind_same w).
    + rewrite (save_stream_dirty_up _ _ _ Hl Hsv Hst).
      by apply (behind_save w _ l s).
Qed.

(** The record built on a miss in memory is ahead of whatever the store has
    for its id. *)
Lemma fetched_former_state id p u g w s t :
  consistent w → timely w →
  fetched id p u g (find (matches id) (chat_streams w)) w = Ok (s, t) →
  ∀ d, d ∈ chat_streams w → d_stream_id d = Some (stream_id s) →
       former_state d s.
Proof.
  intros Hc Ht Hf d Hd Hid.
  destruct (fetched_facts _ _ _ _ _ _ _ _ Hf) as (Hsid & _).
  rewrite Hsid in Hid.
  rewrite (find_unique id d _ (cons_unique _ Hc) Hd Hid) in Hf.
  unfold fetched in Hf.
  assert (Hb : doc_bool d = true) by (unfold doc_bool; by rewrite Hid).
  rewrite Hb in Hf.
  destruct (doc_record d (clock (ticks w))) as [s0|e] eqn:Hrec; [|discriminate].
  injection Hf as <- <-. simpl.
  destruct (timely_docs _ Ht d Hd) as (ct & lat & Hct & Hlat & Hle & Hnow).
  destruct (doc_record_times _ _ _ _ _ Hrec Hct Hlat) as [Hc0 _].
  apply doc_record_fields in Hrec as (_ & Hp & _).
  split; [done|]. split; [by rewrite Hc0|]. exists lat. split; [done|].
  simpl. assert (H1 := clock_mono (ticks w)). lia.
Qed.

Lemma behind_get_or_create_stream p u g w :
  consistent w → timely w → store_behind w →
  store_behind (get_or_create_stream p u g w).2.
Proof.
  intros Hc Ht H.
  destruct (_generate_stream_id p u g) as [id|e] eqn:Hid;
    [|by rewrite (get_or_create_stream_no_id p u g w e Hid)].
  destruct (dict_get (streams w) id) as [stream|] eqn:Hin.
  - destruct (cons_refs _ Hc _ _ Hin) as (s & Hs & _).
    rewrite (get_or_create_stream_hit w p u g id stream s Hid Hin Hs).
    apply (behind_touch w _ stream s
             (mkChatStream (stream_id s) (platform s) u
                (match g with Some _ => g | None => group_info s end)
                (create_time s) (clock (ticks w)) false)); try done.
    simpl. by destruct (timely_heap _ Ht stream s Hs).
  - destruct (store_down (length (store_log w))) eqn:Hst.
    + rewrite (get_or_create_stream_read_fails w p u g id Hid Hin Hst).
      by apply (behind_same w).
    + rewrite (get_or_create_stream_miss w p u g id Hid Hin Hst).
      destruct (fetched id p u g _ w) as [[s t]|e] eqn:Hf;
        [|by apply (behind_same w)].
      destruct (fetched_facts _ _ _ _ _ _ _ _ Hf) as (Hsid & Hd & _).
      set (wi := mkWorld (heap w ++ [s])
                   (dict_set (streams w) id (length (heap w)))
                   (chat_streams w) t (store_log w) (logger w)).
      assert (Hci : consistent wi)
        by (apply (consistent_alloc w wi s); simpl; congruence).
      assert (Hwi : store_behind wi).
      { apply (behind_alloc w wi s); simpl; try done; try congruence.
        - apply Hc.
        - by apply (fetched_former_state id p u g w s t). }
      simpl. destruct (store_down (S _)).
      * by apply (behind_same wi).
      * apply (behind_save wi _ (length (heap w)) s); simpl; try done.
        -- apply Hci.
        -- by apply list_lookup_middle.
        -- rewrite Hsid. apply dict_get_set_eq.
        -- by rewrite insert_app_r_alt, Nat.sub_diag by lia.
Qed.

Lemma behind_load_body d w :
  consistent w → d ∈ chat_streams w →
  store_behind w → store_behind (load_body d w).2.
Proof.
  intros Hc Hd H. rewrite load_body_run.
  destruct (doc_record d (clock (ticks w))) as [s|e] eqn:Hrec; [|done].
  apply (behind_alloc w _ s); simpl; try done; [apply Hc|].
  intros d' Hd' Hid'.
  assert (d' = d) as ->.
  { apply (unique_doc (chat_streams w)); [apply Hc|done|done|].
    apply doc_record_fields in Hrec as (-> & _). done. }
  destruct (cons_docs _ Hc d Hd) as [s0 ->].
  destruct (doc_record_times _ _ _ _ _ Hrec eq_refl eq_refl) as [Hct Hlat].
  apply doc_record_fields in Hrec as (_ & Hp & _). simpl in Hp.
  split; [done|]. split; [simpl; by rewrite Hct|].
  exists (last_active_time s0). split; [done|]. rewrite Hlat. lia.
Qed.

Lemma behind_run a w :
  consistent w → timely w → store_behind w → store_behind (run a w).
Proof.
  intros Hc Ht H. destruct a as [p u g| | |]; unfold run.
  - by apply behind_get_or_create_stream.
  - assert (Hload : store_behind (load_all_streams w).2).
    { destruct (store_down (length (store_log w))) eqn:Hst.
      - rewrite (load_all_streams_down _ Hst). by apply (behind_same w).
      - rewrite (load_all_streams_up _ Hst).
        apply (for_each_invariant
                 (λ w0, consistent w0 ∧ store_behind w0
                        ∧ chat_streams w0 = chat_streams w)).
        + intros d w0 Hd (Hc0 & H0 & Hcs). split; [|split].
          * by apply consistent_load_body.
          * apply behind_load_body; [done|by rewrite Hcs|done].
          * by rewrite load_body_chat_streams.
        + split; [by apply (consistent_same w)|].
          split; [by apply (behind_same w)|done]. }
    unfold _initialize, try_except, mbind, M_bind.
    destruct (load_all_streams w) as [[[]|e] w1]; simpl in *;
      by apply (behind_same w1).
  - assert (Hsave : store_behind (_save_all_streams w).2).
    { unfold _save_all_streams.
      rewrite (bind_Ok _ _ w (dict_values (streams w)) w) by done.
      apply (for_each_invariant
               (λ w0, consistent w0 ∧ store_behind w0
                      ∧ streams w0 = streams w)); [|done].
      intros l w0 Hl (Hc0 & H0 & Hst0). rewrite <- Hst0 in Hl.
      destruct (dict_values_registered _ _ (cons_keys _ Hc0) Hl) as [id Hid].
      destruct (cons_refs _ Hc0 _ _ Hid) as (s & Hs & <-).
      split; [by apply (consistent_save_stream w0 l s)|].
      split; [apply (behind_save_stream w0 l s); [apply Hc0|done..]|].
      rewrite <- Hst0. by destruct (save_stream_effect l w0) as [-> _]. }
    unfold _auto_save_round, try_except, mbind, M_bind.
    destruct (_save_all_streams w) as [[[]|e] w1]; simpl in *;
      by apply (behind_same w1).
  - intros id l s d. discriminate.
Qed.

Lemma reachable_behind w : reachable w → store_behind w.
Proof.
  induction 1 as [|a w Hr IH].
  - intros id l s d. discriminate.
  - apply behind_run;
      [by apply reachable_consistent|by apply reachable_timely|done].
Qed.

End Behind.

(** X23: the store is never ahead of memory.  With a clock that never goes
    back, in every reachable state the document that the store gives for
    the id of a record of [streams] has the platform and the creation time
    of the record, and an activity time that is not later than the
    record's. *)
Theorem X23_store_never_ahead `{MB : MessageBase} `{Env : Environment}
    (Hmono : clock_monotone)
    (w : World) (id : string) (l : nat) (s : ChatStream) (d : Doc)
    (Hreach : reachable w)
    (Hreg : dict_get (streams w) id = Some l)
    (Hs : heap w !! l = Some s)
    (Hd : find (matches id) (chat_streams w) = Some d) :
  d_platform d = Some (platform s)
  ∧ d_create_time d = Some (create_time s)
  ∧ ∃ lat, d_last_active_time d = Some lat
           ∧ (lat ≤ last_active_time s)%Z.
Proof.
  apply find_some in Hd as [Hin Hm]. apply list_elem_of_In in Hin.
  apply bool_decide_eq_true in Hm.
  exact (reachable_behind Hmono w Hreach id l s d Hreg Hs Hin Hm).
Qed.

Lemma X23_store_never_ahead_witness :
  ∃ lat, d_last_active_time Sample2.doc_alice = Some lat ∧ (lat ≤ 1001)%Z.
Proof.
  assert (Hmono : clock_monotone (Env := Sample.env_up))
    by (intros n; simpl; lia).
  assert (Hs : heap Sample.w_updated !! 0%nat
               = Some (mkChatStream Sample.alice_id "qq" (Some Sample.alice')
                         None 1000 1001 false))
    by (vm_compute; reflexivity).
  assert (Hd : find (matches Sample.alice_id) (chat_streams Sample.w_updated)
               = Some Sample2.doc_alice)
    by (vm_compute; reflexivity).
  assert (Hreg : dict_get (streams Sample.w_updated) Sample.alice_id
                 = Some 0%nat)
    by (vm_compute; reflexivity).
  destruct (X23_store_never_ahead (Env := Sample.env_up) Hmono
              Sample.w_updated Sample.alice_id 0%nat _ _
              (proj1 sample_reachable) Hreg Hs Hd) as (_ & _ & H).
  exact H.
Defined.
